(** * Session and command arbitration of the Command Board backend

    A shallow embedding of the session manager, the command arbiter, the
    handoff workflow and the two scheduled reapers of [functions/index.js]
    (version 3.1.0), with the Firestore collections they touch modelled as
    finite maps from document id to document.

    Handlers run one at a time, each to completion against the store: the
    interleaving of concurrent calls and the retries of a transaction are
    not modelled.  The clock ([new Date()]) and the ids Firestore
    generates for added documents are arguments of the handlers.  Queries
    and batches have no size limits. *)

From stdpp Require Import gmap strings list fin_maps.
From Stdlib Require Import ZArith Sorted.

Local Open Scope Z_scope.

(** ** Documents *)

(** [customers/{customerId}]: the two quotas; either may be absent. *)
Module Customer.
Record t := mk {
  maxTotalSessions : option Z;
  maxCommandLicenses : option Z }.
End Customer.

(** [sessions/{sessionId}]: timestamps are milliseconds since the epoch. *)
Module Session.
Record t := mk {
  uid : string;
  customerId : string;
  loginTime : Z;
  lastActive : Z }.
End Session.

(** [incidents/{incidentId}]: [None] stands for a [null] or absent field. *)
Module Incident.
Record t := mk {
  incidentNumber : string;
  incidentName : option string;
  startTime : Z;
  status : string;
  endTime : option Z;
  customerId : string;
  commanderUid : option string;
  commanderSessionId : option string }.

Definition setCommand (u s : option string) (d : t) : t :=
  mk (incidentNumber d) (incidentName d) (startTime d) (status d)
     (endTime d) (customerId d) u s.

Definition setCommanderSessionId (s : option string) (d : t) : t :=
  mk (incidentNumber d) (incidentName d) (startTime d) (status d)
     (endTime d) (customerId d) (commanderUid d) s.

(** The object written by [closeIncident]. *)
Definition close (now : Z) (d : t) : t :=
  mk (incidentNumber d) (incidentName d) (startTime d) "Closed"
     (Some now) (customerId d) None None.
End Incident.

(** [commandRequests/{requestId}]: requests written before the session id
    was recorded have no [requesterSessionId]. *)
Module CommandRequest.
Record t := mk {
  incidentId : string;
  requesterUid : string;
  requesterName : string;
  requesterSessionId : option string;
  currentCommanderUid : string;
  status : string;
  requestTimestamp : Z;
  customerId : string }.

Definition setStatus (s : string) (r : t) : t :=
  mk (incidentId r) (requesterUid r) (requesterName r)
     (requesterSessionId r) (currentCommanderUid r) s
     (requestTimestamp r) (customerId r).
End CommandRequest.

(** [incidentLog] entries, as [logIncidentAction] writes them. *)
Module LogEntry.
Record t := mk {
  timestamp : Z;
  customerId : string;
  incidentId : string;
  eventType : string;
  details : string;
  metadata : list (string * string) }.
End LogEntry.

(** [assignments] and [units], as far as [closeIncident] reads and writes
    them. *)
Module Assignment.
Record t := mk {
  customerId : string;
  incidentId : string;
  unitId : string;
  releaseTime : option Z;
  notes : option string }.

Definition release (now : Z) (a : t) : t :=
  mk (customerId a) (incidentId a) (unitId a) (Some now)
     (Some "Released on incident closure").
End Assignment.

Module Unit.
Record t := mk {
  parentUnitId : option string;
  isSplit : bool;
  status : string }.

Definition reform (u : t) : t := mk (parentUnitId u) false "Available".
Definition makeAvailable (u : t) : t :=
  mk (parentUnitId u) (isSplit u) "Available".
End Unit.

(** The authorization context of [getAuthContextFromIdToken]. *)
Module AuthContext.
Record t := mk {
  uid : string;
  customerId : string;
  planLevel : string;
  name : string }.
End AuthContext.

(** The request parameters the functions below destructure. *)
Module Params.
Record t := mk {
  incidentId : option string;
  sessionId : option string;
  requestId : option string;
  incidentNumber : option string;
  incidentName : option string }.
End Params.

(** ** The store *)

Record State := mkState {
  customers : gmap string Customer.t;
  sessions : gmap string Session.t;
  incidents : gmap string Incident.t;
  commandRequests : gmap string CommandRequest.t;
  incidentLog : list LogEntry.t;
  assignments : gmap string Assignment.t;
  units : gmap string Unit.t }.

Definition setSessions (f : gmap string Session.t → gmap string Session.t)
    (st : State) : State :=
  mkState (customers st) (f (sessions st)) (incidents st)
    (commandRequests st) (incidentLog st) (assignments st) (units st).

Definition setIncidents (f : gmap string Incident.t → gmap string Incident.t)
    (st : State) : State :=
  mkState (customers st) (sessions st) (f (incidents st))
    (commandRequests st) (incidentLog st) (assignments st) (units st).

Definition setCommandRequests
    (f : gmap string CommandRequest.t → gmap string CommandRequest.t)
    (st : State) : State :=
  mkState (customers st) (sessions st) (incidents st)
    (f (commandRequests st)) (incidentLog st) (assignments st) (units st).

Definition setIncidentLog (f : list LogEntry.t → list LogEntry.t)
    (st : State) : State :=
  mkState (customers st) (sessions st) (incidents st)
    (commandRequests st) (f (incidentLog st)) (assignments st) (units st).

Definition setAssignments
    (f : gmap string Assignment.t → gmap string Assignment.t)
    (st : State) : State :=
  mkState (customers st) (sessions st) (incidents st)
    (commandRequests st) (incidentLog st) (f (assignments st)) (units st).

Definition setUnits (f : gmap string Unit.t → gmap string Unit.t)
    (st : State) : State :=
  mkState (customers st) (sessions st) (incidents st)
    (commandRequests st) (incidentLog st) (assignments st) (f (units st)).

(** ** Errors and results *)

Inductive ErrorCode :=
  | invalid_argument | unauthenticated | permission_denied | not_found
  | failed_precondition | already_exists | internal.

(** [HttpsError] is [functions.https.HttpsError]; [PlainError] is a bare
    [Error], which the router answers with status 500; [StoreError] is the
    failure of a commit whose [update] names a missing document. *)
Inductive ApiError :=
  | HttpsError (code : ErrorCode) (message : string)
  | PlainError (message : string)
  | StoreError.

Inductive Result (A : Type) :=
  | Ok (a : A)
  | Err (e : ApiError).
Arguments Ok {A} a.
Arguments Err {A} e.

Definition isOk {A} (r : Result A) : bool :=
  match r with Ok _ => true | Err _ => false end.

(** ** JavaScript and Firestore primitives *)

(** [x || d] on a number: zero and absent are falsy. *)
Definition orDefault (x : option Z) (d : Z) : Z :=
  match x with
  | Some 0 | None => d
  | Some n => n
  end.

(** The value of a string that passes an [if (x)] test. *)
Definition truthy (x : option string) : option string :=
  match x with
  | Some s => if bool_decide (s = "") then None else Some s
  | None => None
  end.

(** A [Set] in insertion order. *)
Definition setAdd (x : string) (l : list string) : list string :=
  if bool_decide (x ∈ l) then l else l ++ [x].

Fixpoint insertBy {A} (leb : A → A → bool) (x : A) (l : list A) : list A :=
  match l with
  | [] => [x]
  | y :: l' => if leb x y then x :: l else y :: insertBy leb x l'
  end.

Definition sortBy {A} (leb : A → A → bool) (l : list A) : list A :=
  foldr (insertBy leb) [] l.

(** The documents of a collection in document-id order, the order in which
    a query without an inequality filter returns them. *)
Definition docs {A} (m : gmap string A) : list (string * A) :=
  sortBy (λ a b, String.leb a.1 b.1) (map_to_list m).

(** A query: the documents that pass the filters, in document-id order.
    The queries with a [!=] filter, which Firestore orders by the filtered
    field, are only ever counted, tested for emptiness or read as a set. *)
Definition whereDocs {A} (p : string * A → bool) (m : gmap string A)
    : list (string * A) :=
  List.filter p (docs m).

(** One buffered write of a transaction or batch. *)
Inductive WriteOp :=
  | UpdateIncident (id : string) (f : Incident.t → Incident.t)
  | UpdateRequest (id : string) (f : CommandRequest.t → CommandRequest.t)
  | UpdateAssignment (id : string) (f : Assignment.t → Assignment.t)
  | UpdateUnit (id : string) (f : Unit.t → Unit.t)
  | DeleteUnit (id : string)
  | DeleteSession (id : string).

(** [update] fails on a missing document; [delete] never fails. *)
Definition applyWrite (w : WriteOp) (st : State) : option State :=
  match w with
  | UpdateIncident id f =>
      d ← incidents st !! id; Some (setIncidents (insert id (f d)) st)
  | UpdateRequest id f =>
      d ← commandRequests st !! id;
      Some (setCommandRequests (insert id (f d)) st)
  | UpdateAssignment id f =>
      d ← assignments st !! id; Some (setAssignments (insert id (f d)) st)
  | UpdateUnit id f =>
      d ← units st !! id; Some (setUnits (insert id (f d)) st)
  | DeleteUnit id => Some (setUnits (delete id) st)
  | DeleteSession id => Some (setSessions (delete id) st)
  end.

(** A commit applies every write or none. *)
Fixpoint commit (ws : list WriteOp) (st : State) : option State :=
  match ws with
  | [] => Some st
  | w :: ws' => st' ← applyWrite w st; commit ws' st'
  end.

(** ** Calls: a state and error monad

    Every handler reads and writes the store and may throw.  A throw keeps
    the writes already awaited, as the source does outside transactions. *)

Definition M (A : Type) : Type := State → Result A * State.

Definition ret {A} (a : A) : M A := λ st, (Ok a, st).
Definition throw {A} (e : ApiError) : M A := λ st, (Err e, st).
Definition bind {A B} (m : M A) (k : A → M B) : M B :=
  λ st, match m st with
        | (Ok a, st') => k a st'
        | (Err e, st') => (Err e, st')
        end.
Definition gets {A} (f : State → A) : M A := λ st, (Ok (f st), st).
Definition modify (f : State → State) : M unit := λ st, (Ok tt, f st).

Notation "'let*' x ':=' m 'in' k" := (bind m (λ x, k))
  (at level 10, x pattern, m at level 100, k at level 200).
Notation "m ';;' k" := (bind m (λ _, k))
  (at level 100, k at level 200, right associativity).

(** [if (c) throw e]. *)
Definition throwIf (c : bool) (e : ApiError) : M unit :=
  if c then throw e else ret tt.

(** [const x = o], throwing [e] when [o] is missing. *)
Definition orThrow {A} (o : option A) (e : ApiError) : M A :=
  match o with
  | Some a => ret a
  | None => throw e
  end.

(** [batch.commit()] and the commit that ends [db.runTransaction]. *)
Definition commitM (ws : list WriteOp) : M unit :=
  λ st, match commit ws st with
        | Some st' => (Ok tt, st')
        | None => (Err StoreError, st)
        end.

(** [collection.add(d)]: [newId] is the id Firestore generates. *)
Definition addSession (newId : string) (d : Session.t) : M unit :=
  modify (setSessions (insert newId d)).

(** [logIncidentAction]. *)
Definition logIncidentAction (e : LogEntry.t) : M unit :=
  if bool_decide (LogEntry.customerId e = "")
     || bool_decide (LogEntry.incidentId e = "")
     || bool_decide (LogEntry.eventType e = "")
  then ret tt
  else modify (setIncidentLog (λ l, l ++ [e])).

(** The entries the handlers log. *)
Definition approvalEntry (now : Z) (auth : AuthContext.t)
    (req : CommandRequest.t) : LogEntry.t :=
  LogEntry.mk now (AuthContext.customerId auth)
    (CommandRequest.incidentId req) "COMMAND_APPROVED"
    ("Command transferred to " ++ CommandRequest.requesterName req ++ ".")
    [("approvedBy", AuthContext.uid auth);
     ("newCommander", CommandRequest.requesterUid req)].

Definition denialEntry (now : Z) (auth : AuthContext.t)
    (req : CommandRequest.t) : LogEntry.t :=
  LogEntry.mk now (AuthContext.customerId auth)
    (CommandRequest.incidentId req) "COMMAND_DENIED"
    ("Command request from " ++ CommandRequest.requesterName req
       ++ " was denied.")
    [("deniedBy", AuthContext.uid auth);
     ("requester", CommandRequest.requesterUid req)].

Definition requestEntry (now : Z) (auth : AuthContext.t)
    (incidentId commanderUid : string) : LogEntry.t :=
  LogEntry.mk now (AuthContext.customerId auth) incidentId "COMMAND_REQUEST"
    ("User " ++ AuthContext.name auth ++ " requested command.")
    [("requesterUid", AuthContext.uid auth); ("commanderUid", commanderUid)].

Definition reestablishEntry (now : Z) (auth : AuthContext.t)
    (incidentId sessionId : string) : LogEntry.t :=
  LogEntry.mk now (AuthContext.customerId auth) incidentId
    "COMMAND_REESTABLISHED"
    ("Commander " ++ AuthContext.name auth ++ " re-established command.")
    [("uid", AuthContext.uid auth); ("newSessionId", sessionId)].

(** [getAndVerifyDoc(collectionName, docId, customerId)], given the
    collection of that name and the [customerId] field of its documents. *)
Definition getAndVerifyDoc {A} (collectionName : string)
    (collection : State → gmap string A) (customerIdOf : A → string)
    (docId customerId : string) : M A :=
  let* doc := gets (λ st, collection st !! docId) in
  let* data :=
    orThrow doc (PlainError (collectionName ++ " document not found.")) in
  throwIf (negb (bool_decide (customerIdOf data = customerId)))
    (HttpsError permission_denied
       ("Access denied to " ++ collectionName ++ " document."));;
  ret data.

(** ** Session manager *)

Definition sessionsOf (customerId : string) (st : State)
    : list (string * Session.t) :=
  whereDocs (λ d, bool_decide (Session.customerId d.2 = customerId))
    (sessions st).

(** The tenant quota as the handlers read it: [maxTotalSessions || 1]. *)
Definition maxTotalSessions (c : Customer.t) : Z :=
  orDefault (Customer.maxTotalSessions c) 1.

(** Check #2 query: the first Active incident of the tenant commanded by
    [uid]. *)
Definition commanderQuery (customerId uid : string) (st : State)
    : list (string * Incident.t) :=
  take 1 (whereDocs (λ d,
    bool_decide (Incident.customerId d.2 = customerId)
    && bool_decide (Incident.commanderUid d.2 = Some uid)
    && bool_decide (Incident.status d.2 = "Active")) (incidents st)).

(** Check #3 query: the session ids recorded on the tenant's Active
    incidents. *)
Definition commandingSessionIds (customerId : string) (st : State)
    : list string :=
  omap (λ d, Incident.commanderSessionId d.2)
    (whereDocs (λ d,
      bool_decide (Incident.customerId d.2 = customerId)
      && bool_decide (Incident.status d.2 = "Active")
      && bool_decide (is_Some (Incident.commanderSessionId d.2)))
      (incidents st)).

(** One round of the [forEach] that looks for the oldest stale session. *)
Definition oldestStaleStep (commanding : list string) (staleThreshold : Z)
    (oldestStaleSession : option (string * Z)) (doc : string * Session.t)
    : option (string * Z) :=
  let isCommanding := bool_decide (doc.1 ∈ commanding) in
  let lastActiveTime := Session.lastActive doc.2 in
  if negb isCommanding && (lastActiveTime <? staleThreshold) then
    let isOlder :=
      match oldestStaleSession with
      | None => true
      | Some o => lastActiveTime <? o.2
      end in
    if isOlder then Some (doc.1, lastActiveTime) else oldestStaleSession
  else oldestStaleSession.

Definition fifteenMinutesInMs : Z := 15 * 60 * 1000.

Definition noSlotMsg : string :=
  "All available device slots are currently in active use. Please log out from another device or wait for one to become inactive.".

Definition createSession (newId : string) (now : Z) (auth : AuthContext.t)
    : M string :=
  let uid := AuthContext.uid auth in
  let customerId := AuthContext.customerId auth in
  let* customerDoc := gets (λ st, customers st !! customerId) in
  let* currentSessionsSnapshot := gets (sessionsOf customerId) in
  let* customer :=
    orThrow customerDoc (HttpsError not_found "Customer not found.") in
  let currentSessionCount := Z.of_nat (length currentSessionsSnapshot) in
  let sessionData := Session.mk uid customerId now now in
  if currentSessionCount <? maxTotalSessions customer then
    addSession newId sessionData;; ret newId
  else
    let* commanderSnapshot := gets (commanderQuery customerId uid) in
    match head commanderSnapshot
            ≫= (λ d, truthy (Incident.commanderSessionId d.2)) with
    | Some oldSessionId =>
        modify (setSessions (delete oldSessionId));;
        addSession newId sessionData;; ret newId
    | None =>
        let staleThreshold := now - fifteenMinutesInMs in
        let* commanding := gets (commandingSessionIds customerId) in
        match fold_left (oldestStaleStep commanding staleThreshold)
                currentSessionsSnapshot None with
        | Some oldestStaleSession =>
            modify (setSessions (delete oldestStaleSession.1));;
            addSession newId sessionData;; ret newId
        | None =>
            throw (HttpsError permission_denied noSlotMsg)
        end
    end.

Definition endSession (params : Params.t) (auth : AuthContext.t) : M string :=
  let* sessionId :=
    orThrow (truthy (Params.sessionId params))
      (HttpsError invalid_argument "A sessionId is required.") in
  let* sessionDoc := gets (λ st, sessions st !! sessionId) in
  match sessionDoc with
  | Some s =>
      if bool_decide (Session.uid s = AuthContext.uid auth) then
        modify (setSessions (delete sessionId));;
        ret "Session ended successfully."
      else ret "Session not found or access denied."
  | None => ret "Session not found or access denied."
  end.

(** ** Command arbiter *)

(** The command-license quota as the handlers read it:
    [maxCommandLicenses || 1]. *)
Definition maxCommandLicenses (c : Customer.t) : Z :=
  orDefault (Customer.maxCommandLicenses c) 1.

(** Gatekeeper query #1: the tenant's Active incidents with a commander. *)
Definition commandingIncidentsQuery (customerId : string) (st : State)
    : list (string * Incident.t) :=
  whereDocs (λ d,
    bool_decide (Incident.customerId d.2 = customerId)
    && bool_decide (Incident.status d.2 = "Active")
    && bool_decide (is_Some (Incident.commanderUid d.2))) (incidents st).

(** Gatekeeper query #2 of [takeIncidentCommand]: the tenant's incidents
    commanded by [uid], the target apart.  The query has no status filter. *)
Definition userIncidentsQuery (customerId uid incidentId : string)
    (st : State) : list (string * Incident.t) :=
  whereDocs (λ d,
    bool_decide (Incident.customerId d.2 = customerId)
    && bool_decide (Incident.commanderUid d.2 = Some uid)
    && negb (bool_decide (d.1 = incidentId))) (incidents st).

Definition invalidSessionMsg : string :=
  "Your session is invalid. Please log in again.".
Definition noLicenseMsg : string :=
  "All available command licenses for your department are currently in use.".
Definition alreadyCommandingMsg : string :=
  "This account is already commanding another active incident. Please close it first.".

Definition takeIncidentCommand (params : Params.t) (auth : AuthContext.t)
    : M string :=
  let uid := AuthContext.uid auth in
  let customerId := AuthContext.customerId auth in
  match truthy (Params.incidentId params),
        truthy (Params.sessionId params) with
  | Some incidentId, Some sessionId =>
      let* sessionDoc := gets (λ st, sessions st !! sessionId) in
      throwIf
        (negb (bool_decide (Session.uid <$> sessionDoc = Some uid)))
        (HttpsError permission_denied invalidSessionMsg);;
      (* db.runTransaction *)
      let* customerDoc := gets (λ st, customers st !! customerId) in
      let* incidentDoc := gets (λ st, incidents st !! incidentId) in
      let* customer :=
        orThrow customerDoc (PlainError "Customer profile not found.") in
      let* incidentData :=
        orThrow
          (incidentDoc ≫= λ d,
             if bool_decide (Incident.customerId d = customerId)
             then Some d else None)
          (PlainError "Incident not found or access denied.") in
      let* commandingSnapshot := gets (commandingIncidentsQuery customerId) in
      throwIf
        ((maxCommandLicenses customer
            <=? Z.of_nat (length commandingSnapshot))
         && negb (bool_decide (Incident.commanderUid incidentData = Some uid)))
        (HttpsError permission_denied noLicenseMsg);;
      let* userIncidentsSnapshot :=
        gets (userIncidentsQuery customerId uid incidentId) in
      throwIf (negb (bool_decide (userIncidentsSnapshot = [])))
        (HttpsError permission_denied alreadyCommandingMsg);;
      commitM [UpdateIncident incidentId
                 (Incident.setCommand (Some uid) (Some sessionId))];;
      ret "command_granted"
  | _, _ =>
      throw (HttpsError invalid_argument
               "Incident ID and Session ID are required.")
  end.

(** [String.prototype.trim], on the ASCII white space. *)
Fixpoint trimStart (s : string) : string :=
  match s with
  | String c s' => if Ascii.is_space c then trimStart s' else s
  | EmptyString => EmptyString
  end.
Definition trim (s : string) : string :=
  String.rev (trimStart (String.rev (trimStart s))).

(** Gatekeeper query #2 of [startNewIncident]. *)
Definition activeUserIncidentsQuery (customerId uid : string) (st : State)
    : list (string * Incident.t) :=
  take 1 (whereDocs (λ d,
    bool_decide (Incident.customerId d.2 = customerId)
    && bool_decide (Incident.commanderUid d.2 = Some uid)
    && bool_decide (Incident.status d.2 = "Active")) (incidents st)).

(** [newId] is the id Firestore gives the incident; [defaultNumber] is the
    [YYYYMMDD-HHMM] rendering of [now] in the server's time zone. *)
Definition startNewIncident (newId defaultNumber : string) (now : Z)
    (query : Params.t) (auth : AuthContext.t) : M (string * Incident.t) :=
  let uid := AuthContext.uid auth in
  let customerId := AuthContext.customerId auth in
  let* sessionId :=
    orThrow (truthy (Params.sessionId query))
      (HttpsError invalid_argument
         "A valid sessionId is required to start an incident.") in
  let* customerDoc := gets (λ st, customers st !! customerId) in
  let* customer :=
    orThrow customerDoc (PlainError "Customer profile not found.") in
  let* commandingSnapshot := gets (commandingIncidentsQuery customerId) in
  throwIf
    (maxCommandLicenses customer <=? Z.of_nat (length commandingSnapshot))
    (HttpsError permission_denied noLicenseMsg);;
  let* userIncidentsSnapshot :=
    gets (activeUserIncidentsQuery customerId uid) in
  throwIf (negb (bool_decide (userIncidentsSnapshot = [])))
    (HttpsError failed_precondition alreadyCommandingMsg);;
  let numberToSave :=
    match Params.incidentNumber query with
    | Some n => if bool_decide (trim n = "") then defaultNumber else trim n
    | None => defaultNumber
    end in
  let newIncidentData :=
    Incident.mk numberToSave
      (trim <$> truthy (Params.incidentName query))
      now "Active" None customerId (Some uid) (Some sessionId) in
  modify (setIncidents (insert newId newIncidentData));;
  ret (newId, newIncidentData).

(** The open assignments of the incident. *)
Definition assignQuery (customerId incidentId : string) (st : State)
    : list (string * Assignment.t) :=
  whereDocs (λ d,
    bool_decide (Assignment.customerId d.2 = customerId)
    && bool_decide (Assignment.incidentId d.2 = incidentId)
    && bool_decide (Assignment.releaseTime d.2 = None)) (assignments st).

(** [unitsRef.where(documentId(), "in", ids)]. *)
Definition unitsIn (ids : list string) (st : State)
    : list (string * Unit.t) :=
  whereDocs (λ d, bool_decide (d.1 ∈ ids)) (units st).

(** The batch of [closeIncident] when units are still assigned. *)
Definition closeBatch (now : Z) (incidentId : string)
    (assignSnapshot : list (string * Assignment.t)) (st : State)
    : list WriteOp :=
  let assignedUnitIds := map (λ d, Assignment.unitId d.2) assignSnapshot in
  let assignedUnitsSnapshot := unitsIn assignedUnitIds st in
  let split :=
    List.filter (λ d, bool_decide (is_Some (truthy (Unit.parentUnitId d.2))))
      assignedUnitsSnapshot in
  let parentIds :=
    fold_left (λ acc d,
      match truthy (Unit.parentUnitId d.2) with
      | Some p => setAdd p acc
      | None => acc
      end) split [] in
  let subunitIds := fold_left (λ acc d, setAdd d.1 acc) split [] in
  let parentUnitsSnapshot :=
    if bool_decide (parentIds = []) then [] else unitsIn parentIds st in
  map (λ d, UpdateUnit d.1 Unit.reform) parentUnitsSnapshot
  ++ map DeleteUnit subunitIds
  ++ flat_map (λ d,
       let unitId := Assignment.unitId d.2 in
       UpdateAssignment d.1 (Assignment.release now)
       :: (if bool_decide (unitId ∈ parentIds)
              || bool_decide (unitId ∈ subunitIds) then []
           else
             match List.find (λ u, bool_decide (u.1 = unitId))
                     assignedUnitsSnapshot with
             | Some u =>
                 if bool_decide (Unit.status u.2 = "Out of Service") then []
                 else [UpdateUnit unitId Unit.makeAvailable]
             | None => []
             end)) assignSnapshot
  ++ [UpdateIncident incidentId (Incident.close now)].

Definition closeIncident (now : Z) (params : Params.t) (auth : AuthContext.t)
    : M string :=
  let uid := AuthContext.uid auth in
  let customerId := AuthContext.customerId auth in
  let* incidentId :=
    orThrow (truthy (Params.incidentId params))
      (PlainError "Incident ID is required.") in
  let* incidentData :=
    getAndVerifyDoc "incidents" incidents Incident.customerId incidentId
      customerId in
  throwIf (negb (bool_decide (Incident.commanderUid incidentData = Some uid)))
    (HttpsError permission_denied
       "Only the active commander can close this incident.");;
  let* assignSnapshot := gets (assignQuery customerId incidentId) in
  if bool_decide (assignSnapshot = []) then
    commitM [UpdateIncident incidentId (Incident.close now)];;
    ret "Incident closed successfully."
  else
    let* batch := gets (closeBatch now incidentId assignSnapshot) in
    commitM batch;;
    ret "Incident closed, all units released, and split units reformed.".

Definition notCommanderMsg : string :=
  "Permission denied. You are not the current commander.".

Definition reestablishCommand (now : Z) (params : Params.t)
    (auth : AuthContext.t) : M string :=
  let uid := AuthContext.uid auth in
  match truthy (Params.incidentId params),
        truthy (Params.sessionId params) with
  | Some incidentId, Some sessionId =>
      (* db.runTransaction *)
      let* incidentDoc := gets (λ st, incidents st !! incidentId) in
      let* incidentData :=
        orThrow incidentDoc (PlainError "Incident not found.") in
      throwIf
        (negb (bool_decide (Incident.commanderUid incidentData = Some uid)))
        (HttpsError permission_denied notCommanderMsg);;
      logIncidentAction (reestablishEntry now auth incidentId sessionId);;
      commitM [UpdateIncident incidentId
                 (Incident.setCommanderSessionId (Some sessionId))];;
      ret "command_reestablished"
  | _, _ =>
      throw (HttpsError invalid_argument
               "Incident ID and Session ID are required.")
  end.

(** ** Handoff workflow *)

(** The pending requests of an incident (the query keeps the first). *)
Definition existingReqQuery (incidentId : string) (st : State)
    : list (string * CommandRequest.t) :=
  take 1 (whereDocs (λ d,
    bool_decide (CommandRequest.incidentId d.2 = incidentId)
    && bool_decide (CommandRequest.status d.2 = "pending"))
    (commandRequests st)).

Definition notCommandedMsg : string :=
  "This incident is not currently commanded. You can take command directly.".
Definition ownCommandMsg : string :=
  "You are already the commander of this incident.".
Definition pendingMsg : string :=
  "A command request for this incident is already pending.".

(** [newId] is the id Firestore gives the request. *)
Definition requestIncidentCommand (newId : string) (now : Z)
    (params : Params.t) (auth : AuthContext.t)
    : M (string * CommandRequest.t) :=
  let uid := AuthContext.uid auth in
  let customerId := AuthContext.customerId auth in
  match truthy (Params.incidentId params),
        truthy (Params.sessionId params) with
  | Some incidentId, Some sessionId =>
      let* incidentData :=
    getAndVerifyDoc "incidents" incidents Incident.customerId incidentId
      customerId in
      let* commanderUid :=
        orThrow (truthy (Incident.commanderUid incidentData))
          (HttpsError failed_precondition notCommandedMsg) in
      throwIf (bool_decide (commanderUid = uid))
        (HttpsError failed_precondition ownCommandMsg);;
      let* existingReqSnapshot := gets (existingReqQuery incidentId) in
      throwIf (negb (bool_decide (existingReqSnapshot = [])))
        (HttpsError already_exists pendingMsg);;
      let newRequest :=
        CommandRequest.mk incidentId uid (AuthContext.name auth)
          (Some sessionId) commanderUid "pending" now customerId in
      modify (setCommandRequests (insert newId newRequest));;
      logIncidentAction (requestEntry now auth incidentId commanderUid);;
      ret (newId, newRequest)
  | _, _ =>
      throw (HttpsError invalid_argument
               "Incident ID and Session ID are required for a request.")
  end.

Definition notApproverMsg : string :=
  "You are not authorized to approve this request.".
Definition notDenierMsg : string :=
  "You are not authorized to deny this request.".

Definition approveCommandRequest (now : Z) (params : Params.t)
    (auth : AuthContext.t) : M string :=
  let* requestId :=
    orThrow (truthy (Params.requestId params))
      (HttpsError invalid_argument
         "A Request ID is required to approve command.") in
  (* db.runTransaction *)
  let* requestDoc := gets (λ st, commandRequests st !! requestId) in
  let* requestData :=
    orThrow requestDoc (PlainError "Command request not found.") in
  throwIf
    (negb (bool_decide
       (CommandRequest.currentCommanderUid requestData
        = AuthContext.uid auth)))
    (HttpsError permission_denied notApproverMsg);;
  let* requesterSessionId :=
    orThrow (truthy (CommandRequest.requesterSessionId requestData))
      (PlainError "Cannot approve: Requester session ID is missing.") in
  (* [doc] rejects an empty document path *)
  throwIf (bool_decide (CommandRequest.incidentId requestData = ""))
    (PlainError "Path must be a non-empty string.");;
  logIncidentAction (approvalEntry now auth requestData);;
  commitM
    [UpdateIncident (CommandRequest.incidentId requestData)
       (Incident.setCommand
          (Some (CommandRequest.requesterUid requestData))
          (Some requesterSessionId));
     UpdateRequest requestId (CommandRequest.setStatus "approved")];;
  ret "Command approved.".

Definition denyCommandRequest (now : Z) (params : Params.t)
    (auth : AuthContext.t) : M string :=
  let* requestId :=
    orThrow (truthy (Params.requestId params))
      (HttpsError invalid_argument "Request ID is required.") in
  let* requestDoc := gets (λ st, commandRequests st !! requestId) in
  let* requestData :=
    orThrow requestDoc (PlainError "Command request not found.") in
  throwIf
    (negb (bool_decide
       (CommandRequest.currentCommanderUid requestData
        = AuthContext.uid auth)))
    (HttpsError permission_denied notDenierMsg);;
  commitM [UpdateRequest requestId (CommandRequest.setStatus "denied")];;
  logIncidentAction (denialEntry now auth requestData);;
  ret "Request denied.".

(** ** Liveness reapers *)

(** A query with an inequality on [lastActive] returns its documents by
    [lastActive], then by id. *)
Definition byLastActive (a b : string * Session.t) : bool :=
  (Session.lastActive a.2 <? Session.lastActive b.2)
  || ((Session.lastActive a.2 =? Session.lastActive b.2)
      && String.leb a.1 b.1).

Definition olderThan (threshold : Z) (st : State)
    : list (string * Session.t) :=
  sortBy byLastActive
    (whereDocs (λ d, Session.lastActive d.2 <? threshold) (sessions st)).

Definition twoHoursInMs : Z := 2 * 60 * 60 * 1000.

Definition staleSessionsQuery (now : Z) (st : State)
    : list (string * Session.t) :=
  olderThan (now - twoHoursInMs) st.

Definition lockedIncidentsQuery (staleSessionIds : list string) (st : State)
    : list (string * Incident.t) :=
  whereDocs (λ d,
    bool_decide (Incident.status d.2 = "Active")
    && match Incident.commanderSessionId d.2 with
       | Some s => bool_decide (s ∈ staleSessionIds)
       | None => false
       end) (incidents st).

(** The [sessionsToDelete] set after the [forEach] over the locked
    incidents. *)
Definition sessionsToDelete (locked : list (string * Incident.t))
    : list string :=
  fold_left (λ acc d,
    match Incident.commanderSessionId d.2 with
    | Some s => setAdd s acc
    | None => acc
    end) locked [].

(** The batch of the hourly sweep. *)
Definition staleCommandBatch (locked : list (string * Incident.t))
    : list WriteOp :=
  map (λ d, UpdateIncident d.1 (Incident.setCommand None None)) locked
  ++ map DeleteSession (sessionsToDelete locked).

Definition cleanupstalecommandsessions (now : Z) : M unit :=
  let* staleSessionsSnapshot := gets (staleSessionsQuery now) in
  if bool_decide (staleSessionsSnapshot = []) then ret tt
  else
    let staleSessionIds := map fst staleSessionsSnapshot in
    let* lockedIncidentsSnapshot :=
      gets (lockedIncidentsQuery staleSessionIds) in
    if bool_decide (lockedIncidentsSnapshot = []) then ret tt
    else commitM (staleCommandBatch lockedIncidentsSnapshot).


Definition sixtyDaysInMs : Z := 60 * 24 * 60 * 60 * 1000.

Definition cleanupoldsessions (now : Z) : M unit :=
  let* snapshot :=
    gets (λ st, take 400 (olderThan (now - sixtyDaysInMs) st)) in
  if bool_decide (snapshot = []) then ret tt
  else commitM (map (λ d, DeleteSession d.1) snapshot).

(** * Vocabulary of the properties

    The predicates the statements below are written in, and the stores of
    the scenarios they are tried on. *)

(** ** Quota of sessions *)

Definition exec {A} (m : M A) (st : State) : State := (m st).2.

Definition sessionCount (customerId : string) (st : State) : Z :=
  Z.of_nat (length (sessionsOf customerId st)).

(** The tenant holds no more sessions than its quota. *)
Definition withinQuota (customerId : string) (st : State) : Prop :=
  ∀ c, customers st !! customerId = Some c →
       sessionCount customerId st <= maxTotalSessions c.

(** A tenant with one session slot and one command license, and the calls
    of one user from three devices. *)
Module Scenario.
Definition tenant : Customer.t := Customer.mk (Some 1) (Some 1).
Definition user1 : AuthContext.t :=
  AuthContext.mk "user1" "T" "Basic" "User One".
Definition user2 : AuthContext.t :=
  AuthContext.mk "user2" "T" "Basic" "User Two".
Definition withSession (s : string) : Params.t :=
  Params.mk None (Some s) None None None.
Definition onIncident (i s : string) : Params.t :=
  Params.mk (Some i) (Some s) None None None.
Definition onRequest (r : string) : Params.t :=
  Params.mk None None (Some r) None None.

Definition st0 : State := mkState {["T" := tenant]} ∅ ∅ ∅ [] ∅ ∅.
(** Device A logs in and starts incident I1. *)
Definition st1 : State := exec (createSession "A" 0 user1) st0.
Definition st2 : State :=
  exec (startNewIncident "I1" "20260101-0000" 10 (withSession "A") user1)
    st1.
(** Device B logs in: privileged re-entry bumps A. *)
Definition st3 : State := exec (createSession "B" 20 user1) st2.
End Scenario.

(** Unfolding one handler into its decision tree. *)
Ltac unfoldM :=
  unfold bind, gets, modify, ret, throw, throwIf, orThrow, commitM,
    addSession, exec.

(** ** Taking command *)

Definition commandingCount (customerId : string) (st : State) : Z :=
  Z.of_nat (length (commandingIncidentsQuery customerId st)).

(** What [takeIncidentCommand] writes on success. *)
Definition grantCommand (incidentId uid sessionId : string)
    (inc : Incident.t) (st : State) : State :=
  setIncidents
    (insert incidentId (Incident.setCommand (Some uid) (Some sessionId) inc))
    st.

(** A board with three session slots and one license: user1 commands I1
    from session A, I2 is Active and uncommanded, user2 holds session B. *)
Module Board.
Definition tenant : Customer.t := Customer.mk (Some 3) (Some 1).
Definition sessionA : Session.t := Session.mk "user1" "T" 0 0.
Definition sessionB : Session.t := Session.mk "user2" "T" 5 5.
Definition incident1 : Incident.t :=
  Incident.mk "2026-001" None 10 "Active" None "T"
    (Some "user1") (Some "A").
Definition incident2 : Incident.t :=
  Incident.mk "2026-002" None 11 "Active" None "T" None None.
Definition st : State :=
  mkState {["T" := tenant]}
    (<["A" := sessionA]> {["B" := sessionB]})
    (<["I1" := incident1]> {["I2" := incident2]})
    ∅ [] ∅ ∅.
End Board.

(** ** One Active incident per commander *)

(** [uid] is the recorded commander of the Active incident [i] of the
    tenant. *)
Definition commandsActive (uid customerId : string) (st : State)
    (i : string) : Prop :=
  ∃ d, incidents st !! i = Some d
       ∧ Incident.customerId d = customerId
       ∧ Incident.status d = "Active"
       ∧ Incident.commanderUid d = Some uid.

(** No user commands two Active incidents of one tenant. *)
Definition singleCommand (st : State) : Prop :=
  ∀ customerId uid i j,
    commandsActive uid customerId st i →
    commandsActive uid customerId st j → i = j.

(** ** Approving and denying a request *)

Definition logged (e : LogEntry.t) (st : State) : State :=
  exec (logIncidentAction e) st.

(** The store after an approval has committed. *)
Definition transferred (now : Z) (auth : AuthContext.t) (requestId : string)
    (req : CommandRequest.t) (sessionId : string) (inc : Incident.t)
    (st : State) : State :=
  setCommandRequests
    (insert requestId (CommandRequest.setStatus "approved" req))
    (setIncidents
       (insert (CommandRequest.incidentId req)
          (Incident.setCommand (Some (CommandRequest.requesterUid req))
             (Some sessionId) inc))
       (logged (approvalEntry now auth req) st)).

(** On the board, user2 asks for command of I1 from session B (request
    R1), and user1 denies. *)
Module Handoff.
Definition st1 : State :=
  exec (requestIncidentCommand "R1" 100 (Scenario.onIncident "I1" "B")
          Scenario.user2) Board.st.
Definition request1 : CommandRequest.t :=
  CommandRequest.mk "I1" "user2" "User Two" (Some "B") "user1" "pending"
    100 "T".
Definition st2 : State :=
  exec (denyCommandRequest 110 (Scenario.onRequest "R1") Scenario.user1) st1.
End Handoff.

(** The store after a denial. *)
Definition denied (now : Z) (auth : AuthContext.t) (requestId : string)
    (req : CommandRequest.t) (st : State) : State :=
  logged (denialEntry now auth req)
    (setCommandRequests
       (insert requestId (CommandRequest.setStatus "denied" req)) st).

(** ** The status of a request *)

Definition resolved (req : CommandRequest.t) : Prop :=
  CommandRequest.status req = "approved"
  ∨ CommandRequest.status req = "denied".

(** The reading under which approved and denied are terminal: a call of
    either handler leaves a resolved request, and through it the
    incident, as they were. *)
Definition requestsAreTerminal : Prop :=
  ∀ now params auth st requestId req,
    commandRequests st !! requestId = Some req →
    resolved req →
    (commandRequests (exec (approveCommandRequest now params auth) st)
       !! requestId = Some req
     ∧ incidents (exec (approveCommandRequest now params auth) st)
       = incidents st)
    ∧ commandRequests (exec (denyCommandRequest now params auth) st)
        !! requestId = Some req.

(** ** Requesting command *)

(** [requestId] is a pending request for the incident. *)
Definition pendingFor (st : State) (incidentId requestId : string) : Prop :=
  ∃ r, commandRequests st !! requestId = Some r
       ∧ CommandRequest.incidentId r = incidentId
       ∧ CommandRequest.status r = "pending".


(** The store after a request has been recorded. *)
Definition requested (newId : string) (now : Z) (auth : AuthContext.t)
    (incidentId sessionId commanderUid : string) (st : State) : State :=
  logged (requestEntry now auth incidentId commanderUid)
    (setCommandRequests
       (insert newId
          (CommandRequest.mk incidentId (AuthContext.uid auth)
             (AuthContext.name auth) (Some sessionId) commanderUid
             "pending" now (AuthContext.customerId auth))) st).





(** ** Re-establishing command *)

(** The reading under which every refusal is permission-denied. *)
Definition reestablishRefusesWithPermissionDenied : Prop :=
  ∀ now params auth st incidentId sessionId,
    truthy (Params.incidentId params) = Some incidentId →
    truthy (Params.sessionId params) = Some sessionId →
    ¬ (∃ inc, incidents st !! incidentId = Some inc
              ∧ Incident.commanderUid inc = Some (AuthContext.uid auth)) →
    ∃ msg, reestablishCommand now params auth st
           = (Err (HttpsError permission_denied msg), st).

(** ** The hourly sweep *)

(** Committing updates of one field function to existing incidents, and
    deletions of sessions. *)
Definition alterAll {A} (f : A → A) (ks : list string) (m : gmap string A)
    : gmap string A :=
  fold_left (λ m k, alter f k m) ks m.

Definition deleteAll {A} (ks : list string) (m : gmap string A)
    : gmap string A :=
  fold_left (λ m k, delete k m) ks m.

(** Membership in the three snapshots of the sweep. *)
Definition stale (now : Z) (st : State) (sessionId : string) : Prop :=
  ∃ s, sessions st !! sessionId = Some s
       ∧ Session.lastActive s < now - twoHoursInMs.

(** An Active incident whose recorded commanding session is stale, and a
    stale session recorded on an Active incident. *)
Definition heldByStale (now : Z) (st : State) (inc : Incident.t) : Prop :=
  Incident.status inc = "Active"
  ∧ ∃ sid, Incident.commanderSessionId inc = Some sid ∧ stale now st sid.

Definition recordedStale (now : Z) (st : State) (sessionId : string) : Prop :=
  stale now st sessionId
  ∧ ∃ iid inc, incidents st !! iid = Some inc
               ∧ Incident.status inc = "Active"
               ∧ Incident.commanderSessionId inc = Some sessionId.

Definition lockedNow (now : Z) (st : State) : list (string * Incident.t) :=
  lockedIncidentsQuery (map fst (staleSessionsQuery now st)) st.

(** The store after one run of the sweep. *)
Definition swept (now : Z) (st : State) : State :=
  setSessions (deleteAll (sessionsToDelete (lockedNow now st)))
    (setIncidents
       (alterAll (Incident.setCommand None None)
          (map fst (lockedNow now st))) st).

(** ** Privileged re-entry *)

(** The reading under which any commanded incident with a recorded
    session admits the caller and has that session bumped. *)
Definition anyCommandedIncidentAdmits : Prop :=
  ∀ newId now auth st c iid inc sid,
    customers st !! AuthContext.customerId auth = Some c →
    maxTotalSessions c <= sessionCount (AuthContext.customerId auth) st →
    incidents st !! iid = Some inc →
    Incident.customerId inc = AuthContext.customerId auth →
    Incident.status inc = "Active" →
    Incident.commanderUid inc = Some (AuthContext.uid auth) →
    Incident.commanderSessionId inc = Some sid →
    newId ≠ sid →
    (createSession newId now auth st).1 = Ok newId
    ∧ sessions (exec (createSession newId now auth) st) !! sid = None.

(** A tenant with one slot, held by user2, in which user1 is recorded as
    commander of I1, which records no session, and of I2, which records
    session A. *)
Module Legacy.
Definition incident1 : Incident.t :=
  Incident.mk "2025-001" None 1 "Active" None "T" (Some "user1") None.
Definition incident2 : Incident.t :=
  Incident.mk "2025-002" None 2 "Active" None "T" (Some "user1") (Some "A").
Definition st : State :=
  mkState {["T" := Scenario.tenant]}
    {["B" := Session.mk "user2" "T" 990 995]}
    (<["I1" := incident1]> {["I2" := incident2]})
    ∅ [] ∅ ∅.
End Legacy.

(** ** Consistency of the commander fields *)

(** Both commander fields are null or both are set. *)
Definition paired (inc : Incident.t) : Prop :=
  (Incident.commanderUid inc = None ∧ Incident.commanderSessionId inc = None)
  ∨ (is_Some (Incident.commanderUid inc)
     ∧ is_Some (Incident.commanderSessionId inc)).

(** The recorded commanding session exists and belongs to the recorded
    commander. *)
Definition liveCommand (st : State) (inc : Incident.t) : Prop :=
  ∀ u s,
    Incident.commanderUid inc = Some u →
    Incident.commanderSessionId inc = Some s →
    ∃ sess, sessions st !! s = Some sess ∧ Session.uid sess = u.

Definition allPaired (st : State) : Prop :=
  ∀ iid inc, incidents st !! iid = Some inc → paired inc.

Definition consistent (st : State) : Prop :=
  ∀ iid inc, incidents st !! iid = Some inc → paired inc ∧ liveCommand st inc.

(** The operations that write sessions or commander fields. *)
Inductive Operation :=
  | CreateSession (newId : string) (now : Z) (auth : AuthContext.t)
  | TakeIncidentCommand (params : Params.t) (auth : AuthContext.t)
  | StartNewIncident (newId defaultNumber : string) (now : Z)
      (params : Params.t) (auth : AuthContext.t)
  | CloseIncident (now : Z) (params : Params.t) (auth : AuthContext.t)
  | ReestablishCommand (now : Z) (params : Params.t) (auth : AuthContext.t)
  | ApproveRequest (now : Z) (params : Params.t) (auth : AuthContext.t)
  | HourlySweep (now : Z)
  | DailySweep (now : Z).

Definition perform (op : Operation) (st : State) : State :=
  match op with
  | CreateSession newId now auth => exec (createSession newId now auth) st
  | TakeIncidentCommand params auth =>
      exec (takeIncidentCommand params auth) st
  | StartNewIncident newId defaultNumber now params auth =>
      exec (startNewIncident newId defaultNumber now params auth) st
  | CloseIncident now params auth => exec (closeIncident now params auth) st
  | ReestablishCommand now params auth =>
      exec (reestablishCommand now params auth) st
  | ApproveRequest now params auth =>
      exec (approveCommandRequest now params auth) st
  | HourlySweep now => exec (cleanupstalecommandsessions now) st
  | DailySweep now => exec (cleanupoldsessions now) st
  end.

(** The writes of a batch that touch neither incidents nor sessions. *)
Definition unitWrite (w : WriteOp) : Prop :=
  match w with
  | UpdateAssignment _ _ | UpdateUnit _ _ | DeleteUnit _ => True
  | _ => False
  end.

(** The reading under which every operation keeps the recorded
    commanding session live. *)
Definition operationsKeepConsistency : Prop :=
  ∀ op st, consistent st → consistent (perform op st).

(** A tenant with four slots and three licenses.  user1 logs in once
    (A), user2 twice (B, B2), user3 once (C).  user1 starts I1 and user2
    starts I2; user2 asks for I1 from B2 and user1 approves; user3 starts
    I3. *)
Module Crowd.
Definition tenant : Customer.t := Customer.mk (Some 4) (Some 3).
Definition user3 : AuthContext.t :=
  AuthContext.mk "user3" "T" "Pro" "User Three".
Definition st0 : State := mkState {["T" := tenant]} ∅ ∅ ∅ [] ∅ ∅.
Definition st1 : State :=
  exec (createSession "C" 4 user3)
    (exec (createSession "B2" 3 Scenario.user2)
       (exec (createSession "B" 2 Scenario.user2)
          (exec (createSession "A" 1 Scenario.user1) st0))).
Definition st2 : State :=
  exec (startNewIncident "I2" "20260101-0011" 11 (Scenario.withSession "B")
          Scenario.user2)
    (exec (startNewIncident "I1" "20260101-0010" 10
             (Scenario.withSession "A") Scenario.user1) st1).
Definition st3 : State :=
  exec (approveCommandRequest 21 (Scenario.onRequest "R1") Scenario.user1)
    (exec (requestIncidentCommand "R1" 20 (Scenario.onIncident "I1" "B2")
             Scenario.user2) st2).
Definition st4 : State :=
  exec (startNewIncident "I3" "20260101-0030" 30 (Scenario.withSession "C")
          user3) st3.
End Crowd.


(** The two halves of [consistent] as tests. *)
Definition pairedb (inc : Incident.t) : bool :=
  match Incident.commanderUid inc, Incident.commanderSessionId inc with
  | None, None | Some _, Some _ => true
  | _, _ => false
  end.

Definition liveCommandb (st : State) (inc : Incident.t) : bool :=
  match Incident.commanderUid inc, Incident.commanderSessionId inc with
  | Some u, Some s =>
      match sessions st !! s with
      | Some sess => bool_decide (Session.uid sess = u)
      | None => false
      end
  | _, _ => true
  end.

Definition consistentb (st : State) : bool :=
  forallb (λ d, pairedb d.2 && liveCommandb st d.2)
    (map_to_list (incidents st)).

(** Stores on which the operations other than [takeIncidentCommand] and
    [closeIncident] are tried: a request that records a session id naming
    no session, and a closed incident that still records the stale
    session of an Active one. *)
Module Dangling.
Definition requestedFromNowhere : State :=
  exec (requestIncidentCommand "R1" 100 (Scenario.onIncident "I1" "ZZ")
          Scenario.user2) Board.st.
Definition closedStillCommanded : State :=
  mkState {["T" := Crowd.tenant]}
    {["A" := Session.mk "user1" "T" 0 0]}
    (<["I0" := Incident.mk "2025-000" None 1 "Closed" (Some 2) "T"
                 (Some "user1") (Some "A")]>
       {["I1" := Incident.mk "2025-001" None 3 "Active" None "T"
                   (Some "user1") (Some "A")]})
    ∅ [] ∅ ∅.
End Dangling.

(** * The rest of the session and command code

    The handlers of [functions/index.js] that the properties above did
    not need, and the client code that calls them. *)

(** ** Heartbeat and session status *)

Definition heartbeat (now : Z) (s : Session.t) : Session.t :=
  Session.mk (Session.uid s) (Session.customerId s) (Session.loginTime s) now.

Definition noSessionMsg : string := "Session not found or access denied.".

Definition sessionHeartbeat (now : Z) (params : Params.t)
    (auth : AuthContext.t) : M string :=
  let* sessionId :=
    orThrow (truthy (Params.sessionId params))
      (HttpsError invalid_argument "A sessionId is required.") in
  let* sessionDoc := gets (λ st, sessions st !! sessionId) in
  match sessionDoc with
  | Some s =>
      throwIf (negb (bool_decide (Session.uid s = AuthContext.uid auth)))
        (HttpsError not_found noSessionMsg);;
      modify (setSessions (insert sessionId (heartbeat now s)));;
      ret "Heartbeat received."
  | None => throw (HttpsError not_found noSessionMsg)
  end.

(** The answer of [checkSessionStatus]: a status and, with it, a
    message. *)
Inductive SessionStatus :=
  | StatusOk
  | LockedOut (message : string)
  | ViewOnlyRecommended (message : string).

Definition lockedOutMsg : string :=
  "This account is already commanding an incident on another device. Basic plan users are limited to one command session at a time.".
Definition viewOnlyMsg : string :=
  "This account is commanding an incident on another device. You can observe in View-Only mode.".

(** The first incident of the tenant that records [uid] as commander;
    the query has no status filter. *)
Definition commandingQuery (customerId uid : string) (st : State)
    : list (string * Incident.t) :=
  take 1 (whereDocs (λ d,
    bool_decide (Incident.customerId d.2 = customerId)
    && bool_decide (Incident.commanderUid d.2 = Some uid)) (incidents st)).

(** [params.sessionId !== commandedSessionId] compares two fields that
    may each be missing; a missing field on both sides is read as
    equal. *)
Definition checkSessionStatus (params : Params.t) (auth : AuthContext.t)
    : M SessionStatus :=
  let planLevel := AuthContext.planLevel auth in
  let* snapshot :=
    gets (commandingQuery (AuthContext.customerId auth)
            (AuthContext.uid auth)) in
  match head snapshot with
  | None => ret StatusOk
  | Some d =>
      let commandedSessionId := Incident.commanderSessionId d.2 in
      let differs :=
        negb (bool_decide (Params.sessionId params = commandedSessionId)) in
      if bool_decide (planLevel = "Basic") && differs then
        ret (LockedOut lockedOutMsg)
      else if bool_decide (planLevel = "Pro") && differs then
        ret (ViewOnlyRecommended viewOnlyMsg)
      else ret StatusOk
  end.

(** ** Authorization of a request *)

(** [users/{uid}]. *)
Module User.
Record t := mk {
  status : option string;
  customerId : option string;
  planLevel : option string;
  name : option string }.
End User.

(** [x || d] on a string. *)
Definition orString (x : option string) (d : string) : string :=
  match truthy x with
  | Some s => s
  | None => d
  end.

Fixpoint dropString (n : nat) (s : string) : string :=
  match n, s with
  | O, _ => s
  | S n', String _ s' => dropString n' s'
  | S _, EmptyString => EmptyString
  end.

(** The text of [s] before the first occurrence of [sep], and after
    it. *)
Fixpoint untilSep (sep s : string) : string :=
  match s with
  | EmptyString => EmptyString
  | String c s' =>
      if String.prefix sep s then EmptyString else String c (untilSep sep s')
  end.

Fixpoint afterSep (sep s : string) : option string :=
  if String.prefix sep s then Some (dropString (String.length sep) s)
  else
    match s with
    | EmptyString => None
    | String _ s' => afterSep sep s'
    end.

(** [s.split(sep)[1]] for a non-empty [sep]; [None] is [undefined]. *)
Definition secondPiece (sep s : string) : option string :=
  untilSep sep <$> afterSep sep s.

Definition noTokenError : ApiError :=
  HttpsError unauthenticated "No authentication token was provided.".
Definition badTokenError : ApiError :=
  HttpsError unauthenticated "The provided auth token is invalid or expired.".

(** [verifyIdToken] is [admin.auth().verifyIdToken]: the uid of the
    decoded token, or the error it throws; [users] is the users
    collection and [authorization] the header of the request. *)
Definition getAuthContextFromIdToken
    (verifyIdToken : option string → Result string)
    (users : gmap string User.t) (authorization : option string)
    : Result AuthContext.t :=
  match truthy authorization with
  | Some authHeader =>
      if String.prefix "Bearer " authHeader then
        let idToken := secondPiece "Bearer " authHeader in
        let attempt : Result AuthContext.t :=
          (* try *)
          match verifyIdToken idToken with
          | Ok uid =>
              match users !! uid with
              | Some userData =>
                  if negb (bool_decide (User.status userData = Some "Active"))
                  then
                    Err (HttpsError permission_denied
                           "This user account is not active.")
                  else
                    match truthy (User.customerId userData) with
                    | Some customerId =>
                        Ok (AuthContext.mk uid customerId
                              (orString (User.planLevel userData) "Basic")
                              (orString (User.name userData) "Unknown User"))
                    | None =>
                        Err (HttpsError internal
                               "Config error: Customer ID missing for this user.")
                    end
              | None =>
                  Err (HttpsError not_found
                         "Authenticated user not found in the database.")
              end
          | Err e => Err e
          end in
        (* catch *)
        match attempt with
        | Ok authContext => Ok authContext
        | Err _ => Err badTokenError
        end
      else Err noTokenError
  | None => Err noTokenError
  end.

(** ** The command board

    [getIncidentDetails] and the two handlers of
    [public/apps/command-board/command-board.js] that decide which
    command action a device offers and which call it makes. *)

(** [getIncidentDetails]: the incident with its id, and
    [commanderSessionId || null]. *)
Definition getIncidentDetails (params : Params.t) (customerId : string)
    : M (string * Incident.t) :=
  let* incidentId :=
    orThrow (truthy (Params.incidentId params))
      (PlainError "Incident ID is required.") in
  let* data :=
    getAndVerifyDoc "incidents" incidents Incident.customerId incidentId
      customerId in
  ret (incidentId,
       Incident.setCommanderSessionId
         (truthy (Incident.commanderSessionId data)) data).

(** The part of [appState] the handlers read. *)
Module App.
Record t := mk {
  uid : string;
  sessionId : option string;
  planLevel : string }.
End App.

(** The action button and the view-only button. *)
Record ActionButtons := mkButtons {
  text : string;
  disabled : bool;
  viewOnly : bool }.

(** The decision of [handleActiveIncidentSelect] once the details have
    arrived. *)
Definition incidentButtons (app : App.t) (incident : Incident.t)
    : ActionButtons :=
  let isCommanded :=
    bool_decide (is_Some (truthy (Incident.commanderUid incident))) in
  let isCommandedByMyUser :=
    isCommanded
    && bool_decide (Incident.commanderUid incident = Some (App.uid app)) in
  let isCommandedByThisSession :=
    isCommandedByMyUser
    && bool_decide (Incident.commanderSessionId incident
                    = App.sessionId app) in
  let canRequestOrView := negb (bool_decide (App.planLevel app = "Basic")) in
  if negb isCommanded then mkButtons "Take Command" false false
  else if isCommandedByThisSession then
    mkButtons "Re-establish Command" false false
  else if isCommandedByMyUser then
    mkButtons "Commanded on another device" true canRequestOrView
  else if canRequestOrView then mkButtons "Request Command" false true
  else mkButtons "Commanded by another user" true false.

(** The calls of [handleTakeCommandClick]. *)
Inductive ApiCall :=
  | CallReestablishCommand (incidentId sessionId : string)
  | CallTakeIncidentCommand (incidentId sessionId : string)
  | CallRequestIncidentCommand (incidentId sessionId : string).

(** [handleTakeCommandClick]: the call a click makes, if any;
    [confirmed] is the answer to the confirmation dialog. *)
Definition handleTakeCommandClick (app : App.t)
    (currentIncident : option (string * Incident.t)) (buttonText : string)
    (confirmed : bool) : option ApiCall :=
  match currentIncident, truthy (App.sessionId app) with
  | Some (incidentId, incident), Some sessionId =>
      if bool_decide (buttonText = "Re-establish Command") then
        Some (CallReestablishCommand incidentId sessionId)
      else if bool_decide
                (buttonText ∈ ["Take Command"; "Take Over Command"]) then
        if bool_decide (is_Some (truthy (Incident.commanderUid incident)))
           && negb (bool_decide (Incident.commanderUid incident
                                 = Some (App.uid app)))
           && negb confirmed
        then None
        else Some (CallTakeIncidentCommand incidentId sessionId)
      else if bool_decide (buttonText = "Request Command") then
        Some (CallRequestIncidentCommand incidentId sessionId)
      else None
  | _, _ => None
  end.

(** The parameters a call carries, and the handler that serves it. *)
Definition callParams (incidentId sessionId : string) : Params.t :=
  Params.mk (Some incidentId) (Some sessionId) None None None.

(** Selecting an incident and clicking the action button: the button
    stays on its placeholder text when the details cannot be fetched. *)
Definition selectAndClick (app : App.t) (auth : AuthContext.t)
    (selected : string) (confirmed : bool) (st : State) : option ApiCall :=
  match getIncidentDetails (Params.mk (Some selected) None None None None)
          (AuthContext.customerId auth) st with
  | (Ok current, _) =>
      handleTakeCommandClick app (Some current)
        (text (incidentButtons app current.2)) confirmed
  | (Err _, _) => None
  end.

(** ** The incident lists *)

(** [getActiveIncidents]: the tenant's Active incidents, with
    [commanderUid || null]. *)
Definition getActiveIncidents (customerId : string)
    : M (list (string * Incident.t)) :=
  gets (λ st,
    map (λ d,
      (d.1,
       Incident.setCommand (truthy (Incident.commanderUid d.2))
         (Incident.commanderSessionId d.2) d.2))
      (whereDocs (λ d,
         bool_decide (Incident.customerId d.2 = customerId)
         && bool_decide (Incident.status d.2 = "Active")) (incidents st))).

(** [orderBy("endTime", "desc")]: later end times first, a null end time
    last, and descending ids among equal end times. *)
Definition byEndTimeDesc (a b : string * Incident.t) : bool :=
  match Incident.endTime a.2, Incident.endTime b.2 with
  | Some x, Some y => (y <? x) || ((x =? y) && String.leb b.1 a.1)
  | Some _, None => true
  | None, Some _ => false
  | None, None => String.leb b.1 a.1
  end.

(** [getClosedIncidents]: the tenant's Closed incidents, the most
    recently closed first. *)
Definition getClosedIncidents (customerId : string)
    : M (list (string * Incident.t)) :=
  gets (λ st,
    sortBy byEndTimeDesc
      (whereDocs (λ d,
         bool_decide (Incident.customerId d.2 = customerId)
         && bool_decide (Incident.status d.2 = "Closed")) (incidents st))).

(** ** Vocabulary of the further properties *)

(** The sessions one run of the daily sweep deletes. *)
Definition oldNow (now : Z) (st : State) : list (string * Session.t) :=
  take 400 (olderThan (now - sixtyDaysInMs) st).

(** ** Admission of a login *)

(** The session privileged re-entry bumps: the one recorded on the first
    Active incident of the tenant that the caller commands. *)
Definition reentryTarget (customerId uid : string) (st : State)
    : option string :=
  head (commanderQuery customerId uid st)
    ≫= (λ d, truthy (Incident.commanderSessionId d.2)).

(** The session is recorded as commanding an Active incident of the
    tenant. *)
Definition recordedOnActive (customerId : string) (st : State)
    (sessionId : string) : Prop :=
  ∃ iid inc, incidents st !! iid = Some inc
             ∧ Incident.customerId inc = customerId
             ∧ Incident.status inc = "Active"
             ∧ Incident.commanderSessionId inc = Some sessionId.

(** A session of the tenant that general bumping may evict: silent for
    more than fifteen minutes and not recorded on an Active incident. *)
Definition idle (customerId : string) (now : Z) (st : State)
    (sessionId : string) (s : Session.t) : Prop :=
  sessions st !! sessionId = Some s
  ∧ Session.customerId s = customerId
  ∧ Session.lastActive s < now - fifteenMinutesInMs
  ∧ ¬ recordedOnActive customerId st sessionId.

(** The session a login at [now] creates. *)
Definition newSession (now : Z) (auth : AuthContext.t) : Session.t :=
  Session.mk (AuthContext.uid auth) (AuthContext.customerId auth) now now.

(** ** Status of a device *)

(** What [checkSessionStatus] tells a device when the caller's command
    is recorded on another session. *)
Definition elsewhere (planLevel : string) : SessionStatus :=
  if bool_decide (planLevel = "Basic") then LockedOut lockedOutMsg
  else if bool_decide (planLevel = "Pro") then
    ViewOnlyRecommended viewOnlyMsg
  else StatusOk.

(** [inc] is an incident of the tenant that records [uid] as commander,
    Active or not. *)
Definition commandedBy (customerId uid : string) (inc : Incident.t) : Prop :=
  Incident.customerId inc = customerId
  ∧ Incident.commanderUid inc = Some uid.

(** ** Command licenses *)

(** The tenant has no more commanded Active incidents than command
    licenses. *)
Definition withinLicenses (customerId : string) (st : State) : Prop :=
  ∀ c, customers st !! customerId = Some c →
       commandingCount customerId st <= maxCommandLicenses c.

(** The incident uses one of the tenant's licenses. *)
Definition holdsLicense (customerId : string) (inc : Incident.t) : bool :=
  bool_decide (Incident.customerId inc = customerId)
  && bool_decide (Incident.status inc = "Active")
  && bool_decide (is_Some (Incident.commanderUid inc)).

(** What the license count needs of an operation: a new incident gets a
    fresh id, and an approval hands over an incident that still has a
    commander. *)
Definition keepsLicenses (op : Operation) (st : State) : Prop :=
  match op with
  | StartNewIncident newId _ _ _ _ => incidents st !! newId = None
  | ApproveRequest _ params _ =>
      ∀ requestId req inc,
        truthy (Params.requestId params) = Some requestId →
        commandRequests st !! requestId = Some req →
        incidents st !! CommandRequest.incidentId req = Some inc →
        is_Some (Incident.commanderUid inc)
  | _ => True
  end.

(** ** One Active incident per commander, across the operations *)

(** What the at-most-one property needs of an operation: a new incident
    gets a fresh id, and an approval hands the incident to a requester
    who commands no other Active incident of its tenant. *)
Definition keepsSingleCommand (op : Operation) (st : State) : Prop :=
  match op with
  | StartNewIncident newId _ _ _ _ => incidents st !! newId = None
  | ApproveRequest _ params _ =>
      ∀ requestId req inc j,
        truthy (Params.requestId params) = Some requestId →
        commandRequests st !! requestId = Some req →
        incidents st !! CommandRequest.incidentId req = Some inc →
        j ≠ CommandRequest.incidentId req →
        ¬ commandsActive (CommandRequest.requesterUid req)
            (Incident.customerId inc) st j
  | _ => True
  end.

(** ** Closing an incident *)

(** An open assignment of the tenant on the incident. *)
Definition openOn (customerId incidentId : string) (a : Assignment.t)
    : bool :=
  bool_decide (Assignment.customerId a = customerId)
  && bool_decide (Assignment.incidentId a = incidentId)
  && bool_decide (Assignment.releaseTime a = None).

(** The unit has an open assignment on the incident. *)
Definition assignedTo (customerId incidentId : string) (st : State)
    (unitId : string) : Prop :=
  ∃ aid a, assignments st !! aid = Some a
           ∧ openOn customerId incidentId a = true
           ∧ Assignment.unitId a = unitId.

(** The unit is named as parent by a unit assigned to the incident. *)
Definition parentAt (customerId incidentId : string) (st : State)
    (unitId : string) : Prop :=
  ∃ sub su, assignedTo customerId incidentId st sub
            ∧ units st !! sub = Some su
            ∧ truthy (Unit.parentUnitId su) = Some unitId.

(** An update of a document that exists. *)
Definition updatesExisting (st : State) (w : WriteOp) : Prop :=
  match w with
  | UpdateIncident id _ => is_Some (incidents st !! id)
  | UpdateRequest id _ => is_Some (commandRequests st !! id)
  | UpdateAssignment id _ => is_Some (assignments st !! id)
  | UpdateUnit id _ => is_Some (units st !! id)
  | DeleteUnit _ | DeleteSession _ => False
  end.

(** What one write makes of the assignment [aid] and of the unit
    [unitId]. *)
Definition assignmentAfter (aid : string) (o : option Assignment.t)
    (w : WriteOp) : option Assignment.t :=
  match w with
  | UpdateAssignment id f => if decide (id = aid) then f <$> o else o
  | _ => o
  end.

Definition unitAfter (unitId : string) (o : option Unit.t) (w : WriteOp)
    : option Unit.t :=
  match w with
  | UpdateUnit id f => if decide (id = unitId) then f <$> o else o
  | DeleteUnit id => if decide (id = unitId) then None else o
  | _ => o
  end.

(** The unit that the release of one assignment makes available, as the
    last loop of [closeIncident] decides it. *)
Definition madeAvailable (parentIds subunitIds : list string)
    (assignedUnitsSnapshot : list (string * Unit.t))
    (d : string * Assignment.t) : option string :=
  let unitId := Assignment.unitId d.2 in
  if bool_decide (unitId ∈ parentIds) || bool_decide (unitId ∈ subunitIds)
  then None
  else
    match List.find (λ u, bool_decide (u.1 = unitId))
            assignedUnitsSnapshot with
    | Some u =>
        if bool_decide (Unit.status u.2 = "Out of Service") then None
        else Some unitId
    | None => None
    end.

(** The snapshots and the two sets of [closeIncident]. *)
Definition assignedUnitsOf (assignSnapshot : list (string * Assignment.t))
    (st : State) : list (string * Unit.t) :=
  unitsIn (map (λ d, Assignment.unitId d.2) assignSnapshot) st.

Definition splitUnitsOf (assignSnapshot : list (string * Assignment.t))
    (st : State) : list (string * Unit.t) :=
  List.filter (λ d, bool_decide (is_Some (truthy (Unit.parentUnitId d.2))))
    (assignedUnitsOf assignSnapshot st).

Definition parentIdsOf (assignSnapshot : list (string * Assignment.t))
    (st : State) : list string :=
  fold_left (λ acc d,
    match truthy (Unit.parentUnitId d.2) with
    | Some p => setAdd p acc
    | None => acc
    end) (splitUnitsOf assignSnapshot st) [].

Definition subunitIdsOf (assignSnapshot : list (string * Assignment.t))
    (st : State) : list string :=
  fold_left (λ acc d, setAdd d.1 acc) (splitUnitsOf assignSnapshot st) [].

(** The release of one assignment, as the batch has it. *)
Definition releaseWrites (now : Z)
    (assignSnapshot : list (string * Assignment.t)) (st : State)
    (d : string * Assignment.t) : list WriteOp :=
  UpdateAssignment d.1 (Assignment.release now)
  :: match madeAvailable (parentIdsOf assignSnapshot st)
             (subunitIdsOf assignSnapshot st)
             (assignedUnitsOf assignSnapshot st) d with
     | Some u => [UpdateUnit u Unit.makeAvailable]
     | None => []
     end.

(** What closing the incident makes of an assignment. *)
Definition releaseOpen (now : Z) (customerId incidentId : string)
    (a : Assignment.t) : Assignment.t :=
  if openOn customerId incidentId a then Assignment.release now a else a.

(** The board with units on incident I1: engine E1 is split into E1A,
    which is assigned, and E1B; truck T1 and medic M1 are assigned, the
    medic being out of service; engine E9 works another incident. *)
Module Fireground.
Definition onI1 (unitId : string) : Assignment.t :=
  Assignment.mk "T" "I1" unitId None None.
Definition st : State :=
  mkState {["T" := Board.tenant]}
    (<["A" := Board.sessionA]> {["B" := Board.sessionB]})
    (<["I1" := Board.incident1]> {["I2" := Board.incident2]})
    ∅ []
    (<["a1" := onI1 "E1A"]>
       (<["a2" := onI1 "T1"]>
          (<["a3" := onI1 "M1"]>
             {["a9" := Assignment.mk "T" "I2" "E9" None None]})))
    (<["E1" := Unit.mk None true "Split"]>
       (<["E1A" := Unit.mk (Some "E1") false "On Scene"]>
          (<["E1B" := Unit.mk (Some "E1") false "Staged"]>
             (<["T1" := Unit.mk None false "On Scene"]>
                (<["M1" := Unit.mk None false "Out of Service"]>
                   {["E9" := Unit.mk None false "On Scene"]}))))).
End Fireground.

(** ** A handoff from request to answer *)

(** The request a successful [requestIncidentCommand] records. *)
Definition newRequest (now : Z) (auth : AuthContext.t)
    (incidentId sessionId commanderUid : string) : CommandRequest.t :=
  CommandRequest.mk incidentId (AuthContext.uid auth) (AuthContext.name auth)
    (Some sessionId) commanderUid "pending" now (AuthContext.customerId auth).

(** A request the handler accepts: both arguments given, an incident of
    the caller's tenant commanded by somebody else, and nothing pending
    for it. *)
Definition requestable (params : Params.t) (auth : AuthContext.t)
    (st : State) (incidentId sessionId : string) (inc : Incident.t)
    (commanderUid : string) : Prop :=
  truthy (Params.incidentId params) = Some incidentId
  ∧ truthy (Params.sessionId params) = Some sessionId
  ∧ incidents st !! incidentId = Some inc
  ∧ Incident.customerId inc = AuthContext.customerId auth
  ∧ truthy (Incident.commanderUid inc) = Some commanderUid
  ∧ commanderUid ≠ AuthContext.uid auth
  ∧ ∀ requestId, ¬ pendingFor st incidentId requestId.

(** ** Starting an incident *)

(** The incident [startNewIncident] creates. *)
Definition startedIncident (defaultNumber : string) (now : Z)
    (query : Params.t) (auth : AuthContext.t) (sessionId : string)
    : Incident.t :=
  Incident.mk
    match Params.incidentNumber query with
    | Some n => if bool_decide (trim n = "") then defaultNumber else trim n
    | None => defaultNumber
    end
    (trim <$> truthy (Params.incidentName query))
    now "Active" None (AuthContext.customerId auth)
    (Some (AuthContext.uid auth)) (Some sessionId).

(** ** Authorization of a request *)

Fixpoint hasSpace (s : string) : bool :=
  match s with
  | EmptyString => false
  | String c s' => Ascii.eqb c Ascii.Space || hasSpace s'
  end.

(** ** The incident lists *)

(** The incident is on the tenant's list of Active incidents, on its
    list of Closed incidents, and at the top of the latter. *)
Definition onActiveList (customerId : string) (st : State) (id : string)
    : Prop :=
  ∃ l, getActiveIncidents customerId st = (Ok l, st) ∧ id ∈ map fst l.

Definition onClosedList (customerId : string) (st : State) (id : string)
    : Prop :=
  ∃ l, getClosedIncidents customerId st = (Ok l, st) ∧ id ∈ map fst l.

Definition firstClosed (customerId : string) (st : State) (id : string)
    : Prop :=
  ∃ l, getClosedIncidents customerId st = (Ok l, st)
       ∧ fst <$> head l = Some id.

(** ** Sweeps over a store *)

Definition isSweep (op : Operation) : Prop :=
  match op with
  | HourlySweep _ | DailySweep _ => True
  | _ => False
  end.

(** A run of operations, one after the other. *)
Definition performAll (ops : list Operation) (st : State) : State :=
  fold_left (λ st op, perform op st) ops st.

(** * Properties *)

(** ** The store primitives *)

Section Store.
Context {A : Type}.
Implicit Types (m : gmap string A) (p : string * A → bool).

Lemma insertBy_perm {B} (leb : B → B → bool) x l :
  insertBy leb x l ≡ₚ x :: l.
Proof.
  induction l as [|y l IH]; simpl; [done|].
  destruct (leb x y); [done|]. rewrite IH. apply Permutation_swap.
Qed.

Lemma sortBy_perm {B} (leb : B → B → bool) l : sortBy leb l ≡ₚ l.
Proof.
  induction l as [|y l IH]; simpl; [done|].
  by rewrite insertBy_perm, IH.
Qed.

Lemma docs_perm m : docs m ≡ₚ map_to_list m.
Proof. apply sortBy_perm. Qed.

Lemma elem_of_docs m k v : (k, v) ∈ docs m ↔ m !! k = Some v.
Proof. rewrite docs_perm. apply elem_of_map_to_list. Qed.

Lemma elem_of_List_filter {B} (f : B → bool) l x :
  x ∈ List.filter f l ↔ x ∈ l ∧ f x = true.
Proof. rewrite !list_elem_of_In. apply filter_In. Qed.

Lemma elem_of_whereDocs p m k v :
  (k, v) ∈ whereDocs p m ↔ m !! k = Some v ∧ p (k, v) = true.
Proof.
  unfold whereDocs. by rewrite elem_of_List_filter, elem_of_docs.
Qed.

Lemma whereDocs_nil p m :
  whereDocs p m = [] ↔ ∀ k v, m !! k = Some v → p (k, v) = false.
Proof.
  split.
  - intros Hnil k v Hkv. destruct (p (k, v)) eqn:Hp; [|done].
    assert ((k, v) ∈ whereDocs p m) as Hin
      by (by apply elem_of_whereDocs).
    rewrite Hnil in Hin. by apply elem_of_nil in Hin.
  - intros Hall. destruct (whereDocs p m) as [|[k v] l] eqn:Hq; [done|].
    assert ((k, v) ∈ whereDocs p m) as Hin by (rewrite Hq; left).
    apply elem_of_whereDocs in Hin as [Hkv Hp].
    by rewrite (Hall _ _ Hkv) in Hp.
Qed.

Lemma filter_perm {B} (f : B → bool) l l' :
  l ≡ₚ l' → List.filter f l ≡ₚ List.filter f l'.
Proof.
  induction 1 as [|x l l' _ IH|x y l|l l' l'' _ IH1 _ IH2]; simpl.
  - done.
  - destruct (f x); by rewrite IH.
  - destruct (f x), (f y); try done. apply Permutation_swap.
  - by rewrite IH1.
Qed.

Lemma length_whereDocs_insert p m k v :
  m !! k = None →
  length (whereDocs p (<[k:=v]> m))
  = ((if p (k, v) then 1 else 0) + length (whereDocs p m))%nat.
Proof.
  intros Hk. unfold whereDocs.
  rewrite (filter_perm p (docs (<[k:=v]> m)) ((k, v) :: docs m)).
  - simpl. by destruct (p (k, v)).
  - by rewrite !docs_perm, map_to_list_insert.
Qed.

Lemma length_whereDocs_delete p m k v :
  m !! k = Some v →
  length (whereDocs p m)
  = ((if p (k, v) then 1 else 0) + length (whereDocs p (delete k m)))%nat.
Proof.
  intros Hk. rewrite <- (length_whereDocs_insert p (delete k m) k v).
  - by rewrite insert_delete_eq, insert_id.
  - apply lookup_delete_eq.
Qed.

Lemma length_whereDocs_delete_le p m k :
  (length (whereDocs p (delete k m)) ≤ length (whereDocs p m))%nat.
Proof.
  destruct (m !! k) as [v|] eqn:Hk.
  - rewrite (length_whereDocs_delete p m k v Hk). lia.
  - by rewrite delete_id.
Qed.
End Store.

(** ** Quota of sessions *)

Lemma sessionCount_insert customerId st k d :
  sessions st !! k = None →
  sessionCount customerId (setSessions (insert k d) st)
  = (if bool_decide (Session.customerId d = customerId) then 1 else 0)
    + sessionCount customerId st.
Proof.
  intros Hk. unfold sessionCount, sessionsOf; simpl.
  rewrite length_whereDocs_insert by done; simpl.
  case_bool_decide; lia.
Qed.

Lemma sessionCount_insert_le customerId st k d :
  sessionCount customerId (setSessions (insert k d) st)
  <= (if bool_decide (Session.customerId d = customerId) then 1 else 0)
     + sessionCount customerId st.
Proof.
  destruct (sessions st !! k) as [d'|] eqn:Hk.
  - unfold sessionCount, sessionsOf; simpl.
    rewrite <- (insert_delete_eq (sessions st)).
    rewrite length_whereDocs_insert by apply lookup_delete_eq.
    rewrite (length_whereDocs_delete _ (sessions st) k d' Hk); simpl.
    repeat case_bool_decide; lia.
  - rewrite sessionCount_insert by done. lia.
Qed.

Lemma sessionCount_delete customerId st k d :
  sessions st !! k = Some d →
  sessionCount customerId st
  = (if bool_decide (Session.customerId d = customerId) then 1 else 0)
    + sessionCount customerId (setSessions (delete k) st).
Proof.
  intros Hk. unfold sessionCount, sessionsOf; simpl.
  rewrite (length_whereDocs_delete _ (sessions st) k d Hk); simpl.
  case_bool_decide; lia.
Qed.

Lemma sessionCount_delete_le customerId st k :
  sessionCount customerId (setSessions (delete k) st)
  <= sessionCount customerId st.
Proof.
  unfold sessionCount, sessionsOf; simpl.
  pose proof (length_whereDocs_delete_le
    (λ d : string * Session.t,
       bool_decide (Session.customerId d.2 = customerId)) (sessions st) k).
  lia.
Qed.

(** [endSession] never adds a session: every tenant stays within quota. *)
Lemma endSession_withinQuota customerId params auth st :
  withinQuota customerId st →
  withinQuota customerId (exec (endSession params auth) st).
Proof.
  intros Hq. unfold endSession. unfoldM.
  destruct (truthy (Params.sessionId params)) as [sid|]; simpl; [|done].
  destruct (sessions st !! sid) as [s|]; simpl; [|done].
  case_bool_decide; simpl; [|done].
  intros c Hc. specialize (Hq c Hc).
  pose proof (sessionCount_delete_le customerId st sid). lia.
Qed.

Lemma elem_of_sessionsOf customerId st k d :
  (k, d) ∈ sessionsOf customerId st
  ↔ sessions st !! k = Some d ∧ Session.customerId d = customerId.
Proof.
  unfold sessionsOf. rewrite elem_of_whereDocs; simpl.
  by rewrite bool_decide_eq_true.
Qed.

(** The session the general bumping picks is one of the snapshot. *)
Lemma oldestStale_elem_of commanding threshold l acc o :
  fold_left (oldestStaleStep commanding threshold) l acc = Some o →
  acc = Some o ∨ ∃ d, d ∈ l ∧ d.1 = o.1.
Proof.
  revert acc. induction l as [|d l IH]; intros acc Hf; simpl in Hf.
  - by left.
  - apply IH in Hf as [Hacc|(d' & Hin & Hd')].
    + unfold oldestStaleStep in Hacc.
      destruct (negb _ && _); [|by left].
      destruct (match acc with None => true | Some _ => _ end);
        [|by left].
      right. exists d. split; [left|]. by inversion Hacc.
    + right. exists d'. split; [by right|done].
Qed.

(** The admission paths of [createSession] keep every tenant within quota
    as long as the commanding session that privileged re-entry bumps is
    still one of the tenant's sessions. *)
Lemma createSession_withinQuota customerId newId now auth st :
  (∀ d sid,
     head (commanderQuery (AuthContext.customerId auth)
             (AuthContext.uid auth) st) = Some d →
     truthy (Incident.commanderSessionId d.2) = Some sid →
     ∃ s, sessions st !! sid = Some s
          ∧ Session.customerId s = AuthContext.customerId auth) →
  withinQuota customerId st →
  withinQuota customerId (exec (createSession newId now auth) st).
Proof.
  intros Hlive Hq. unfold createSession. unfoldM.
  destruct (customers st !! AuthContext.customerId auth) as [c|] eqn:Hc;
    simpl; [|done].
  set (sd := Session.mk _ _ _ _).
  assert (Hbump : ∀ k s,
    sessions st !! k = Some s →
    Session.customerId s = AuthContext.customerId auth →
    withinQuota customerId
      (setSessions (insert newId sd) (setSessions (delete k) st))).
  { intros k s Hk Hs c' Hc'. specialize (Hq c' Hc').
    pose proof (sessionCount_insert_le customerId
      (setSessions (delete k) st) newId sd) as Hins.
    pose proof (sessionCount_delete customerId st k s Hk) as Hdel.
    rewrite Hs in Hdel. subst sd; simpl in *. lia. }
  destruct (Z.ltb_spec
    (Z.of_nat (length (sessionsOf (AuthContext.customerId auth) st)))
    (maxTotalSessions c)) as [Hlt|Hge]; simpl.
  - intros c' Hc'. specialize (Hq c' Hc').
    pose proof (sessionCount_insert_le customerId st newId sd) as Hins.
    subst sd; simpl in *. case_bool_decide as Heq; [|lia].
    subst customerId. simpl in Hc'. rewrite Hc in Hc'. inversion Hc'; subst c'.
    unfold sessionCount in *. lia.
  - destruct (head _ ≫= _) as [old|] eqn:Hold; simpl.
    + destruct (head (commanderQuery _ _ st)) as [d|] eqn:Hd;
        simpl in Hold; [|done].
      destruct (Hlive d old eq_refl Hold) as (s & Hs & Hcs).
      by apply (Hbump old s).
    + destruct (fold_left _ _ None) as [o|] eqn:Ho; simpl; [|done].
      apply oldestStale_elem_of in Ho as [?|([k s] & Hin & Hk)]; [done|].
      simpl in Hk; subst k.
      apply elem_of_sessionsOf in Hin as [Hs Hcs].
      by apply (Hbump o.1 s).
Qed.

(** C1 (defect witness): in the one-slot tenant, once privileged re-entry
    has bumped session A the incident still records A; when the same
    commander logs in again, [createSession] deletes the absent A, adds a
    session, and the tenant holds two sessions against a quota of one. *)
Theorem C1_second_reentry_exceeds_quota :
  withinQuota "T" Scenario.st3
  ∧ createSession "C" 30 Scenario.user1 Scenario.st3
    = (Ok "C",
       setSessions (insert "C" (Session.mk "user1" "T" 30 30)) Scenario.st3)
  ∧ sessionCount "T" Scenario.st3 = 1
  ∧ sessionCount "T" (exec (createSession "C" 30 Scenario.user1) Scenario.st3)
    = 2
  ∧ ¬ withinQuota "T" (exec (createSession "C" 30 Scenario.user1) Scenario.st3).
Proof.
  split; [|split; [|split; [|split]]].
  - intros c Hc. vm_compute in Hc. inversion Hc; subst c. by vm_compute.
  - by vm_compute.
  - by vm_compute.
  - by vm_compute.
  - intros Hq. specialize (Hq Scenario.tenant eq_refl).
    vm_compute in Hq. by apply Hq.
Qed.

(** ** Taking command *)

(** Every failure of [takeIncidentCommand] leaves the store as it was. *)
Lemma takeIncidentCommand_Err params auth st e st' :
  takeIncidentCommand params auth st = (Err e, st') → st' = st.
Proof.
  unfold takeIncidentCommand. unfoldM.
  destruct (truthy (Params.incidentId params)) as [iid|];
    [|intros; by simplify_eq].
  destruct (truthy (Params.sessionId params)) as [sid|];
    [|intros; by simplify_eq].
  simpl. case_bool_decide; simpl; [|intros; by simplify_eq].
  destruct (customers st !! _) as [c|]; simpl; [|intros; by simplify_eq].
  destruct (incidents st !! iid) as [inc|] eqn:Hinc; simpl;
    [|intros; by simplify_eq].
  case_bool_decide; simpl; [|intros; by simplify_eq].
  destruct (_ && _); simpl; [intros; by simplify_eq|].
  case_bool_decide; simpl; [|intros; by simplify_eq].
  rewrite Hinc; simpl. intros; simplify_eq.
Qed.

(** A success passed every check and wrote the two commander fields. *)
Lemma takeIncidentCommand_Ok params auth st r st' :
  takeIncidentCommand params auth st = (Ok r, st') →
  ∃ incidentId sessionId s inc,
    truthy (Params.incidentId params) = Some incidentId
    ∧ truthy (Params.sessionId params) = Some sessionId
    ∧ sessions st !! sessionId = Some s
    ∧ Session.uid s = AuthContext.uid auth
    ∧ incidents st !! incidentId = Some inc
    ∧ Incident.customerId inc = AuthContext.customerId auth
    ∧ userIncidentsQuery (AuthContext.customerId auth)
        (AuthContext.uid auth) incidentId st = []
    ∧ st' = grantCommand incidentId (AuthContext.uid auth) sessionId inc st.
Proof.
  unfold takeIncidentCommand. unfoldM.
  destruct (truthy (Params.incidentId params)) as [iid|];
    [|intros; by simplify_eq].
  destruct (truthy (Params.sessionId params)) as [sid|];
    [|intros; by simplify_eq].
  simpl. case_bool_decide as Hs; simpl; [|intros; by simplify_eq].
  destruct (sessions st !! sid) as [s|] eqn:Hsid; [|done].
  destruct (customers st !! _) as [c|]; simpl; [|intros; by simplify_eq].
  destruct (incidents st !! iid) as [inc|] eqn:Hinc; simpl;
    [|intros; by simplify_eq].
  case_bool_decide; simpl; [|intros; by simplify_eq].
  destruct (_ && _); simpl; [intros; by simplify_eq|].
  case_bool_decide; simpl; [|intros; by simplify_eq].
  rewrite Hinc; simpl. intros; simplify_eq.
  exists iid, sid, s, inc. simpl in Hs. by simplify_eq.
Qed.

Section TakeCommand.
Variables (params : Params.t) (auth : AuthContext.t) (st : State).
Variables (incidentId sessionId : string).
Variables (s : Session.t) (c : Customer.t) (inc : Incident.t).

Let uid := AuthContext.uid auth.
Let customerId := AuthContext.customerId auth.

(** Steps 1 and 2: the arguments are given, the session is the
    caller's, the tenant is configured and owns the target incident. *)
Hypothesis Hincident : truthy (Params.incidentId params) = Some incidentId.
Hypothesis Hsession : truthy (Params.sessionId params) = Some sessionId.
Hypothesis Hs : sessions st !! sessionId = Some s.
Hypothesis Hown : Session.uid s = uid.
Hypothesis Hc : customers st !! customerId = Some c.
Hypothesis Hinc : incidents st !! incidentId = Some inc.
Hypothesis Htenant : Incident.customerId inc = customerId.

(** The two gates, in the order the transaction evaluates them. *)
Lemma takeIncidentCommand_gates :
  takeIncidentCommand params auth st
  = if (maxCommandLicenses c <=? commandingCount customerId st)
       && negb (bool_decide (Incident.commanderUid inc = Some uid))
    then (Err (HttpsError permission_denied noLicenseMsg), st)
    else if negb (bool_decide
              (userIncidentsQuery customerId uid incidentId st = []))
    then (Err (HttpsError permission_denied alreadyCommandingMsg), st)
    else (Ok "command_granted",
          grantCommand incidentId uid sessionId inc st).
Proof.
  unfold takeIncidentCommand. unfoldM.
  rewrite Hincident, Hsession; simpl.
  rewrite Hs; simpl. rewrite bool_decide_true by (by rewrite Hown).
  simpl. fold customerId uid. rewrite Hc, Hinc; simpl.
  rewrite bool_decide_true by done. simpl.
  unfold commandingCount.
  destruct (_ && _); simpl; [done|].
  destruct (negb _); simpl; [done|].
  by rewrite Hinc.
Qed.
End TakeCommand.




(** ** One Active incident per commander *)

Lemma userIncidentsQuery_nil customerId uid incidentId st :
  userIncidentsQuery customerId uid incidentId st = []
  ↔ ∀ k d, incidents st !! k = Some d →
           Incident.customerId d = customerId →
           Incident.commanderUid d = Some uid → k = incidentId.
Proof.
  unfold userIncidentsQuery. rewrite whereDocs_nil. simpl.
  split; intros H k d Hk.
  - intros Hcid Hu. specialize (H k d Hk).
    rewrite !bool_decide_true in H by done. simpl in H.
    apply negb_false_iff, bool_decide_eq_true in H. done.
  - destruct (decide (Incident.customerId d = customerId)) as [Hcid|Hcid];
      [|by rewrite (bool_decide_false _ Hcid)].
    destruct (decide (Incident.commanderUid d = Some uid)) as [Hu|Hu];
      [|by rewrite (bool_decide_false _ Hu), andb_false_r].
    rewrite (bool_decide_true (k = incidentId)) by eauto.
    by rewrite andb_false_r.
Qed.



(** ** Approving and denying a request *)

Lemma logIncidentAction_eq e st : logIncidentAction e st = (Ok tt, logged e st).
Proof.
  unfold logged, exec, logIncidentAction.
  by destruct (_ || _).
Qed.

Lemma logged_fields e st :
  customers (logged e st) = customers st
  ∧ sessions (logged e st) = sessions st
  ∧ incidents (logged e st) = incidents st
  ∧ commandRequests (logged e st) = commandRequests st.
Proof.
  unfold logged, exec, logIncidentAction.
  by destruct (_ || _).
Qed.

Section Approve.
Variables (now : Z) (params : Params.t) (auth : AuthContext.t) (st : State).
Variables (requestId : string) (req : CommandRequest.t).

Hypothesis Hrequest : truthy (Params.requestId params) = Some requestId.
Hypothesis Hreq : commandRequests st !! requestId = Some req.

Lemma approveCommandRequest_unauthorized :
  CommandRequest.currentCommanderUid req ≠ AuthContext.uid auth →
  approveCommandRequest now params auth st
  = (Err (HttpsError permission_denied notApproverMsg), st).
Proof.
  intros Hne. unfold approveCommandRequest. unfoldM.
  rewrite Hrequest; simpl. rewrite Hreq; simpl.
  by rewrite bool_decide_false.
Qed.

(** The authorised path never looks at the status of the request. *)
Lemma approveCommandRequest_authorized sessionId :
  CommandRequest.currentCommanderUid req = AuthContext.uid auth →
  truthy (CommandRequest.requesterSessionId req) = Some sessionId →
  approveCommandRequest now params auth st
  = if bool_decide (CommandRequest.incidentId req = "")
    then (Err (PlainError "Path must be a non-empty string."), st)
    else match incidents st !! CommandRequest.incidentId req with
         | Some inc =>
             (Ok "Command approved.",
              transferred now auth requestId req sessionId inc st)
         | None => (Err StoreError, logged (approvalEntry now auth req) st)
         end.
Proof.
  intros Heq Hsid. unfold approveCommandRequest. unfoldM.
  rewrite Hrequest; simpl. rewrite Hreq; simpl.
  rewrite bool_decide_true by done; simpl. rewrite Hsid; simpl.
  case_bool_decide; simpl; [done|].
  rewrite logIncidentAction_eq.
  destruct (logged_fields (approvalEntry now auth req) st)
    as (_ & _ & Hi & Hr).
  rewrite Hi.
  destruct (incidents st !! CommandRequest.incidentId req) as [inc|];
    simpl; [|done].
  by rewrite Hr, Hreq.
Qed.

End Approve.


(** What a call of [approveCommandRequest] can do to the store: nothing
    beyond a log entry, or the transfer recorded in some request. *)
Lemma approveCommandRequest_effect now params auth st :
  let st' := exec (approveCommandRequest now params auth) st in
  (sessions st' = sessions st
   ∧ incidents st' = incidents st
   ∧ commandRequests st' = commandRequests st)
  ∨ ∃ requestId req sessionId inc,
      commandRequests st !! requestId = Some req
      ∧ truthy (CommandRequest.requesterSessionId req) = Some sessionId
      ∧ incidents st !! CommandRequest.incidentId req = Some inc
      ∧ st' = transferred now auth requestId req sessionId inc st.
Proof.
  cbv zeta. unfold exec.
  destruct (truthy (Params.requestId params)) as [rid|] eqn:Hrid;
    [|left; unfold approveCommandRequest; unfoldM; by rewrite Hrid].
  destruct (commandRequests st !! rid) as [req|] eqn:Hreq;
    [|left; unfold approveCommandRequest; unfoldM; rewrite Hrid; simpl;
      by rewrite Hreq].
  destruct (decide (CommandRequest.currentCommanderUid req
                    = AuthContext.uid auth)) as [Heq|Hne];
    [|left; by rewrite (approveCommandRequest_unauthorized _ _ _ _ _ _
                          Hrid Hreq Hne)].
  destruct (truthy (CommandRequest.requesterSessionId req)) as [sid|] eqn:Hsid.
  - rewrite (approveCommandRequest_authorized _ _ _ _ _ _ Hrid Hreq sid Heq Hsid).
    case_bool_decide; [by left|].
    destruct (incidents st !! CommandRequest.incidentId req) as [inc|] eqn:Hinc.
    + right. by exists rid, req, sid, inc.
    + left. simpl.
      by destruct (logged_fields (approvalEntry now auth req) st)
        as (_ & -> & -> & ->).
  - left. unfold approveCommandRequest. unfoldM. rewrite Hrid; simpl.
    rewrite Hreq; simpl. rewrite bool_decide_true by done; simpl.
    by rewrite Hsid.
Qed.

(** The recorded commander's denial goes through whatever the status of
    the request. *)
Lemma denyCommandRequest_authorized now params auth st requestId req :
  truthy (Params.requestId params) = Some requestId →
  commandRequests st !! requestId = Some req →
  CommandRequest.currentCommanderUid req = AuthContext.uid auth →
  denyCommandRequest now params auth st
  = (Ok "Request denied.", denied now auth requestId req st).
Proof.
  intros Hrid Hreq Heq. unfold denyCommandRequest. unfoldM.
  rewrite Hrid; simpl. rewrite Hreq; simpl.
  rewrite bool_decide_true by done; simpl. rewrite Hreq; simpl.
  by rewrite logIncidentAction_eq.
Qed.

Lemma denyCommandRequest_effect now params auth st :
  let st' := exec (denyCommandRequest now params auth) st in
  st' = st
  ∨ ∃ requestId req,
      commandRequests st !! requestId = Some req
      ∧ st' = denied now auth requestId req st.
Proof.
  cbv zeta. unfold exec.
  destruct (truthy (Params.requestId params)) as [rid|] eqn:Hrid;
    [|left; unfold denyCommandRequest; unfoldM; by rewrite Hrid].
  destruct (commandRequests st !! rid) as [req|] eqn:Hreq;
    [|left; unfold denyCommandRequest; unfoldM; rewrite Hrid; simpl;
      by rewrite Hreq].
  destruct (decide (CommandRequest.currentCommanderUid req
                    = AuthContext.uid auth)) as [Heq|Hne].
  - right. exists rid, req. split; [done|].
    by rewrite (denyCommandRequest_authorized _ _ _ _ rid req).
  - left. unfold denyCommandRequest. unfoldM. rewrite Hrid; simpl.
    rewrite Hreq; simpl. by rewrite bool_decide_false.
Qed.

(** The collections after a transfer and after a denial. *)
Lemma transferred_fields now auth requestId req sessionId inc st :
  sessions (transferred now auth requestId req sessionId inc st)
  = sessions st
  ∧ incidents (transferred now auth requestId req sessionId inc st)
    = <[CommandRequest.incidentId req :=
          Incident.setCommand (Some (CommandRequest.requesterUid req))
            (Some sessionId) inc]> (incidents st)
  ∧ commandRequests (transferred now auth requestId req sessionId inc st)
    = <[requestId := CommandRequest.setStatus "approved" req]>
        (commandRequests st).
Proof.
  destruct (logged_fields (approvalEntry now auth req) st)
    as (_ & Hs & Hi & Hr).
  unfold transferred; simpl. by rewrite Hs, Hi, Hr.
Qed.

Lemma denied_fields now auth requestId req st :
  sessions (denied now auth requestId req st) = sessions st
  ∧ incidents (denied now auth requestId req st) = incidents st
  ∧ commandRequests (denied now auth requestId req st)
    = <[requestId := CommandRequest.setStatus "denied" req]>
        (commandRequests st).
Proof.
  unfold denied.
  destruct (logged_fields (denialEntry now auth req)
    (setCommandRequests
       (insert requestId (CommandRequest.setStatus "denied" req)) st))
    as (_ & Hs & Hi & Hr).
  by rewrite Hs, Hi, Hr.
Qed.

(** ** The status of a request *)

(** C8 (counterexample): request R1 was denied by user1; user1 then
    approves it, the call succeeds, R1 becomes approved and command of
    I1 passes to user2. *)
Lemma C8_denied_request_approved :
  commandRequests Handoff.st2 !! "R1"
  = Some (CommandRequest.setStatus "denied" Handoff.request1)
  ∧ (approveCommandRequest 120 (Scenario.onRequest "R1") Scenario.user1
       Handoff.st2).1 = Ok "Command approved."
  ∧ commandRequests
      (exec (approveCommandRequest 120 (Scenario.onRequest "R1")
               Scenario.user1) Handoff.st2) !! "R1"
    = Some (CommandRequest.setStatus "approved" Handoff.request1)
  ∧ incidents
      (exec (approveCommandRequest 120 (Scenario.onRequest "R1")
               Scenario.user1) Handoff.st2) !! "I1"
    = Some (Incident.setCommand (Some "user2") (Some "B") Board.incident1)
  ∧ ¬ requestsAreTerminal.
Proof.
  split; [by vm_compute|]. split; [by vm_compute|].
  split; [by vm_compute|]. split; [by vm_compute|].
  intros H.
  destruct (H 120 (Scenario.onRequest "R1") Scenario.user1 Handoff.st2 "R1"
    (CommandRequest.setStatus "denied" Handoff.request1) eq_refl
    (or_intror eq_refl)) as [[Hreq _] _].
  vm_compute in Hreq. discriminate Hreq.
Qed.

(** C8 (as the handlers have it): neither handler reads the status.  A
    call rewrites a request to approved or to denied or leaves it alone,
    so no request returns to pending; and the recorded commander's denial
    or approval goes through whatever the status was, the approval
    re-applying the transfer. *)
Theorem C8_status_transitions now params auth st requestId req :
  commandRequests st !! requestId = Some req →
  (∀ st',
     st' = exec (approveCommandRequest now params auth) st
     ∨ st' = exec (denyCommandRequest now params auth) st →
     ∃ req', commandRequests st' !! requestId = Some req'
             ∧ (req' = req
                ∨ req' = CommandRequest.setStatus "approved" req
                ∨ req' = CommandRequest.setStatus "denied" req)
             ∧ (CommandRequest.status req ≠ "pending" →
                CommandRequest.status req' ≠ "pending"))
  ∧ (truthy (Params.requestId params) = Some requestId →
     CommandRequest.currentCommanderUid req = AuthContext.uid auth →
     denyCommandRequest now params auth st
     = (Ok "Request denied.", denied now auth requestId req st)
     ∧ ∀ sessionId inc,
         truthy (CommandRequest.requesterSessionId req) = Some sessionId →
         CommandRequest.incidentId req ≠ "" →
         incidents st !! CommandRequest.incidentId req = Some inc →
         approveCommandRequest now params auth st
         = (Ok "Command approved.",
            transferred now auth requestId req sessionId inc st)).
Proof.
  intros Hreq. split.
  - assert (Hcases : ∀ rid r s m,
      commandRequests st !! rid = Some r →
      m = <[rid := CommandRequest.setStatus s r]> (commandRequests st) →
      s ≠ "pending" →
      ∃ req', m !! requestId = Some req'
              ∧ (req' = req ∨ req' = CommandRequest.setStatus s req)
              ∧ (CommandRequest.status req ≠ "pending" →
                 CommandRequest.status req' ≠ "pending")).
    { intros rid r s m Hr -> Hs.
      destruct (decide (rid = requestId)) as [->|Hne].
      - rewrite lookup_insert_eq. simplify_eq. eauto 6.
      - rewrite lookup_insert_ne by done. eauto 6. }
    intros st' [->| ->].
    + destruct (approveCommandRequest_effect now params auth st)
        as [(_ & _ & ->)|(rid & r & sid & inc & Hr & _ & _ & ->)];
        [eauto 6|].
      destruct (transferred_fields now auth rid r sid inc st)
        as (_ & _ & Hrq).
      destruct (Hcases rid r "approved" _ Hr Hrq)
        as (req' & ? & [?|?] & ?); [done|eauto 8..].
    + destruct (denyCommandRequest_effect now params auth st)
        as [->|(rid & r & Hr & ->)]; [eauto 6|].
      destruct (denied_fields now auth rid r st) as (_ & _ & Hrq).
      destruct (Hcases rid r "denied" _ Hr Hrq)
        as (req' & ? & [?|?] & ?); [done|eauto 8..].
  - intros Hrid Heq. split.
    + by apply denyCommandRequest_authorized.
    + intros sid inc Hsid Hne Hinc.
      rewrite (approveCommandRequest_authorized _ _ _ _ _ _ Hrid Hreq sid Heq
                 Hsid).
      by rewrite bool_decide_false, Hinc.
Qed.

Lemma C8_status_transitions_witness :
  denyCommandRequest 130 (Scenario.onRequest "R1") Scenario.user1 Handoff.st2
  = (Ok "Request denied.",
     denied 130 Scenario.user1 "R1"
       (CommandRequest.setStatus "denied" Handoff.request1) Handoff.st2).
Proof.
  apply (proj2 (C8_status_transitions 130 (Scenario.onRequest "R1")
    Scenario.user1 Handoff.st2 "R1"
    (CommandRequest.setStatus "denied" Handoff.request1) eq_refl)).
  - reflexivity.
  - reflexivity.
Defined.

(** ** Requesting command *)

Lemma existingReqQuery_nil incidentId st :
  existingReqQuery incidentId st = []
  ↔ ∀ requestId, ¬ pendingFor st incidentId requestId.
Proof.
  unfold existingReqQuery.
  assert (∀ {B} (l : list B), take 1 l = [] ↔ l = []) as ->
    by (by intros B [|? ?]).
  rewrite whereDocs_nil; simpl. split.
  - intros H rid (r & Hr & Hi & Hs). specialize (H rid r Hr).
    by rewrite !bool_decide_true in H.
  - intros H rid r Hr. apply andb_false_iff.
    destruct (decide (CommandRequest.incidentId r = incidentId)) as [Hi|Hi];
      [|left; by apply bool_decide_eq_false].
    right. apply bool_decide_eq_false. intros Hs.
    apply (H rid). by exists r.
Qed.









(** ** Re-establishing command *)

(** C10 (counterexample): for an incident id that names no document the
    handler throws a plain error, which is not permission-denied. *)
Lemma C10_missing_incident_plain_error :
  incidents Board.st !! "I9" = None
  ∧ reestablishCommand 50 (Scenario.onIncident "I9" "A") Scenario.user1
      Board.st
    = (Err (PlainError "Incident not found."), Board.st)
  ∧ ¬ reestablishRefusesWithPermissionDenied.
Proof.
  split; [by vm_compute|]. split; [by vm_compute|].
  intros H.
  destruct (H 50 (Scenario.onIncident "I9" "A") Scenario.user1 Board.st
    "I9" "A" eq_refl eq_refl) as [msg Hmsg].
  - intros (inc & Hinc & _). vm_compute in Hinc. discriminate Hinc.
  - vm_compute in Hmsg. discriminate Hmsg.
Qed.

(** C10 (as the handler has it): with both arguments given the call
    succeeds exactly when the incident exists and records the caller as
    commander.  It then rewrites commanderSessionId to the given session
    id, whatever the sessions collection holds, keeps every other field
    of the incident and every other document, and writes one log entry.
    A different recorded commander is refused with permission-denied, a
    missing incident with a plain error, a missing argument with
    invalid-argument; a refusal writes nothing. *)
Theorem C10_reestablish_frame now params auth st :
  ((truthy (Params.incidentId params) = None
    ∨ truthy (Params.sessionId params) = None) →
   ∃ msg, reestablishCommand now params auth st
          = (Err (HttpsError invalid_argument msg), st))
  ∧ ∀ incidentId sessionId,
      truthy (Params.incidentId params) = Some incidentId →
      truthy (Params.sessionId params) = Some sessionId →
      match incidents st !! incidentId with
      | None =>
          reestablishCommand now params auth st
          = (Err (PlainError "Incident not found."), st)
      | Some inc =>
          (Incident.commanderUid inc ≠ Some (AuthContext.uid auth) →
           reestablishCommand now params auth st
           = (Err (HttpsError permission_denied notCommanderMsg), st))
          ∧ (Incident.commanderUid inc = Some (AuthContext.uid auth) →
             reestablishCommand now params auth st
             = (Ok "command_reestablished",
                setIncidents
                  (insert incidentId
                     (Incident.mk (Incident.incidentNumber inc)
                        (Incident.incidentName inc) (Incident.startTime inc)
                        (Incident.status inc) (Incident.endTime inc)
                        (Incident.customerId inc)
                        (Some (AuthContext.uid auth)) (Some sessionId)))
                  (logged
                     (reestablishEntry now auth incidentId sessionId) st)))
      end.
Proof.
  split.
  - unfold reestablishCommand. unfoldM.
    intros [-> | ->]; [eauto|].
    destruct (truthy (Params.incidentId params)); eauto.
  - intros iid sid Hiid Hsid.
    unfold reestablishCommand. unfoldM. rewrite Hiid, Hsid.
    destruct (incidents st !! iid) as [inc|] eqn:Hinc; simpl; [|done].
    split; intros Hcmd.
    + by rewrite bool_decide_false.
    + rewrite bool_decide_true by done; simpl.
      rewrite logIncidentAction_eq.
      destruct (logged_fields (reestablishEntry now auth iid sid) st)
        as (_ & _ & Hi & _).
      rewrite Hi, Hinc; simpl.
      unfold Incident.setCommanderSessionId. by rewrite Hcmd.
Qed.

(** The session id "Z9" names no session of the board. *)
Lemma C10_reestablish_frame_witness :
  sessions Board.st !! "Z9" = None
  ∧ (reestablishCommand 50 (Scenario.onIncident "I1" "Z9") Scenario.user1
       Board.st).1 = Ok "command_reestablished".
Proof.
  split; [reflexivity|].
  pose proof (proj2 (C10_reestablish_frame 50
    (Scenario.onIncident "I1" "Z9") Scenario.user1 Board.st)
    "I1" "Z9" eq_refl eq_refl) as H.
  change (incidents Board.st !! "I1") with (Some Board.incident1) in H.
  destruct H as [_ H]. by rewrite (H eq_refl).
Defined.

(** ** The hourly sweep *)

Lemma lookup_alterAll {A} (f : A → A) ks (m : gmap string A) k :
  (∀ x, f (f x) = f x) →
  alterAll f ks m !! k = if decide (k ∈ ks) then f <$> m !! k else m !! k.
Proof.
  intros Hf. revert m. induction ks as [|k0 ks IH]; intros m.
  - destruct (decide (k ∈ [])) as [[]%elem_of_nil|]; done.
  - change (alterAll f (k0 :: ks) m) with (alterAll f ks (alter f k0 m)).
    rewrite IH.
    destruct (decide (k = k0)) as [->|Hne].
    + rewrite lookup_alter_eq.
      destruct (decide (k0 ∈ k0 :: ks)) as [_|[]]; [|left].
      destruct (decide (k0 ∈ ks)); [|done].
      destruct (m !! k0); simpl; by rewrite ?Hf.
    + rewrite lookup_alter_ne by done.
      destruct (decide (k ∈ ks)) as [Hin|Hin],
               (decide (k ∈ k0 :: ks)) as [Hin'|Hin']; try done.
      * destruct Hin'. by right.
      * apply elem_of_cons in Hin' as [?|?]; done.
Qed.

Lemma lookup_deleteAll {A} ks (m : gmap string A) k :
  deleteAll ks m !! k = if decide (k ∈ ks) then None else m !! k.
Proof.
  revert m. induction ks as [|k0 ks IH]; intros m.
  - destruct (decide (k ∈ [])) as [[]%elem_of_nil|]; done.
  - change (deleteAll (k0 :: ks) m) with (deleteAll ks (delete k0 m)).
    rewrite IH.
    destruct (decide (k = k0)) as [->|Hne].
    + rewrite lookup_delete_eq.
      destruct (decide (k0 ∈ k0 :: ks)) as [_|[]]; [|left].
      by destruct (decide (k0 ∈ ks)).
    + rewrite lookup_delete_ne by done.
      destruct (decide (k ∈ ks)) as [Hin|Hin],
               (decide (k ∈ k0 :: ks)) as [Hin'|Hin']; try done.
      * destruct Hin'. by right.
      * apply elem_of_cons in Hin' as [?|?]; done.
Qed.

Lemma commit_updateIncidents f ks ws st :
  (∀ k, k ∈ ks → is_Some (incidents st !! k)) →
  commit (map (λ k, UpdateIncident k f) ks ++ ws) st
  = commit ws (setIncidents (alterAll f ks) st).
Proof.
  revert st. induction ks as [|k ks IH]; intros st Hks; simpl.
  - by destruct st.
  - destruct (Hks k) as [d Hd]; [left|]. rewrite Hd; simpl.
    rewrite IH.
    + f_equal. unfold setIncidents, alterAll; simpl. f_equal.
      f_equal. apply map_eq. intros j.
      destruct (decide (j = k)) as [->|Hne].
      * by rewrite lookup_insert_eq, lookup_alter_eq, Hd.
      * by rewrite lookup_insert_ne, lookup_alter_ne.
    + intros j Hj. simpl.
      destruct (decide (j = k)) as [->|Hne].
      * by rewrite lookup_insert_eq.
      * rewrite lookup_insert_ne by done. apply Hks. by right.
Qed.

Lemma commit_deleteSessions ks st :
  commit (map DeleteSession ks) st = Some (setSessions (deleteAll ks) st).
Proof.
  revert st. induction ks as [|k ks IH]; intros st; simpl.
  - by destruct st.
  - by rewrite IH.
Qed.

Lemma elem_of_staleSessionIds now st sessionId :
  sessionId ∈ map fst (staleSessionsQuery now st) ↔ stale now st sessionId.
Proof.
  unfold staleSessionsQuery, olderThan, stale.
  rewrite list_elem_of_fmap. split.
  - intros ([k s] & -> & Hin). rewrite sortBy_perm in Hin.
    apply elem_of_whereDocs in Hin as [Hs Hlt]. simpl in *.
    exists s. split; [done|]. by apply Z.ltb_lt.
  - intros (s & Hs & Hlt). exists (sessionId, s). split; [done|].
    rewrite sortBy_perm. apply elem_of_whereDocs. split; [done|].
    by apply Z.ltb_lt.
Qed.

Lemma elem_of_lockedIncidentsQuery ids st k inc :
  (k, inc) ∈ lockedIncidentsQuery ids st
  ↔ incidents st !! k = Some inc
    ∧ Incident.status inc = "Active"
    ∧ ∃ sid, Incident.commanderSessionId inc = Some sid ∧ sid ∈ ids.
Proof.
  unfold lockedIncidentsQuery. rewrite elem_of_whereDocs; simpl.
  rewrite andb_true_iff, bool_decide_eq_true.
  destruct (Incident.commanderSessionId inc) as [sid|].
  - rewrite bool_decide_eq_true. split.
    + intros (? & ? & ?). eauto.
    + intros (? & ? & sid' & [= <-] & ?). eauto.
  - split.
    + by intros (_ & _ & ?).
    + by intros (_ & _ & ? & ? & _).
Qed.

Lemma elem_of_setAdd x y l : x ∈ setAdd y l ↔ x = y ∨ x ∈ l.
Proof.
  unfold setAdd. case_bool_decide.
  - split; [by right|]. by intros [->|?].
  - rewrite elem_of_app, list_elem_of_singleton. tauto.
Qed.

Lemma elem_of_sessionsToDelete locked sid :
  sid ∈ sessionsToDelete locked
  ↔ ∃ d, d ∈ locked ∧ Incident.commanderSessionId d.2 = Some sid.
Proof.
  unfold sessionsToDelete.
  assert (∀ acc,
    sid ∈ fold_left (λ acc (d : string * Incident.t),
             match Incident.commanderSessionId d.2 with
             | Some s => setAdd s acc
             | None => acc
             end) locked acc
    ↔ sid ∈ acc
      ∨ ∃ d, d ∈ locked ∧ Incident.commanderSessionId d.2 = Some sid) as H.
  { induction locked as [|d l IH]; intros acc; simpl.
    - split; [by left|]. intros [?|(? & []%elem_of_nil & _)]; done.
    - rewrite IH. destruct (Incident.commanderSessionId d.2) as [s|] eqn:Hs.
      + rewrite elem_of_setAdd. split.
        * intros [[->|?]|(d' & ? & ?)]; [right; exists d|by left|right; exists d'];
            split; try done; by constructor.
        * intros [?|(d' & [->|?]%elem_of_cons & ?)].
          -- by left; right.
          -- left; left. congruence.
          -- right. by exists d'.
      + split.
        * intros [?|(d' & ? & ?)]; [by left|].
          right. exists d'. split; [by right|done].
        * intros [?|(d' & [->|?]%elem_of_cons & ?)];
            [by left|congruence|right; by exists d']. }
  rewrite H. split; [|by right].
  intros [[]%elem_of_nil|?]; done.
Qed.

Lemma elem_of_lockedNow now st k inc :
  (k, inc) ∈ lockedNow now st
  ↔ incidents st !! k = Some inc ∧ heldByStale now st inc.
Proof.
  unfold lockedNow, heldByStale. rewrite elem_of_lockedIncidentsQuery.
  by setoid_rewrite elem_of_staleSessionIds.
Qed.

Lemma swept_nil now st : lockedNow now st = [] → swept now st = st.
Proof. unfold swept. intros ->. by destruct st. Qed.

(** The sweep always completes, in the store [swept]. *)
Lemma cleanupstalecommandsessions_eq now st :
  cleanupstalecommandsessions now st = (Ok tt, swept now st).
Proof.
  unfold cleanupstalecommandsessions. unfoldM.
  case_bool_decide as Hstale; simpl.
  - rewrite swept_nil; [done|]. unfold lockedNow. rewrite Hstale.
    apply whereDocs_nil. intros k inc _. simpl.
    destruct (Incident.commanderSessionId inc); by rewrite andb_false_r.
  - fold (lockedNow now st). case_bool_decide as Hlocked; simpl.
    + by rewrite swept_nil.
    + unfold staleCommandBatch.
      rewrite <- (map_map fst (λ k, UpdateIncident k
                                     (Incident.setCommand None None))).
      rewrite commit_updateIncidents, commit_deleteSessions; [done|].
      intros k ([k' inc] & -> & Hin)%list_elem_of_fmap.
      apply elem_of_lockedNow in Hin as [Hk _]. by exists inc.
Qed.


Lemma lookup_swept_incidents now st k :
  incidents (swept now st) !! k
  = if decide (k ∈ map fst (lockedNow now st))
    then Incident.setCommand None None <$> incidents st !! k
    else incidents st !! k.
Proof. unfold swept; simpl. by apply lookup_alterAll. Qed.

Lemma lookup_swept_sessions now st k :
  sessions (swept now st) !! k
  = if decide (k ∈ sessionsToDelete (lockedNow now st))
    then None else sessions st !! k.
Proof. unfold swept; simpl. by apply lookup_deleteAll. Qed.

Lemma elem_of_lockedNow_keys now st k :
  k ∈ map fst (lockedNow now st)
  ↔ ∃ inc, incidents st !! k = Some inc ∧ heldByStale now st inc.
Proof.
  rewrite list_elem_of_fmap. split.
  - intros ([k' inc] & -> & Hin). exists inc. by apply elem_of_lockedNow.
  - intros (inc & Hin). exists (k, inc). split; [done|].
    by apply elem_of_lockedNow.
Qed.

Lemma elem_of_sessionsToDelete_lockedNow now st sid :
  sid ∈ sessionsToDelete (lockedNow now st) ↔ recordedStale now st sid.
Proof.
  rewrite elem_of_sessionsToDelete. unfold recordedStale. split.
  - intros ([k inc] & Hin & Hsid). simpl in Hsid.
    apply elem_of_lockedNow in Hin as (Hk & Hact & sid' & Hsid' & Hst).
    rewrite Hsid in Hsid'. simplify_eq. split; [done|].
    by exists k, inc.
  - intros (Hst & k & inc & Hk & Hact & Hsid). exists (k, inc).
    split; [|done]. apply elem_of_lockedNow. split; [done|].
    split; [done|]. by exists sid.
Qed.




(** ** Privileged re-entry *)

Lemma head_take_1 {B} (l : list B) : head (take 1 l) = head l.
Proof. by destruct l. Qed.

(** C6 (counterexample): the query keeps the first incident the user
    commands, and only that one is read.  In the legacy store that is I1,
    which records no session: the handler goes on to the general bumping,
    finds no stale session and refuses, although I2 records a commanding
    session of the user.  In the crowd store user2 commands I1 from B2
    and I2 from B: re-entry bumps B2 and leaves B, the session recorded
    on I2. *)
Lemma C6_only_first_incident_is_read :
  commanderQuery "T" "user1" Legacy.st = [("I1", Legacy.incident1)]
  ∧ createSession "C" 1000 Scenario.user1 Legacy.st
    = (Err (HttpsError permission_denied noSlotMsg), Legacy.st)
  ∧ (createSession "D" 40 Scenario.user2 Crowd.st4).1 = Ok "D"
  ∧ Incident.commanderSessionId
      <$> incidents Crowd.st4 !! "I2" = Some (Some "B")
  ∧ is_Some (sessions (exec (createSession "D" 40 Scenario.user2)
                         Crowd.st4) !! "B")
  ∧ ¬ anyCommandedIncidentAdmits.
Proof.
  split; [by vm_compute|]. split; [by vm_compute|].
  split; [by vm_compute|]. split; [by vm_compute|].
  split; [vm_compute; eauto|].
  intros H.
  specialize (H "C" 1000 Scenario.user1 Legacy.st Scenario.tenant "I2"
    Legacy.incident2 "A" eq_refl).
  vm_compute in H.
  destruct (H ltac:(discriminate) eq_refl eq_refl eq_refl eq_refl eq_refl
              ltac:(discriminate)) as [Hok _].
  discriminate Hok.
Qed.

(** [sortBy] sorts, for a total and transitive comparison. *)
Section Sorting.
Context {B : Type} (leb : B → B → bool).
Hypothesis leb_total : ∀ a b, leb a b = true ∨ leb b a = true.
Hypothesis leb_trans :
  ∀ a b c, leb a b = true → leb b c = true → leb a c = true.

Let R (a b : B) : Prop := leb a b = true.

Lemma insertBy_sorted x l :
  StronglySorted R l → StronglySorted R (insertBy leb x l).
Proof.
  induction 1 as [|y l Hl IH Hy]; simpl.
  - repeat constructor.
  - destruct (leb x y) eqn:Hxy.
    + constructor; [by constructor|].
      constructor; [done|].
      eapply Forall_impl; [exact Hy|]. intros z Hz. by eapply leb_trans.
    + constructor; [done|].
      rewrite insertBy_perm. constructor; [|done].
      destruct (leb_total x y) as [?|?]; [congruence|done].
Qed.

Lemma sortBy_sorted l : StronglySorted R (sortBy leb l).
Proof.
  induction l as [|x l IH]; simpl; [constructor|by apply insertBy_sorted].
Qed.

Lemma filter_sorted (p : B → bool) l :
  StronglySorted R l → StronglySorted R (List.filter p l).
Proof.
  induction 1 as [|y l Hl IH Hy]; simpl; [constructor|].
  destruct (p y); [|done]. constructor; [done|].
  apply Forall_forall. intros z [Hz _]%elem_of_List_filter.
  by eapply Forall_forall in Hy.
Qed.
End Sorting.

(** A query returns its documents in ascending id order, so the first is
    the one with the least id. *)
Lemma head_whereDocs {A} (p : string * A → bool) (m : gmap string A) k v :
  m !! k = Some v →
  p (k, v) = true →
  (∀ j d, m !! j = Some d → p (j, d) = true → String.leb k j = true) →
  head (whereDocs p m) = Some (k, v).
Proof.
  intros Hk Hp Hleast.
  assert (StronglySorted (λ a b : string * A, String.leb a.1 b.1 = true)
            (whereDocs p m)) as Hsorted.
  { apply filter_sorted, sortBy_sorted.
    - intros a b. apply String.leb_total.
    - intros a b c ?%Is_true_true ?%Is_true_true. apply Is_true_true.
      by etrans. }
  assert ((k, v) ∈ whereDocs p m) as Hin by (by apply elem_of_whereDocs).
  destruct (whereDocs p m) as [|[k0 v0] l] eqn:Hq;
    [by apply elem_of_nil in Hin|].
  simpl. f_equal.
  assert ((k0, v0) ∈ whereDocs p m) as Hin0 by (rewrite Hq; left).
  apply elem_of_whereDocs in Hin0 as [Hk0 Hp0].
  assert (k0 = k) as ->.
  { apply String.leb_antisym; [|by eapply Hleast].
    apply elem_of_cons in Hin as [?|Hin];
      [simplify_eq; apply Is_true_true;
       by apply (reflexivity (R := String.le))|].
    apply StronglySorted_inv in Hsorted as [_ Hall].
    rewrite Forall_forall in Hall. by apply (Hall (k, v)). }
  by simplify_eq.
Qed.

(** C6 (as the handler has it): with the slots full, the handler looks at
    the first Active incident of the tenant commanded by the caller, in
    document-id order; when that incident records a commanding session,
    the call succeeds, deletes that session and adds and returns a new
    session owned by the caller.  A caller who commands one Active
    incident (Scenario B) is admitted through it. *)
Theorem C6_privileged_reentry newId now auth st c iid inc sid :
  customers st !! AuthContext.customerId auth = Some c →
  maxTotalSessions c <= sessionCount (AuthContext.customerId auth) st →
  incidents st !! iid = Some inc →
  Incident.customerId inc = AuthContext.customerId auth →
  Incident.status inc = "Active" →
  Incident.commanderUid inc = Some (AuthContext.uid auth) →
  Incident.commanderSessionId inc = Some sid →
  sid ≠ "" →
  (∀ j d,
     incidents st !! j = Some d →
     Incident.customerId d = AuthContext.customerId auth →
     Incident.status d = "Active" →
     Incident.commanderUid d = Some (AuthContext.uid auth) →
     String.leb iid j = true) →
  createSession newId now auth st
  = (Ok newId,
     setSessions
       (insert newId
          (Session.mk (AuthContext.uid auth) (AuthContext.customerId auth)
             now now))
       (setSessions (delete sid) st)).
Proof.
  intros Hc Hfull Hinc Htenant Hactive Hcmd Hsid Hne Hfirst.
  assert (head (commanderQuery (AuthContext.customerId auth)
                  (AuthContext.uid auth) st) = Some (iid, inc)) as Hhead.
  { unfold commanderQuery. rewrite head_take_1.
    apply head_whereDocs; [done|simpl; by rewrite !bool_decide_true|].
    intros j d Hj Hp. simpl in Hp.
    apply andb_true_iff in Hp as [[H1 H2]%andb_true_iff H3].
    apply bool_decide_eq_true in H1, H2, H3. by apply (Hfirst j d). }
  unfold createSession. unfoldM. rewrite Hc; simpl.
  unfold sessionCount in Hfull.
  rewrite (proj2 (Z.ltb_ge _ _) Hfull); simpl.
  rewrite Hhead; simpl. rewrite Hsid; simpl.
  by rewrite bool_decide_false.
Qed.

(** Scenario B: one slot, held by session A, from which user1 commands
    I1; user1 logs in from a second device. *)
Lemma C6_privileged_reentry_witness :
  createSession "B" 20 Scenario.user1 Scenario.st2
  = (Ok "B",
     setSessions (insert "B" (Session.mk "user1" "T" 20 20))
       (setSessions (delete "A") Scenario.st2)).
Proof.
  apply (C6_privileged_reentry "B" 20 Scenario.user1 Scenario.st2
    Scenario.tenant "I1"
    (Incident.mk "20260101-0000" None 10 "Active" None "T" (Some "user1")
       (Some "A")) "A"); try reflexivity.
  - by vm_compute.
  - intros j d Hj _ _ _.
    destruct (decide (j = "I1")) as [->|Hne]; [reflexivity|].
    change (incidents Scenario.st2) with
      (<["I1" := Incident.mk "20260101-0000" None 10 "Active" None "T"
                   (Some "user1") (Some "A")]> (∅ : gmap string Incident.t))
      in Hj.
    rewrite lookup_insert_ne in Hj by done. by rewrite lookup_empty in Hj.
Defined.

(** ** Consistency of the commander fields *)

Lemma commit_app ws1 ws2 st :
  commit (ws1 ++ ws2) st = commit ws1 st ≫= commit ws2.
Proof.
  revert st. induction ws1 as [|w ws1 IH]; intros st; simpl; [done|].
  destruct (applyWrite w st); simpl; [apply IH|done].
Qed.

Lemma commit_unitWrites ws st st' :
  Forall unitWrite ws →
  commit ws st = Some st' →
  incidents st' = incidents st ∧ sessions st' = sessions st.
Proof.
  intros Hws. revert st. induction Hws as [|w ws Hw _ IH]; intros st; simpl.
  - by intros [= ->].
  - destruct w; try done; simpl.
    + destruct (assignments st !! id); simpl; [|done].
      intros H. by apply IH in H.
    + destruct (units st !! id); simpl; [|done].
      intros H. by apply IH in H.
    + intros H. by apply IH in H.
Qed.

Lemma closeBatch_unitWrites now incidentId assignSnapshot st :
  ∃ front,
    closeBatch now incidentId assignSnapshot st
    = front ++ [UpdateIncident incidentId (Incident.close now)]
    ∧ Forall unitWrite front.
Proof.
  unfold closeBatch. eexists. rewrite !app_assoc. split; [done|].
  repeat apply Forall_app_2.
  - apply Forall_forall. by intros w (d & -> & _)%list_elem_of_fmap.
  - apply Forall_forall. by intros w (d & -> & _)%list_elem_of_fmap.
  - apply List.Forall_flat_map, Forall_forall. intros d _.
    constructor; [done|].
    destruct (_ || _); [constructor|].
    destruct (List.find _ _) as [u|]; [|constructor].
    case_bool_decide; by repeat constructor.
Qed.

(** What the handlers do to the incidents and the sessions. *)
Lemma createSession_incidents newId now auth st :
  incidents (exec (createSession newId now auth) st) = incidents st.
Proof.
  unfold createSession. unfoldM.
  destruct (customers st !! _); simpl; [|done].
  destruct (_ <? _); simpl; [done|].
  destruct (head _ ≫= _); simpl; [done|].
  by destruct (fold_left _ _ _).
Qed.

Lemma startNewIncident_effect newId defaultNumber now params auth st :
  let st' := exec (startNewIncident newId defaultNumber now params auth) st in
  st' = st
  ∨ ∃ inc, st' = setIncidents (insert newId inc) st
           ∧ is_Some (Incident.commanderUid inc)
           ∧ is_Some (Incident.commanderSessionId inc).
Proof.
  cbv zeta. unfold startNewIncident. unfoldM.
  destruct (truthy (Params.sessionId params)) as [sid|]; simpl; [|by left].
  destruct (customers st !! _); simpl; [|by left].
  destruct (_ <=? _); simpl; [by left|].
  case_bool_decide; simpl; [|by left].
  right. eexists. split; [done|]. simpl. eauto.
Qed.

Lemma closeIncident_effect now params auth st :
  let st' := exec (closeIncident now params auth) st in
  sessions st' = sessions st
  ∧ (incidents st' = incidents st
     ∨ ∃ iid inc, incidents st !! iid = Some inc
                  ∧ incidents st'
                    = <[iid := Incident.close now inc]> (incidents st)).
Proof.
  cbv zeta. unfold closeIncident, getAndVerifyDoc. unfoldM.
  destruct (truthy (Params.incidentId params)) as [iid|]; simpl;
    [|by split; [|left]].
  destruct (incidents st !! iid) as [inc|] eqn:Hinc; simpl;
    [|by split; [|left]].
  case_bool_decide; simpl; [|by split; [|left]].
  case_bool_decide; simpl; [|by split; [|left]].
  case_bool_decide; simpl.
  - rewrite Hinc; simpl. split; [done|]. right. by exists iid, inc.
  - destruct (closeBatch_unitWrites now iid
      (assignQuery (AuthContext.customerId auth) iid st) st)
      as (front & -> & Hfront).
    rewrite commit_app.
    destruct (commit front st) as [st1|] eqn:Hfront1; simpl;
      [|by split; [|left]].
    apply commit_unitWrites in Hfront1 as [Hi Hs]; [|done].
    rewrite Hi, Hinc; simpl. rewrite Hi.
    split; [done|]. right. by exists iid, inc.
Qed.

Lemma reestablishCommand_effect now params auth st :
  let st' := exec (reestablishCommand now params auth) st in
  sessions st' = sessions st
  ∧ (incidents st' = incidents st
     ∨ ∃ iid sid inc,
         incidents st !! iid = Some inc
         ∧ is_Some (Incident.commanderUid inc)
         ∧ incidents st'
           = <[iid := Incident.setCommanderSessionId (Some sid) inc]>
               (incidents st)).
Proof.
  cbv zeta. unfold reestablishCommand. unfoldM.
  destruct (truthy (Params.incidentId params)) as [iid|];
    [|by split; [|left]].
  destruct (truthy (Params.sessionId params)) as [sid|];
    [|by split; [|left]].
  destruct (incidents st !! iid) as [inc|] eqn:Hinc; simpl;
    [|by split; [|left]].
  case_bool_decide as Hcmd; simpl; [|by split; [|left]].
  rewrite logIncidentAction_eq.
  match goal with |- context [logged ?e st] =>
    destruct (logged_fields e st) as (_ & Hs & Hi & _) end.
  rewrite Hi, Hinc; simpl. rewrite Hi, Hs. split; [done|].
  right. exists iid, sid, inc. by rewrite Hcmd.
Qed.

Lemma cleanupoldsessions_incidents now st :
  incidents (exec (cleanupoldsessions now) st) = incidents st.
Proof.
  unfold cleanupoldsessions. unfoldM.
  case_bool_decide; simpl; [done|].
  rewrite <- (map_map fst DeleteSession), commit_deleteSessions. done.
Qed.

Lemma allPaired_same st st' :
  incidents st' = incidents st → allPaired st → allPaired st'.
Proof. intros Heq Hst iid inc. rewrite Heq. apply Hst. Qed.

Lemma allPaired_insert st st' k d :
  incidents st' = <[k := d]> (incidents st) →
  paired d → allPaired st → allPaired st'.
Proof.
  intros Heq Hd Hst iid inc. rewrite Heq.
  destruct (decide (k = iid)) as [->|Hne].
  - rewrite lookup_insert_eq. by intros [= <-].
  - rewrite lookup_insert_ne by done. apply Hst.
Qed.

Lemma consistent_insert st st' k d :
  sessions st' = sessions st →
  incidents st' = <[k := d]> (incidents st) →
  paired d → liveCommand st d →
  consistent st → consistent st'.
Proof.
  intros Hs Heq Hd Hlive Hst iid inc. rewrite Heq.
  unfold liveCommand. rewrite Hs.
  destruct (decide (k = iid)) as [->|Hne].
  - rewrite lookup_insert_eq. by intros [= <-].
  - rewrite lookup_insert_ne by done. apply Hst.
Qed.

Lemma paired_set u s inc :
  paired (Incident.setCommand (Some u) (Some s) inc).
Proof. right. simpl. eauto. Qed.

Lemma paired_cleared inc : paired (Incident.setCommand None None inc).
Proof. by left. Qed.

Lemma Scenario_st2_incidents :
  incidents Scenario.st2
  = {["I1" := Incident.mk "20260101-0000" None 10 "Active" None "T"
                (Some "user1") (Some "A")]}.
Proof. by vm_compute. Qed.

(** C5 (counterexample): in Scenario B the store is consistent while
    user1 commands I1 from session A; privileged re-entry deletes A and
    leaves I1 recording it. *)
Lemma C5_reentry_leaves_dangling_session :
  consistent Scenario.st2
  ∧ incidents (perform (CreateSession "B" 20 Scenario.user1) Scenario.st2)
      !! "I1"
    = Some (Incident.mk "20260101-0000" None 10 "Active" None "T"
              (Some "user1") (Some "A"))
  ∧ sessions (perform (CreateSession "B" 20 Scenario.user1) Scenario.st2)
      !! "A" = None
  ∧ ¬ consistent (perform (CreateSession "B" 20 Scenario.user1) Scenario.st2)
  ∧ ¬ operationsKeepConsistency.
Proof.
  assert (consistent Scenario.st2) as Hst2.
  { intros iid inc. rewrite Scenario_st2_incidents.
    intros [<- <-]%lookup_singleton_Some. split.
    - right. simpl. eauto.
    - intros u s [= <-] [= <-].
      exists (Session.mk "user1" "T" 0 0). by vm_compute. }
  assert (¬ consistent
            (perform (CreateSession "B" 20 Scenario.user1) Scenario.st2))
    as Hst3.
  { intros H.
    destruct (H "I1" (Incident.mk "20260101-0000" None 10 "Active" None "T"
                        (Some "user1") (Some "A"))) as [_ Hlive];
      [by vm_compute|].
    destruct (Hlive "user1" "A" eq_refl eq_refl) as (sess & Hsess & _).
    vm_compute in Hsess. discriminate Hsess. }
  split; [done|]. split; [by vm_compute|]. split; [by vm_compute|].
  split; [done|]. intros H. by apply Hst3, H.
Qed.

(** C5 (as the handlers have it): every operation keeps the two commander
    fields of every incident both null or both set; [takeIncidentCommand]
    and [closeIncident] moreover keep every recorded commanding session
    an existing session of the recorded commander. *)
Theorem C5_commander_fields_paired op st :
  (allPaired st → allPaired (perform op st))
  ∧ match op with
    | TakeIncidentCommand _ _ | CloseIncident _ _ _ =>
        consistent st → consistent (perform op st)
    | _ => True
    end.
Proof.
  destruct op as [newId now auth|params auth|newId num now params auth
                 |now params auth|now params auth|now params auth|now|now];
    simpl.
  - split; [|done]. apply allPaired_same, createSession_incidents.
  - unfold exec.
    destruct (takeIncidentCommand params auth st) as [[r|e] st'] eqn:Htake;
      simpl.
    + apply takeIncidentCommand_Ok in Htake
        as (iid & sid & s & inc & _ & _ & Hs & Hown & _ & _ & _ & ->).
      split.
      * intros Hst.
        eapply (allPaired_insert st); [reflexivity|apply paired_set|exact Hst].
      * intros Hst.
        eapply (consistent_insert st);
          [reflexivity|reflexivity|apply paired_set| |exact Hst].
        intros u s' [= <-] [= <-]. by exists s.
    + by rewrite (takeIncidentCommand_Err _ _ _ _ _ Htake).
  - split; [|done].
    destruct (startNewIncident_effect newId num now params auth st)
      as [->|(inc & -> & Hu & Hs)]; [done|].
    intros Hst.
    eapply (allPaired_insert st); [reflexivity|by right|exact Hst].
  - destruct (closeIncident_effect now params auth st)
      as [Hs [Hi|(iid & inc & _ & Hi)]].
    + split; [by apply allPaired_same|].
      intros Hst iid inc. unfold liveCommand. rewrite Hi, Hs. apply Hst.
    + split.
      * apply (allPaired_insert st _ iid _ Hi). by left.
      * apply (consistent_insert st _ iid _ Hs Hi); [by left|].
        by intros u s.
  - split; [|done].
    destruct (reestablishCommand_effect now params auth st)
      as [_ [Hi|(iid & sid & inc & _ & Hu & Hi)]].
    + by apply allPaired_same.
    + apply (allPaired_insert st _ iid _ Hi). right. simpl. eauto.
  - split; [|done].
    destruct (approveCommandRequest_effect now params auth st)
      as [(_ & Hi & _)|(rid & r & sid & inc & _ & _ & _ & ->)].
    + by apply allPaired_same.
    + destruct (transferred_fields now auth rid r sid inc st)
        as (_ & Hi & _).
      apply (allPaired_insert st _ _ _ Hi), paired_set.
  - split; [|done]. unfold exec.
    rewrite cleanupstalecommandsessions_eq; simpl.
    intros Hst iid inc. rewrite lookup_swept_incidents.
    destruct (decide _).
    + destruct (incidents st !! iid); simpl; [|done].
      intros [= <-]. apply paired_cleared.
    + apply Hst.
  - split; [|done]. apply allPaired_same, cleanupoldsessions_incidents.
Qed.

Lemma C5_commander_fields_paired_witness :
  allPaired (perform (CreateSession "B" 20 Scenario.user1) Scenario.st2).
Proof.
  apply (proj1 (C5_commander_fields_paired
    (CreateSession "B" 20 Scenario.user1) Scenario.st2)).
  intros iid inc. rewrite Scenario_st2_incidents.
  intros [<- <-]%lookup_singleton_Some. right. simpl. eauto.
Defined.


(** ** The scenarios are runs of the handlers *)

(** Every call that builds a scenario store succeeds. *)
Lemma Scenario_trace :
  (createSession "A" 0 Scenario.user1 Scenario.st0).1 = Ok "A"
  ∧ isOk (startNewIncident "I1" "20260101-0000" 10
            (Scenario.withSession "A") Scenario.user1 Scenario.st1).1 = true
  ∧ (createSession "B" 20 Scenario.user1 Scenario.st2).1 = Ok "B".
Proof. by vm_compute. Qed.

Lemma Handoff_trace :
  isOk (requestIncidentCommand "R1" 100 (Scenario.onIncident "I1" "B")
          Scenario.user2 Board.st).1 = true
  ∧ commandRequests Handoff.st1 !! "R1" = Some Handoff.request1
  ∧ (denyCommandRequest 110 (Scenario.onRequest "R1") Scenario.user1
       Handoff.st1).1 = Ok "Request denied.".
Proof. by vm_compute. Qed.

Lemma Crowd_trace :
  (createSession "A" 1 Scenario.user1 Crowd.st0).1 = Ok "A"
  ∧ (createSession "B" 2 Scenario.user2
       (exec (createSession "A" 1 Scenario.user1) Crowd.st0)).1 = Ok "B"
  ∧ (createSession "B2" 3 Scenario.user2
       (exec (createSession "B" 2 Scenario.user2)
          (exec (createSession "A" 1 Scenario.user1) Crowd.st0))).1
    = Ok "B2"
  ∧ (createSession "C" 4 Crowd.user3
       (exec (createSession "B2" 3 Scenario.user2)
          (exec (createSession "B" 2 Scenario.user2)
             (exec (createSession "A" 1 Scenario.user1) Crowd.st0)))).1
    = Ok "C"
  ∧ isOk (startNewIncident "I1" "20260101-0010" 10
            (Scenario.withSession "A") Scenario.user1 Crowd.st1).1 = true
  ∧ isOk (startNewIncident "I2" "20260101-0011" 11
            (Scenario.withSession "B") Scenario.user2
            (exec (startNewIncident "I1" "20260101-0010" 10
                     (Scenario.withSession "A") Scenario.user1)
               Crowd.st1)).1 = true
  ∧ isOk (requestIncidentCommand "R1" 20 (Scenario.onIncident "I1" "B2")
            Scenario.user2 Crowd.st2).1 = true
  ∧ (approveCommandRequest 21 (Scenario.onRequest "R1") Scenario.user1
       (exec (requestIncidentCommand "R1" 20
                (Scenario.onIncident "I1" "B2") Scenario.user2)
          Crowd.st2)).1 = Ok "Command approved."
  ∧ isOk (startNewIncident "I3" "20260101-0030" 30
            (Scenario.withSession "C") Crowd.user3 Crowd.st3).1 = true.
Proof. by vm_compute. Qed.

(** Scenario A of the specification: with the one slot taken and nothing
    stale, a user who commands nothing is refused. *)
Lemma Scenario_A :
  createSession "C" 30 Scenario.user2 Scenario.st3
  = (Err (HttpsError permission_denied noSlotMsg), Scenario.st3).
Proof. by vm_compute. Qed.

(** Scenario D of the specification: three hours after its last
    heartbeat the sweep clears I1 and deletes session A, and a login that
    was refused before is then admitted. *)
Lemma Scenario_D :
  createSession "C" 10800000 Scenario.user2 Scenario.st2
  = (Err (HttpsError permission_denied noSlotMsg), Scenario.st2)
  ∧ incidents (swept 10800000 Scenario.st2) !! "I1"
    = Some (Incident.mk "20260101-0000" None 10 "Active" None "T" None None)
  ∧ sessions (swept 10800000 Scenario.st2) !! "A" = None
  ∧ (createSession "C" 10800000 Scenario.user2
       (swept 10800000 Scenario.st2)).1 = Ok "C".
Proof. by vm_compute. Qed.

(** ** Which operations keep the recorded session live *)

Lemma pairedb_spec inc : pairedb inc = true ↔ paired inc.
Proof.
  unfold pairedb, paired.
  destruct (Incident.commanderUid inc), (Incident.commanderSessionId inc);
    split; try done; eauto.
  - intros [[? ?]|[_ [? ?]]]; done.
  - intros [[? ?]|[[? ?] _]]; done.
Qed.

Lemma liveCommandb_spec st inc :
  liveCommandb st inc = true ↔ liveCommand st inc.
Proof.
  unfold liveCommandb, liveCommand.
  destruct (Incident.commanderUid inc) as [u|],
           (Incident.commanderSessionId inc) as [s|]; try (split; done).
  destruct (sessions st !! s) as [sess|] eqn:Hs.
  - rewrite bool_decide_eq_true. split.
    + intros Hu u' s' [= <-] [= <-]. exists sess. by rewrite Hs.
    + intros H. destruct (H u s eq_refl eq_refl) as (sess' & Hs' & Hu).
      rewrite Hs in Hs'. by simplify_eq.
  - split; [done|]. intros H.
    destruct (H u s eq_refl eq_refl) as (sess' & Hs' & _).
    by rewrite Hs in Hs'.
Qed.

Lemma consistentb_spec st : consistentb st = true ↔ consistent st.
Proof.
  unfold consistentb, consistent. rewrite forallb_forall. split.
  - intros H iid inc Hinc.
    specialize (H (iid, inc)). simpl in H.
    rewrite andb_true_iff, pairedb_spec, liveCommandb_spec in H.
    apply H, list_elem_of_In. by apply elem_of_map_to_list.
  - intros H [iid inc] Hin%list_elem_of_In%elem_of_map_to_list. simpl.
    rewrite andb_true_iff, pairedb_spec, liveCommandb_spec.
    by apply (H iid).
Qed.

(** From a consistent store, each of the other operations can leave an
    incident recording a session that does not exist: [startNewIncident]
    and [reestablishCommand] record the session id they are given,
    [approveCommandRequest] the one the request recorded, the hourly
    sweep deletes a session a closed incident still records, and the
    daily sweep deletes by age alone. *)
Lemma other_operations_leave_dangling_session :
  Forall (λ run : Operation * State,
            consistent run.2 ∧ ¬ consistent (perform run.1 run.2))
    [(StartNewIncident "I1" "20260101-0010" 10 (Scenario.withSession "ZZ")
        Scenario.user1, Crowd.st1);
     (ReestablishCommand 30 (Scenario.onIncident "I1" "ZZ") Scenario.user1,
      Scenario.st2);
     (ApproveRequest 120 (Scenario.onRequest "R1") Scenario.user1,
      Dangling.requestedFromNowhere);
     (HourlySweep 10800000, Dangling.closedStillCommanded);
     (DailySweep 5270400000, Scenario.st2)].
Proof.
  repeat (apply Forall_cons_2;
            [split; simpl; rewrite <- consistentb_spec; by vm_compute|]).
  apply Forall_nil_2.
Qed.

(** * Properties of the rest of the code *)

(** ** Heartbeat *)

Lemma length_whereDocs_update {A} (p : string * A → bool)
    (m : gmap string A) k v v' :
  m !! k = Some v →
  (length (whereDocs p (<[k:=v']> m)) + (if p (k, v) then 1 else 0)
   = length (whereDocs p m) + (if p (k, v') then 1 else 0))%nat.
Proof.
  intros Hk.
  rewrite (length_whereDocs_delete p m k v Hk).
  rewrite <- (insert_delete_eq m).
  rewrite length_whereDocs_insert by apply lookup_delete_eq. lia.
Qed.

Lemma sessionCount_update customerId st k d d' :
  sessions st !! k = Some d →
  Session.customerId d' = Session.customerId d →
  sessionCount customerId (setSessions (insert k d') st)
  = sessionCount customerId st.
Proof.
  intros Hk Hc. unfold sessionCount, sessionsOf; simpl.
  pose proof (length_whereDocs_update
    (λ x : string * Session.t,
       bool_decide (Session.customerId x.2 = customerId))
    (sessions st) k d d' Hk) as H.
  simpl in H. rewrite Hc in H. destruct (bool_decide _); lia.
Qed.

(** What a heartbeat does to the store: nothing, or the refresh of one
    session of the caller. *)
Lemma sessionHeartbeat_effect now params auth st :
  (∃ e, sessionHeartbeat now params auth st = (Err e, st))
  ∨ ∃ sid s,
      truthy (Params.sessionId params) = Some sid
      ∧ sessions st !! sid = Some s
      ∧ Session.uid s = AuthContext.uid auth
      ∧ sessionHeartbeat now params auth st
        = (Ok "Heartbeat received.",
           setSessions (insert sid (heartbeat now s)) st).
Proof.
  unfold sessionHeartbeat. unfoldM.
  destruct (truthy (Params.sessionId params)) as [sid|]; simpl; [|eauto].
  destruct (sessions st !! sid) as [s|] eqn:Hs; simpl; [|eauto].
  case_bool_decide; simpl; [|eauto].
  right. by exists sid, s.
Qed.

(** X1: a heartbeat for a session id that names no session, or a session
    of another user, is answered not-found and writes nothing; and no
    heartbeat, successful or not, changes the number of sessions of any
    tenant, any other session, or any incident. *)
Theorem X1_heartbeat_frame now params auth st :
  (∀ sid,
     truthy (Params.sessionId params) = Some sid →
     Session.uid <$> sessions st !! sid ≠ Some (AuthContext.uid auth) →
     sessionHeartbeat now params auth st
     = (Err (HttpsError not_found noSessionMsg), st))
  ∧ (∀ customerId,
       sessionCount customerId (exec (sessionHeartbeat now params auth) st)
       = sessionCount customerId st)
  ∧ (∀ sid,
       truthy (Params.sessionId params) ≠ Some sid →
       sessions (exec (sessionHeartbeat now params auth) st) !! sid
       = sessions st !! sid)
  ∧ incidents (exec (sessionHeartbeat now params auth) st) = incidents st.
Proof.
  split; [|split; [|split]].
  - intros sid Hsid Hbad. unfold sessionHeartbeat. unfoldM.
    rewrite Hsid; simpl.
    destruct (sessions st !! sid) as [s|]; simpl; [|done].
    rewrite bool_decide_false; [done|]. intros Hu. apply Hbad.
    simpl. by rewrite Hu.
  - intros cid. unfold exec.
    destruct (sessionHeartbeat_effect now params auth st)
      as [[e ->]|(sid & s & _ & Hs & _ & ->)]; [done|].
    simpl. by apply (sessionCount_update cid st sid s).
  - intros sid Hsid. unfold exec.
    destruct (sessionHeartbeat_effect now params auth st)
      as [[e ->]|(sid' & s & Hsid' & Hs & _ & ->)]; [done|].
    simpl. rewrite lookup_insert_ne; [done|]. congruence.
  - unfold exec.
    by destruct (sessionHeartbeat_effect now params auth st)
      as [[e ->]|(sid & s & _ & _ & _ & ->)].
Qed.

Lemma X1_heartbeat_frame_witness :
  sessionHeartbeat 50 (Scenario.withSession "B") Scenario.user1 Board.st
  = (Err (HttpsError not_found noSessionMsg), Board.st).
Proof.
  apply (proj1 (X1_heartbeat_frame 50 (Scenario.withSession "B")
    Scenario.user1 Board.st) "B" eq_refl).
  by vm_compute.
Defined.

Lemma elem_of_olderThan threshold st k s :
  (k, s) ∈ olderThan threshold st
  ↔ sessions st !! k = Some s ∧ Session.lastActive s < threshold.
Proof.
  unfold olderThan. rewrite sortBy_perm, elem_of_whereDocs. simpl.
  by rewrite Z.ltb_lt.
Qed.

(** The daily sweep always completes, deleting the sessions of
    [oldNow]. *)
Lemma cleanupoldsessions_eq now st :
  cleanupoldsessions now st
  = (Ok tt, setSessions (deleteAll (map fst (oldNow now st))) st).
Proof.
  unfold cleanupoldsessions. unfoldM. fold (oldNow now st).
  case_bool_decide as Hnil; simpl.
  - rewrite Hnil. by destruct st.
  - by rewrite <- (map_map fst DeleteSession), commit_deleteSessions.
Qed.

Lemma elem_of_oldNow_keys now st k :
  k ∈ map fst (oldNow now st) →
  ∃ s, sessions st !! k = Some s
       ∧ Session.lastActive s < now - sixtyDaysInMs.
Proof.
  intros ([k' s] & -> & Hin)%list_elem_of_fmap.
  apply (subseteq_take 400), elem_of_olderThan in Hin. by exists s.
Qed.

(** X2: a session that has just sent a heartbeat is safe from both
    sweeps for as long as the heartbeat is fresh: a run of the hourly
    sweep within two hours keeps the session and every incident that
    records it, and a run of the daily sweep within sixty days keeps the
    session. *)
Theorem X2_heartbeat_protects now params auth st r st1 sid :
  sessionHeartbeat now params auth st = (Ok r, st1) →
  truthy (Params.sessionId params) = Some sid →
  ∀ now',
    (now' - twoHoursInMs <= now →
     sessions (exec (cleanupstalecommandsessions now') st1) !! sid
     = sessions st1 !! sid
     ∧ ∀ iid inc,
         incidents st1 !! iid = Some inc →
         Incident.commanderSessionId inc = Some sid →
         incidents (exec (cleanupstalecommandsessions now') st1) !! iid
         = Some inc)
    ∧ (now' - sixtyDaysInMs <= now →
       sessions (exec (cleanupoldsessions now') st1) !! sid
       = sessions st1 !! sid).
Proof.
  intros Hbeat Hsid now'.
  destruct (sessionHeartbeat_effect now params auth st)
    as [[e He]|(sid' & s & Hsid' & Hs & _ & Heq)]; [congruence|].
  rewrite Heq in Hbeat. rewrite Hsid in Hsid'. simplify_eq.
  assert (sessions (setSessions (insert sid' (heartbeat now s)) st) !! sid'
          = Some (heartbeat now s)) as Hnew
    by (simpl; apply lookup_insert_eq).
  split.
  - intros Hfresh. unfold exec.
    rewrite cleanupstalecommandsessions_eq; simpl fst; simpl snd.
    assert (¬ stale now'
              (setSessions (insert sid' (heartbeat now s)) st) sid')
      as Hlive.
    { intros (s' & Hs' & Hlt). rewrite Hnew in Hs'. simplify_eq.
      simpl in Hlt. lia. }
    split.
    + rewrite lookup_swept_sessions.
      destruct (decide _) as [Hin|]; [|done].
      apply elem_of_sessionsToDelete_lockedNow in Hin as [? _]. done.
    + intros iid inc Hinc Hrec. rewrite lookup_swept_incidents.
      destruct (decide _) as [Hin|]; [|done].
      apply elem_of_lockedNow_keys in Hin
        as (inc' & Hinc' & _ & sid & Hheld & Hst).
      rewrite Hinc in Hinc'. injection Hinc' as <-.
      rewrite Hrec in Hheld. injection Hheld as <-. done.
  - intros Hfresh. unfold exec. rewrite cleanupoldsessions_eq. simpl.
    rewrite lookup_deleteAll.
    destruct (decide _) as [Hin|]; [|done].
    apply elem_of_oldNow_keys in Hin as (s' & Hs' & Hlt).
    rewrite Hnew in Hs'. simplify_eq. simpl in Hlt. lia.
Qed.

Lemma X2_heartbeat_protects_witness :
  sessions (exec (cleanupstalecommandsessions 7200050)
              (exec (sessionHeartbeat 50 (Scenario.withSession "A")
                       Scenario.user1) Board.st)) !! "A"
  = sessions (exec (sessionHeartbeat 50 (Scenario.withSession "A")
                      Scenario.user1) Board.st) !! "A".
Proof.
  apply (X2_heartbeat_protects 50 (Scenario.withSession "A") Scenario.user1
    Board.st "Heartbeat received."
    (exec (sessionHeartbeat 50 (Scenario.withSession "A") Scenario.user1)
       Board.st) "A").
  - reflexivity.
  - reflexivity.
  - by vm_compute.
Defined.

(** ** Admission of a login *)

Lemma elem_of_commandingSessionIds customerId st k :
  k ∈ commandingSessionIds customerId st ↔ recordedOnActive customerId st k.
Proof.
  unfold commandingSessionIds, recordedOnActive.
  rewrite list_elem_of_omap. split.
  - intros ([iid inc] & Hin & Hk). simpl in Hk.
    apply elem_of_whereDocs in Hin as [Hinc Hp]. simpl in Hp.
    apply andb_prop in Hp as [Hp _]. apply andb_prop in Hp as [Hc Ha].
    apply bool_decide_eq_true in Hc, Ha. by exists iid, inc.
  - intros (iid & inc & Hinc & Hc & Ha & Hk). exists (iid, inc).
    split; [|done]. apply elem_of_whereDocs. split; [done|]. simpl.
    rewrite Hk. rewrite !andb_true_iff, !bool_decide_eq_true. eauto.
Qed.

(** What the search for the oldest stale session returns: a session of
    the snapshot that is stale and not commanding, no younger than any
    other such session; or nothing when the snapshot has none. *)
Lemma oldestStale_spec commanding threshold l acc :
  match fold_left (oldestStaleStep commanding threshold) l acc with
  | Some o =>
      (acc = Some o
       ∨ ∃ d, d ∈ l ∧ d.1 = o.1 ∧ Session.lastActive d.2 = o.2
              ∧ (d.1 ∉ commanding) ∧ Session.lastActive d.2 < threshold)
      ∧ (∀ d, d ∈ l → d.1 ∉ commanding →
              Session.lastActive d.2 < threshold →
              o.2 <= Session.lastActive d.2)
      ∧ (∀ a, acc = Some a → o.2 <= a.2)
  | None =>
      acc = None
      ∧ ∀ d, d ∈ l → d.1 ∈ commanding ∨ threshold <= Session.lastActive d.2
  end.
Proof.
  revert acc. induction l as [|d l IH]; intros acc; simpl.
  - destruct acc as [o|].
    + split; [by left|]. split; [by intros ? ?%elem_of_nil|].
      intros a [= <-]. lia.
    + split; [done|]. by intros ? ?%elem_of_nil.
  - specialize (IH (oldestStaleStep commanding threshold acc d)).
    destruct (fold_left _ l _) as [o|].
    + destruct IH as (Hfrom & Hmin & Hacc).
      unfold oldestStaleStep in Hfrom, Hacc.
      destruct (decide (d.1 ∈ commanding)) as [Hc|Hc].
      { rewrite (bool_decide_eq_true_2 _ Hc) in Hfrom, Hacc.
        simpl in Hfrom, Hacc. split; [|split; [|done]].
        - destruct Hfrom as [?|(d' & ? & ?)]; [by left|].
          right. exists d'. split; [by right|done].
        - intros d' [->|Hin]%elem_of_cons ? ?; [done|]. by apply Hmin. }
      rewrite (bool_decide_eq_false_2 _ Hc) in Hfrom, Hacc.
      simpl in Hfrom, Hacc.
      destruct (Z.ltb_spec (Session.lastActive d.2) threshold)
        as [Hlt|Hge].
      2:{ split; [|split; [|done]].
          - destruct Hfrom as [?|(d' & ? & ?)]; [by left|].
            right. exists d'. split; [by right|done].
          - intros d' [->|Hin]%elem_of_cons ? ?; [lia|]. by apply Hmin. }
      destruct acc as [a|].
      * destruct (Z.ltb_spec (Session.lastActive d.2) a.2) as [Hold|Hyoung].
        -- specialize (Hacc _ eq_refl). simpl in Hacc.
           split; [|split].
           ++ right.
              destruct Hfrom as [[= <-]|(d' & ? & ?)].
              ** exists d. split; [by left|done].
              ** exists d'. split; [by right|done].
           ++ intros d' [->|Hin]%elem_of_cons ? ?; [lia|]. by apply Hmin.
           ++ intros a' [= <-]. lia.
        -- specialize (Hacc _ eq_refl).
           split; [|split].
           ++ destruct Hfrom as [?|(d' & ? & ?)]; [by left|].
              right. exists d'. split; [by right|done].
           ++ intros d' [->|Hin]%elem_of_cons ? ?; [lia|]. by apply Hmin.
           ++ intros a' [= <-]. lia.
      * specialize (Hacc _ eq_refl). simpl in Hacc.
        split; [|split; [|done]].
        -- right.
           destruct Hfrom as [[= <-]|(d' & ? & ?)].
           ++ exists d. split; [by left|done].
           ++ exists d'. split; [by right|done].
        -- intros d' [->|Hin]%elem_of_cons ? ?; [lia|]. by apply Hmin.
    + destruct IH as (Hnone & Hall).
      unfold oldestStaleStep in Hnone.
      destruct (decide (d.1 ∈ commanding)) as [Hc|Hc].
      { rewrite (bool_decide_eq_true_2 _ Hc) in Hnone. simpl in Hnone.
        split; [done|].
        intros d' [->|Hin]%elem_of_cons; [by left|by apply Hall]. }
      rewrite (bool_decide_eq_false_2 _ Hc) in Hnone. simpl in Hnone.
      destruct (Z.ltb_spec (Session.lastActive d.2) threshold)
        as [Hlt|Hge].
      * destruct acc as [a|]; simpl in Hnone; [|done].
        by destruct (_ <? _) in Hnone.
      * split; [done|].
        intros d' [->|Hin]%elem_of_cons; [by right|by apply Hall].
Qed.

(** The decision tree of [createSession], branch by branch. *)
Lemma createSession_cases newId now auth st :
  let customerId := AuthContext.customerId auth in
  let uid := AuthContext.uid auth in
  let admitted k :=
    (Ok newId,
     setSessions (insert newId (newSession now auth))
       (setSessions (delete k) st)) in
  match customers st !! customerId with
  | None =>
      createSession newId now auth st
      = (Err (HttpsError not_found "Customer not found."), st)
  | Some c =>
      if sessionCount customerId st <? maxTotalSessions c then
        createSession newId now auth st
        = (Ok newId, setSessions (insert newId (newSession now auth)) st)
      else
        match reentryTarget customerId uid st with
        | Some k => createSession newId now auth st = admitted k
        | None =>
            match fold_left
                    (oldestStaleStep (commandingSessionIds customerId st)
                       (now - fifteenMinutesInMs))
                    (sessionsOf customerId st) None with
            | Some o => createSession newId now auth st = admitted o.1
            | None =>
                createSession newId now auth st
                = (Err (HttpsError permission_denied noSlotMsg), st)
            end
        end
  end.
Proof.
  cbv zeta. unfold createSession, reentryTarget, sessionCount, newSession.
  unfoldM.
  destruct (customers st !! _) as [c|]; simpl; [|done].
  destruct (_ <? _); simpl; [done|].
  destruct (head _ ≫= _); simpl; [done|].
  by destruct (fold_left _ _ _).
Qed.

Lemma idle_elem_of customerId now st k s :
  idle customerId now st k s
  ↔ (k, s) ∈ sessionsOf customerId st
    ∧ (k ∉ commandingSessionIds customerId st)
    ∧ Session.lastActive s < now - fifteenMinutesInMs.
Proof.
  unfold idle. rewrite elem_of_sessionsOf, elem_of_commandingSessionIds.
  tauto.
Qed.

(** X3: whom a login evicts.  A successful [createSession] returns the
    new session's id and adds exactly that session.  With an open slot
    nothing else changes.  With the quota full it deletes exactly one
    session id: the one recorded on the caller's first commanded Active
    incident when there is one, and otherwise a session of the tenant
    that has been silent for more than fifteen minutes, is not recorded
    on an Active incident of the tenant, and is no younger than any other
    such session. *)
Theorem X3_createSession_eviction newId now auth st r st' :
  let customerId := AuthContext.customerId auth in
  let uid := AuthContext.uid auth in
  createSession newId now auth st = (Ok r, st') →
  r = newId
  ∧ ∃ c, customers st !! customerId = Some c
    ∧ ((sessionCount customerId st < maxTotalSessions c
        ∧ st' = setSessions (insert newId (newSession now auth)) st)
       ∨ (maxTotalSessions c <= sessionCount customerId st
          ∧ ∃ k,
              st' = setSessions (insert newId (newSession now auth))
                      (setSessions (delete k) st)
              ∧ (reentryTarget customerId uid st = Some k
                 ∨ (reentryTarget customerId uid st = None
                    ∧ ∃ s, idle customerId now st k s
                        ∧ ∀ k' s', idle customerId now st k' s' →
                            Session.lastActive s
                            <= Session.lastActive s')))).
Proof.
  cbv zeta. intros Hcall.
  pose proof (createSession_cases newId now auth st) as Hcases.
  cbv zeta in Hcases.
  destruct (customers st !! _) as [c|]; [|congruence].
  destruct (Z.ltb_spec (sessionCount (AuthContext.customerId auth) st)
              (maxTotalSessions c)) as [Hlt|Hge].
  { rewrite Hcases in Hcall. injection Hcall as <- <-.
    split; [done|]. exists c. split; [done|]. by left. }
  destruct (reentryTarget _ _ st) as [k|].
  { rewrite Hcases in Hcall. injection Hcall as <- <-.
    split; [done|]. exists c. split; [done|]. right. split; [done|].
    exists k. split; [done|]. by left. }
  pose proof (oldestStale_spec
    (commandingSessionIds (AuthContext.customerId auth) st)
    (now - fifteenMinutesInMs)
    (sessionsOf (AuthContext.customerId auth) st) None) as Hspec.
  destruct (fold_left _ _ None) as [o|]; [|congruence].
  rewrite Hcases in Hcall. injection Hcall as <- <-.
  destruct Hspec as ([?|([k s] & Hin & Hk & Hlast & Hfree & Hold)] & Hmin & _);
    [done|].
  simpl in Hk, Hlast, Hfree, Hold.
  split; [done|]. exists c. split; [done|]. right. split; [done|].
  exists o.1. split; [done|]. right. split; [done|].
  exists s. split.
  - apply idle_elem_of. by rewrite <- Hk.
  - intros k' s' (Hin' & Hfree' & Hold')%idle_elem_of.
    rewrite Hlast. by apply (Hmin (k', s')).
Qed.

Lemma X3_createSession_eviction_witness :
  "B" = "B"
  ∧ ∃ c, customers Scenario.st2 !! "T" = Some c
    ∧ ((sessionCount "T" Scenario.st2 < maxTotalSessions c
        ∧ Scenario.st3
          = setSessions (insert "B" (newSession 20 Scenario.user1))
              Scenario.st2)
       ∨ (maxTotalSessions c <= sessionCount "T" Scenario.st2
          ∧ ∃ k,
              Scenario.st3
              = setSessions (insert "B" (newSession 20 Scenario.user1))
                  (setSessions (delete k) Scenario.st2)
              ∧ (reentryTarget "T" "user1" Scenario.st2 = Some k
                 ∨ (reentryTarget "T" "user1" Scenario.st2 = None
                    ∧ ∃ s, idle "T" 20 Scenario.st2 k s
                        ∧ ∀ k' s', idle "T" 20 Scenario.st2 k' s' →
                            Session.lastActive s
                            <= Session.lastActive s')))).
Proof.
  apply (X3_createSession_eviction "B" 20 Scenario.user1 Scenario.st2 "B"
           Scenario.st3).
  by vm_compute.
Defined.



(** ** Logout *)

Lemma endSession_effect params auth st :
  (truthy (Params.sessionId params) = None
   ∧ endSession params auth st
     = (Err (HttpsError invalid_argument "A sessionId is required."), st))
  ∨ ∃ sid, truthy (Params.sessionId params) = Some sid
      ∧ ((∃ s, sessions st !! sid = Some s
               ∧ Session.uid s = AuthContext.uid auth
               ∧ endSession params auth st
                 = (Ok "Session ended successfully.",
                    setSessions (delete sid) st))
         ∨ ((∀ s, sessions st !! sid = Some s →
                  Session.uid s ≠ AuthContext.uid auth)
            ∧ endSession params auth st
              = (Ok "Session not found or access denied.", st))).
Proof.
  unfold endSession. unfoldM.
  destruct (truthy (Params.sessionId params)) as [sid|]; simpl;
    [right; exists sid; split; [done|]|by left].
  destruct (sessions st !! sid) as [s|] eqn:Hs; simpl.
  - case_bool_decide as Hown; simpl.
    + left. by exists s.
    + right. split; [|done]. by intros s' [= <-].
  - right. by split.
Qed.

(** X5: logout is owner-only and idempotent.  Given a session id,
    [endSession] never fails; it leaves every other session and every
    other collection alone, leaves the whole store alone when the session
    is missing or belongs to another user, removes the caller's own
    session, and has nothing left to do when called again. *)
Theorem X5_endSession_owner_only params auth st sid :
  truthy (Params.sessionId params) = Some sid →
  let st' := exec (endSession params auth) st in
  (∃ r, endSession params auth st = (Ok r, st'))
  ∧ (∀ k, k ≠ sid → sessions st' !! k = sessions st !! k)
  ∧ setSessions (λ _, sessions st) st' = st
  ∧ (∀ s, sessions st !! sid = Some s →
          Session.uid s ≠ AuthContext.uid auth → st' = st)
  ∧ (∀ s, sessions st !! sid = Some s →
          Session.uid s = AuthContext.uid auth →
          sessions st' !! sid = None)
  ∧ exec (endSession params auth) st' = st'.
Proof.
  intros Hsid st'.
  destruct (endSession_effect params auth st)
    as [[Hno _]|(sid' & Hsid' & Hcase)]; [congruence|].
  rewrite Hsid in Hsid'. injection Hsid' as <-.
  assert (∀ st0, sessions st0 !! sid = None →
                 exec (endSession params auth) st0 = st0) as Hgone.
  { intros st0 Hnone.
    destruct (endSession_effect params auth st0)
      as [[Hno _]|(sid' & Hsid' & [(s & Hs & _)|[_ Heq]])];
      [congruence| |].
    - rewrite Hsid in Hsid'. injection Hsid' as <-. congruence.
    - unfold exec. by rewrite Heq. }
  destruct Hcase as [(s & Hs & Hown & Heq)|[Hforeign Heq]].
  - assert (st' = setSessions (delete sid) st) as ->
      by (unfold st', exec; by rewrite Heq).
    split; [by eexists|]. split; [|split; [|split; [|split]]].
    + intros k Hk. simpl. by apply lookup_delete_ne.
    + by destruct st.
    + intros s' Hs' Hne. rewrite Hs in Hs'. by injection Hs' as <-.
    + intros _ _ _. simpl. apply lookup_delete_eq.
    + apply Hgone. simpl. apply lookup_delete_eq.
  - assert (st' = st) as -> by (unfold st', exec; by rewrite Heq).
    split; [by eexists|]. split; [done|]. split; [by destruct st|].
    split; [done|]. split.
    + intros s Hs Hown. by destruct (Hforeign s Hs).
    + unfold exec. by rewrite Heq.
Qed.

Lemma X5_endSession_owner_only_witness :
  exec (endSession (Scenario.withSession "A") Scenario.user2) Board.st
  = Board.st.
Proof.
  destruct (X5_endSession_owner_only (Scenario.withSession "A")
              Scenario.user2 Board.st "A" eq_refl)
    as (_ & _ & _ & Hforeign & _).
  apply (Hforeign Board.sessionA).
  - reflexivity.
  - by vm_compute.
Defined.

(** X6: login and logout are inverse.  A login that finds an open slot,
    followed by the logout of the session it returned, gives back the
    store as it was. *)
Theorem X6_login_logout_round_trip newId now params auth st c :
  customers st !! AuthContext.customerId auth = Some c →
  sessionCount (AuthContext.customerId auth) st < maxTotalSessions c →
  sessions st !! newId = None →
  newId ≠ "" →
  Params.sessionId params = Some newId →
  createSession newId now auth st
  = (Ok newId, exec (createSession newId now auth) st)
  ∧ endSession params auth (exec (createSession newId now auth) st)
    = (Ok "Session ended successfully.", st).
Proof.
  intros Hc Hlt Hfresh Hne Hparam.
  pose proof (createSession_cases newId now auth st) as Hcases.
  cbv zeta in Hcases. rewrite Hc in Hcases.
  apply Z.ltb_lt in Hlt. rewrite Hlt in Hcases.
  unfold exec at 1 2. rewrite Hcases. simpl. split; [done|].
  destruct (endSession_effect params auth
              (setSessions (insert newId (newSession now auth)) st))
    as [[Hno _]|(sid & Hsid & Hcase)].
  { rewrite Hparam in Hno. simpl in Hno.
    by rewrite (bool_decide_eq_false_2 _ Hne) in Hno. }
  rewrite Hparam in Hsid. simpl in Hsid.
  rewrite (bool_decide_eq_false_2 _ Hne) in Hsid. injection Hsid as <-.
  destruct Hcase as [(s & _ & _ & ->)|[Hforeign _]].
  - f_equal. destruct st; unfold setSessions; simpl in *.
    by rewrite delete_insert_id.
  - destruct (Hforeign (newSession now auth)); [|done].
    simpl. apply lookup_insert_eq.
Qed.

Lemma X6_login_logout_round_trip_witness :
  createSession "C" 50 Crowd.user3 Board.st
  = (Ok "C", exec (createSession "C" 50 Crowd.user3) Board.st)
  ∧ endSession (Scenario.withSession "C") Crowd.user3
      (exec (createSession "C" 50 Crowd.user3) Board.st)
    = (Ok "Session ended successfully.", Board.st).
Proof.
  apply (X6_login_logout_round_trip "C" 50 (Scenario.withSession "C")
           Crowd.user3 Board.st Board.tenant).
  - reflexivity.
  - by vm_compute.
  - reflexivity.
  - done.
  - reflexivity.
Defined.

(** ** Status of a device *)

Lemma elem_of_commandingQuery customerId uid st d :
  head (commandingQuery customerId uid st) = Some d →
  incidents st !! d.1 = Some d.2 ∧ commandedBy customerId uid d.2.
Proof.
  unfold commandingQuery. rewrite head_take_1. intros Hhead.
  destruct d as [k v].
  assert ((k, v) ∈ whereDocs (λ d,
    bool_decide (Incident.customerId d.2 = customerId)
    && bool_decide (Incident.commanderUid d.2 = Some uid)) (incidents st))
    as Hin.
  { destruct (whereDocs _ _) as [|d l]; [done|].
    injection Hhead as ->. left. }
  apply elem_of_whereDocs in Hin as [Hk Hp]. simpl in Hp.
  apply andb_prop in Hp as [Hc Hu]. apply bool_decide_eq_true in Hc, Hu.
  by split.
Qed.

Lemma commandingQuery_None customerId uid st :
  head (commandingQuery customerId uid st) = None →
  ∀ iid inc, incidents st !! iid = Some inc →
             ¬ commandedBy customerId uid inc.
Proof.
  unfold commandingQuery. rewrite head_take_1. intros Hhead iid inc Hinc.
  intros [Hc Hu].
  assert ((iid, inc) ∈ whereDocs (λ d,
    bool_decide (Incident.customerId d.2 = customerId)
    && bool_decide (Incident.commanderUid d.2 = Some uid)) (incidents st))
    as Hin.
  { apply elem_of_whereDocs. split; [done|]. simpl.
    by rewrite !bool_decide_eq_true_2. }
  destruct (whereDocs _ _); [by apply elem_of_nil in Hin|done].
Qed.

(** The only answers of [checkSessionStatus]. *)
Lemma checkSessionStatus_cases params auth st :
  match head (commandingQuery (AuthContext.customerId auth)
                (AuthContext.uid auth) st) with
  | None => checkSessionStatus params auth st = (Ok StatusOk, st)
  | Some d =>
      if bool_decide (Params.sessionId params
                      = Incident.commanderSessionId d.2)
      then checkSessionStatus params auth st = (Ok StatusOk, st)
      else checkSessionStatus params auth st
           = (Ok (elsewhere (AuthContext.planLevel auth)), st)
  end.
Proof.
  unfold checkSessionStatus, elsewhere. unfoldM.
  destruct (head _) as [d|]; simpl; [|done].
  destruct (bool_decide (Params.sessionId params = _)); simpl.
  - by rewrite !andb_false_r.
  - rewrite !andb_true_r.
    by repeat (destruct (bool_decide (AuthContext.planLevel auth = _));
               simpl).
Qed.

(** X7: what a status check can answer.  [checkSessionStatus] never
    fails and writes nothing.  It warns a device only when some incident
    of the tenant records the caller as commander on a different session,
    with locked_out only for the Basic plan and view_only_recommended
    only for the Pro plan; a caller whose commanded incidents all record
    the calling session, or who commands nothing, is answered ok. *)
Theorem X7_status_sound params auth st sid :
  Params.sessionId params = Some sid →
  ∃ r,
    checkSessionStatus params auth st = (Ok r, st)
    ∧ (r = StatusOk
       ∨ (r = LockedOut lockedOutMsg ∧ AuthContext.planLevel auth = "Basic")
       ∨ (r = ViewOnlyRecommended viewOnlyMsg
          ∧ AuthContext.planLevel auth = "Pro"))
    ∧ (r ≠ StatusOk →
       ∃ iid inc,
         incidents st !! iid = Some inc
         ∧ commandedBy (AuthContext.customerId auth) (AuthContext.uid auth)
             inc
         ∧ Incident.commanderSessionId inc ≠ Some sid)
    ∧ ((∀ iid inc,
          incidents st !! iid = Some inc →
          commandedBy (AuthContext.customerId auth) (AuthContext.uid auth)
            inc →
          Incident.commanderSessionId inc = Some sid) →
       r = StatusOk).
Proof.
  intros Hsid.
  pose proof (checkSessionStatus_cases params auth st) as Hcases.
  destruct (head _) as [d|] eqn:Hhead.
  2:{ exists StatusOk. split; [done|]. split; [by left|]. by split. }
  apply elem_of_commandingQuery in Hhead as [Hd Hcmd].
  rewrite Hsid in Hcases. case_bool_decide as Hsame.
  { exists StatusOk. split; [done|]. split; [by left|]. by split. }
  exists (elsewhere (AuthContext.planLevel auth)). split; [done|].
  split; [|split].
  - unfold elsewhere. case_bool_decide; [right; left; by split|].
    case_bool_decide; [right; right; by split|by left].
  - intros _. exists d.1, d.2. split; [done|]. split; [done|].
    congruence.
  - intros Hall. destruct Hsame. symmetry. by apply (Hall d.1).
Qed.

Lemma X7_status_sound_witness :
  ∃ r,
    checkSessionStatus (Scenario.withSession "B") Scenario.user1
      Scenario.st3 = (Ok r, Scenario.st3)
    ∧ (r = StatusOk
       ∨ (r = LockedOut lockedOutMsg
          ∧ AuthContext.planLevel Scenario.user1 = "Basic")
       ∨ (r = ViewOnlyRecommended viewOnlyMsg
          ∧ AuthContext.planLevel Scenario.user1 = "Pro"))
    ∧ (r ≠ StatusOk →
       ∃ iid inc,
         incidents Scenario.st3 !! iid = Some inc
         ∧ commandedBy "T" "user1" inc
         ∧ Incident.commanderSessionId inc ≠ Some "B")
    ∧ ((∀ iid inc,
          incidents Scenario.st3 !! iid = Some inc →
          commandedBy "T" "user1" inc →
          Incident.commanderSessionId inc = Some "B") →
       r = StatusOk).
Proof.
  apply (X7_status_sound (Scenario.withSession "B") Scenario.user1
           Scenario.st3 "B").
  reflexivity.
Defined.

Lemma reestablishCommand_granted now params auth st iid sid inc :
  truthy (Params.incidentId params) = Some iid →
  truthy (Params.sessionId params) = Some sid →
  incidents st !! iid = Some inc →
  Incident.commanderUid inc = Some (AuthContext.uid auth) →
  reestablishCommand now params auth st
  = (Ok "command_reestablished",
     setIncidents
       (insert iid (Incident.setCommanderSessionId (Some sid) inc))
       (logged (reestablishEntry now auth iid sid) st)).
Proof.
  intros Hiid Hsid Hinc Hcmd.
  unfold reestablishCommand. unfoldM. rewrite Hiid, Hsid, Hinc. simpl.
  rewrite bool_decide_true by done; simpl.
  rewrite logIncidentAction_eq.
  destruct (logged_fields (reestablishEntry now auth iid sid) st)
    as (_ & _ & Hi & _).
  by rewrite Hi, Hinc.
Qed.

Lemma truthy_Some (s : string) : s ≠ "" → truthy (Some s) = Some s.
Proof. intros Hne. simpl. by rewrite bool_decide_eq_false_2. Qed.

(** The first incident of the query, when the caller commands one
    incident only. *)
Lemma commandingQuery_unique customerId uid st iid inc :
  incidents st !! iid = Some inc →
  commandedBy customerId uid inc →
  (∀ j d, incidents st !! j = Some d → commandedBy customerId uid d →
          j = iid) →
  head (commandingQuery customerId uid st) = Some (iid, inc).
Proof.
  intros Hinc [Hc Hu] Honly. unfold commandingQuery. rewrite head_take_1.
  apply head_whereDocs; [done| |].
  - simpl. by rewrite !bool_decide_eq_true_2.
  - intros j d Hj Hp. simpl in Hp.
    apply andb_prop in Hp as [Hc' Hu']. apply bool_decide_eq_true in Hc', Hu'.
    rewrite (Honly j d Hj (conj Hc' Hu')).
    apply Is_true_true. by apply (reflexivity (R := String.le)).
Qed.

(** X8: a device admitted while the caller's command is recorded on
    another session is warned until it re-establishes command.  When the
    caller commands one incident, recorded on a session other than the
    new one, the status check of the new device answers locked_out for
    the Basic plan and view_only_recommended for the Pro plan;
    [reestablishCommand] from the new device then succeeds, and the
    status check answers ok. *)
Theorem X8_reentry_warned_until_reestablished
    newId now now' params auth st r st1 iid inc :
  incidents st !! iid = Some inc →
  commandedBy (AuthContext.customerId auth) (AuthContext.uid auth) inc →
  Incident.commanderSessionId inc ≠ Some newId →
  (∀ j d, incidents st !! j = Some d →
          commandedBy (AuthContext.customerId auth) (AuthContext.uid auth)
            d → j = iid) →
  createSession newId now auth st = (Ok r, st1) →
  Params.sessionId params = Some newId →
  Params.incidentId params = Some iid →
  newId ≠ "" → iid ≠ "" →
  checkSessionStatus params auth st1
  = (Ok (elsewhere (AuthContext.planLevel auth)), st1)
  ∧ ∃ st2,
      reestablishCommand now' params auth st1
      = (Ok "command_reestablished", st2)
      ∧ sessions st2 = sessions st1
      ∧ checkSessionStatus params auth st2 = (Ok StatusOk, st2).
Proof.
  intros Hinc Hcmd Hother Honly Hlogin Hsid Hiid Hne Hne'.
  assert (incidents st1 = incidents st) as Hsame.
  { pose proof (createSession_incidents newId now auth st) as Hi.
    unfold exec in Hi. by rewrite Hlogin in Hi. }
  rewrite <- Hsame in Hinc, Honly.
  split.
  - pose proof (checkSessionStatus_cases params auth st1) as Hcases.
    rewrite (commandingQuery_unique _ _ st1 iid inc Hinc Hcmd Honly)
      in Hcases.
    simpl in Hcases. rewrite Hsid in Hcases.
    by rewrite bool_decide_eq_false_2 in Hcases by congruence.
  - eexists. split; [|split].
    + apply (reestablishCommand_granted now' params auth st1 iid newId inc);
        [rewrite Hiid; by apply truthy_Some
        |rewrite Hsid; by apply truthy_Some|done|by destruct Hcmd].
    + simpl. by destruct (logged_fields
        (reestablishEntry now' auth iid newId) st1) as (_ & -> & _).
    + match goal with |- checkSessionStatus _ _ ?s = _ =>
        pose proof (checkSessionStatus_cases params auth s) as Hcases;
        set (st2 := s) in * end.
      destruct (logged_fields (reestablishEntry now' auth iid newId) st1)
        as (_ & _ & Hi & _).
      assert (incidents st2
              = <[iid := Incident.setCommanderSessionId (Some newId) inc]>
                  (incidents st1)) as Hst2
        by (subst st2; simpl; by rewrite Hi).
      rewrite (commandingQuery_unique _ _ st2 iid
                 (Incident.setCommanderSessionId (Some newId) inc))
        in Hcases.
      * simpl in Hcases. rewrite Hsid in Hcases.
        by rewrite bool_decide_eq_true_2 in Hcases.
      * rewrite Hst2. apply lookup_insert_eq.
      * by destruct Hcmd.
      * intros j d. rewrite Hst2. intros Hj Hd.
        destruct (decide (j = iid)) as [->|Hji]; [done|].
        rewrite lookup_insert_ne in Hj by done. by apply (Honly j d).
Qed.

Lemma X8_reentry_warned_until_reestablished_witness :
  checkSessionStatus (Scenario.onIncident "I1" "B") Scenario.user1
    Scenario.st3
  = (Ok (elsewhere "Basic"), Scenario.st3)
  ∧ ∃ st2,
      reestablishCommand 30 (Scenario.onIncident "I1" "B") Scenario.user1
        Scenario.st3
      = (Ok "command_reestablished", st2)
      ∧ sessions st2 = sessions Scenario.st3
      ∧ checkSessionStatus (Scenario.onIncident "I1" "B") Scenario.user1 st2
        = (Ok StatusOk, st2).
Proof.
  apply (X8_reentry_warned_until_reestablished "B" 20 30
           (Scenario.onIncident "I1" "B") Scenario.user1 Scenario.st2 "B"
           Scenario.st3 "I1"
           (Incident.mk "20260101-0000" None 10 "Active" None "T"
              (Some "user1") (Some "A"))).
  - by vm_compute.
  - by split.
  - done.
  - intros j d Hj _. rewrite Scenario_st2_incidents in Hj.
    by apply lookup_singleton_Some in Hj as [-> _].
  - by vm_compute.
  - reflexivity.
  - reflexivity.
  - done.
  - done.
Defined.

(** ** Command licenses *)

Lemma commandingCount_update customerId st st' k v v' :
  incidents st !! k = Some v →
  incidents st' = <[k := v']> (incidents st) →
  commandingCount customerId st'
  + (if holdsLicense customerId v then 1 else 0)
  = commandingCount customerId st
    + (if holdsLicense customerId v' then 1 else 0).
Proof.
  intros Hk Heq. unfold commandingCount, commandingIncidentsQuery.
  rewrite Heq.
  pose proof (length_whereDocs_update
    (λ d : string * Incident.t,
       bool_decide (Incident.customerId d.2 = customerId)
       && bool_decide (Incident.status d.2 = "Active")
       && bool_decide (is_Some (Incident.commanderUid d.2)))
    (incidents st) k v v' Hk) as H.
  simpl in H. unfold holdsLicense.
  destruct (_ && _), (_ && _); lia.
Qed.

Lemma commandingCount_insert customerId st st' k v' :
  incidents st !! k = None →
  incidents st' = <[k := v']> (incidents st) →
  commandingCount customerId st'
  = (if holdsLicense customerId v' then 1 else 0)
    + commandingCount customerId st.
Proof.
  intros Hk Heq. unfold commandingCount, commandingIncidentsQuery.
  rewrite Heq, length_whereDocs_insert by done. simpl.
  unfold holdsLicense. destruct (_ && _); lia.
Qed.

Lemma commandingCount_same customerId st st' :
  incidents st' = incidents st →
  commandingCount customerId st' = commandingCount customerId st.
Proof.
  intros Heq. unfold commandingCount, commandingIncidentsQuery.
  by rewrite Heq.
Qed.

(** Clearing the commander of some incidents frees licenses. *)
Lemma commandingCount_alterAll customerId ks st st' :
  incidents st'
  = alterAll (Incident.setCommand None None) ks (incidents st) →
  commandingCount customerId st' <= commandingCount customerId st.
Proof.
  revert st st'. induction ks as [|k ks IH]; intros st st' Heq.
  - simpl in Heq. by rewrite (commandingCount_same _ st st').
  - change (alterAll (Incident.setCommand None None) (k :: ks) (incidents st))
      with (alterAll (Incident.setCommand None None) ks
              (alter (Incident.setCommand None None) k (incidents st)))
      in Heq.
    specialize (IH
      (setIncidents (alter (Incident.setCommand None None) k) st) st' Heq).
    etrans; [exact IH|].
    destruct (incidents st !! k) as [v|] eqn:Hk.
    + assert (alter (Incident.setCommand None None) k (incidents st)
              = <[k := Incident.setCommand None None v]> (incidents st))
        as Halter.
      { apply map_eq. intros j.
        destruct (decide (j = k)) as [->|Hne].
        - by rewrite lookup_alter_eq, lookup_insert_eq, Hk.
        - by rewrite lookup_alter_ne, lookup_insert_ne. }
      pose proof (commandingCount_update customerId st
        (setIncidents (alter (Incident.setCommand None None) k) st) k v
        (Incident.setCommand None None v) Hk Halter) as H.
      assert (holdsLicense customerId (Incident.setCommand None None v)
              = false) as Hfree.
      { unfold holdsLicense. apply andb_false_intro2.
        apply bool_decide_eq_false_2. by intros [? ?]. }
      rewrite Hfree in H.
      destruct (holdsLicense customerId v); lia.
    + rewrite (commandingCount_same customerId st); [done|]. simpl.
      apply map_eq. intros j.
      destruct (decide (j = k)) as [->|Hne].
      * by rewrite lookup_alter_eq, Hk.
      * by rewrite lookup_alter_ne.
Qed.

Lemma commit_customers ws st st' :
  commit ws st = Some st' → customers st' = customers st.
Proof.
  revert st. induction ws as [|w ws IH]; intros st; simpl.
  - by intros [= ->].
  - destruct (applyWrite w st) as [st1|] eqn:Hw; simpl; [|done].
    intros Hc. rewrite (IH _ Hc).
    destruct w; simpl in Hw;
      repeat match goal with
      | H : (?o ≫= _) = Some _ |- _ => destruct o; simpl in H
      end; by simplify_eq.
Qed.

(** No operation writes the customers collection. *)
Lemma perform_customers op st : customers (perform op st) = customers st.
Proof.
  destruct op; simpl.
  - pose proof (createSession_cases newId now auth st) as H.
    cbv zeta in H. unfold exec.
    destruct (customers st !! _); [|by rewrite H].
    destruct (_ <? _); [by rewrite H|].
    destruct (reentryTarget _ _ _); [by rewrite H|].
    destruct (fold_left _ _ _); by rewrite H.
  - unfold exec.
    destruct (takeIncidentCommand params auth st) as [[r|e] st'] eqn:Hcall;
      simpl.
    + by apply takeIncidentCommand_Ok in Hcall
        as (? & ? & ? & ? & _ & _ & _ & _ & _ & _ & _ & ->).
    + by apply takeIncidentCommand_Err in Hcall as ->.
  - destruct (startNewIncident_effect newId defaultNumber now params auth st)
      as [->|(inc & -> & _)]; done.
  - unfold closeIncident, getAndVerifyDoc. unfoldM.
    destruct (truthy (Params.incidentId params)) as [iid|]; simpl; [|done].
    destruct (incidents st !! iid) as [inc|] eqn:Hinc; simpl; [|done].
    case_bool_decide; simpl; [|done].
    case_bool_decide; simpl; [|done].
    case_bool_decide; simpl.
    + by rewrite Hinc.
    + destruct (commit _ st) as [st'|] eqn:Hcommit; simpl; [|done].
      by apply commit_customers in Hcommit.
  - unfold reestablishCommand. unfoldM.
    destruct (truthy (Params.incidentId params)) as [iid|]; [|done].
    destruct (truthy (Params.sessionId params)) as [sid|]; [|done].
    destruct (incidents st !! iid) as [inc|] eqn:Hinc; simpl; [|done].
    case_bool_decide; simpl; [|done].
    rewrite logIncidentAction_eq.
    destruct (logged_fields (reestablishEntry now auth iid sid) st)
      as (Hc & _ & Hi & _).
    rewrite Hi, Hinc. by simpl.
  - unfold approveCommandRequest. unfoldM.
    destruct (truthy (Params.requestId params)) as [rid|]; simpl; [|done].
    destruct (commandRequests st !! rid) as [req|] eqn:Hreq; simpl; [|done].
    case_bool_decide; simpl; [|done].
    destruct (truthy (CommandRequest.requesterSessionId req)); simpl;
      [|done].
    case_bool_decide; simpl; [done|].
    rewrite logIncidentAction_eq.
    destruct (logged_fields (approvalEntry now auth req) st)
      as (Hc & _ & _ & Hr).
    destruct (incidents (logged _ st) !! _) as [inc|]; simpl; [|done].
    rewrite Hr, Hreq. by simpl.
  - unfold exec. by rewrite cleanupstalecommandsessions_eq.
  - unfold exec. by rewrite cleanupoldsessions_eq.
Qed.

(** A grant of [takeIncidentCommand] passed the license gate. *)
Lemma takeIncidentCommand_licensed params auth st :
  exec (takeIncidentCommand params auth) st = st
  ∨ ∃ incidentId sessionId inc c,
      incidents st !! incidentId = Some inc
      ∧ Incident.customerId inc = AuthContext.customerId auth
      ∧ customers st !! AuthContext.customerId auth = Some c
      ∧ (commandingCount (AuthContext.customerId auth) st
         < maxCommandLicenses c
         ∨ Incident.commanderUid inc = Some (AuthContext.uid auth))
      ∧ exec (takeIncidentCommand params auth) st
        = grantCommand incidentId (AuthContext.uid auth) sessionId inc st.
Proof.
  unfold takeIncidentCommand, commandingCount. unfoldM.
  destruct (truthy (Params.incidentId params)) as [iid|]; [|by left].
  destruct (truthy (Params.sessionId params)) as [sid|]; [|by left].
  simpl. case_bool_decide as Hs; simpl; [|by left].
  destruct (customers st !! _) as [c|]; simpl; [|by left].
  destruct (incidents st !! iid) as [inc|] eqn:Hinc; simpl; [|by left].
  case_bool_decide as Htenant; simpl; [|by left].
  destruct (Z.leb_spec (maxCommandLicenses c)
              (Z.of_nat (length (commandingIncidentsQuery
                                   (AuthContext.customerId auth) st))))
    as [Hfull|Hfree]; simpl.
  - case_bool_decide as Hcmd; simpl; [|by left].
    case_bool_decide; simpl; [|by left].
    rewrite Hinc; simpl. right. exists iid, sid, inc, c. eauto 10.
  - case_bool_decide; simpl; [|by left].
    rewrite Hinc; simpl. right. exists iid, sid, inc, c. eauto 10.
Qed.

(** A new incident passed the license gate. *)
Lemma startNewIncident_licensed newId defaultNumber now params auth st :
  let st' := exec (startNewIncident newId defaultNumber now params auth) st in
  st' = st
  ∨ ∃ inc c,
      customers st !! AuthContext.customerId auth = Some c
      ∧ commandingCount (AuthContext.customerId auth) st
        < maxCommandLicenses c
      ∧ Incident.customerId inc = AuthContext.customerId auth
      ∧ st' = setIncidents (insert newId inc) st.
Proof.
  cbv zeta. unfold startNewIncident, commandingCount. unfoldM.
  destruct (truthy (Params.sessionId params)) as [sid|]; simpl; [|by left].
  destruct (customers st !! _) as [c|]; simpl; [|by left].
  destruct (Z.leb_spec (maxCommandLicenses c)
              (Z.of_nat (length (commandingIncidentsQuery
                                   (AuthContext.customerId auth) st))))
    as [Hfull|Hfree]; simpl; [by left|].
  case_bool_decide; simpl; [|by left].
  right. eexists _, c. by repeat split.
Qed.

Lemma holdsLicense_customer customerId inc :
  holdsLicense customerId inc = true → Incident.customerId inc = customerId.
Proof.
  unfold holdsLicense. intros [[H _]%andb_prop _]%andb_prop.
  by apply bool_decide_eq_true in H.
Qed.

(** A write of the commander fields changes the license only through the
    commander. *)
Lemma holdsLicense_setCommand customerId u s inc :
  holdsLicense customerId inc = true →
  holdsLicense customerId (Incident.setCommand (Some u) (Some s) inc) = true.
Proof.
  unfold holdsLicense. simpl.
  by intros [-> _]%andb_prop.
Qed.

(** An approval writes the commander fields of the request's incident,
    or leaves the incidents alone. *)
Lemma approveCommandRequest_incidents now params auth st :
  incidents (exec (approveCommandRequest now params auth) st) = incidents st
  ∨ ∃ requestId req sessionId inc,
      truthy (Params.requestId params) = Some requestId
      ∧ commandRequests st !! requestId = Some req
      ∧ incidents st !! CommandRequest.incidentId req = Some inc
      ∧ incidents (exec (approveCommandRequest now params auth) st)
        = <[CommandRequest.incidentId req :=
              Incident.setCommand (Some (CommandRequest.requesterUid req))
                (Some sessionId) inc]> (incidents st).
Proof.
  unfold approveCommandRequest. unfoldM.
  destruct (truthy (Params.requestId params)) as [rid|]; simpl; [|by left].
  destruct (commandRequests st !! rid) as [req|] eqn:Hreq; simpl;
    [|by left].
  case_bool_decide; simpl; [|by left].
  destruct (truthy (CommandRequest.requesterSessionId req)) as [sid|]; simpl;
    [|by left].
  case_bool_decide; simpl; [by left|].
  rewrite logIncidentAction_eq.
  destruct (logged_fields (approvalEntry now auth req) st)
    as (_ & _ & Hi & Hr).
  rewrite Hi.
  destruct (incidents st !! _) as [inc|] eqn:Hinc; simpl; [|by left].
  rewrite Hr, Hreq. simpl. rewrite Hi.
  right. by exists rid, req, sid, inc.
Qed.

(** X9: the license count is an invariant.  A tenant that has no more
    commanded Active incidents than command licenses still has no more
    after any login, take, start, close, re-establish or sweep, and
    after an approval that hands over an incident which still has a
    commander; a new incident is assumed to get a fresh id. *)
Theorem X9_licenses_kept customerId op st :
  keepsLicenses op st →
  withinLicenses customerId st →
  withinLicenses customerId (perform op st).
Proof.
  intros Hop Hst c. rewrite perform_customers. intros Hc.
  specialize (Hst c Hc).
  destruct op; simpl in *.
  - by rewrite (commandingCount_same _ st)
      by apply createSession_incidents.
  - destruct (takeIncidentCommand_licensed params auth st)
      as [->|(iid & sid & inc & c' & Hinc & Htenant & Hc' & Hgate & ->)];
      [done|].
    pose proof (commandingCount_update customerId st
      (grantCommand iid (AuthContext.uid auth) sid inc st) iid inc _
      Hinc eq_refl) as Hcount.
    destruct (holdsLicense customerId (Incident.setCommand _ _ inc))
      eqn:Hnew; [|destruct (holdsLicense customerId inc); lia].
    apply holdsLicense_customer in Hnew as Hcid. simpl in Hcid.
    rewrite <- Htenant, Hcid, Hc in Hc'. injection Hc' as <-.
    rewrite <- Htenant, Hcid in Hgate.
    destruct Hgate as [Hfree|Hcmd].
    + destruct (holdsLicense customerId inc); lia.
    + assert (holdsLicense customerId inc = true) as Hold;
        [|rewrite Hold in Hcount; lia].
      unfold holdsLicense in *. simpl in Hnew.
      apply andb_prop in Hnew as [-> _]. simpl.
      rewrite Hcmd. apply bool_decide_eq_true_2. eauto.
  - destruct (startNewIncident_licensed newId defaultNumber now params auth
                st) as [->|(inc & c' & Hc' & Hfree & Htenant & ->)];
      [done|].
    rewrite (commandingCount_insert customerId st
               (setIncidents (insert newId inc) st) newId inc Hop eq_refl).
    destruct (holdsLicense customerId inc) eqn:Hnew; [|lia].
    apply holdsLicense_customer in Hnew.
    rewrite <- Htenant, Hnew in Hc', Hfree. rewrite Hc in Hc'.
    injection Hc' as <-. lia.
  - destruct (closeIncident_effect now params auth st)
      as [_ [Hsame|(iid & inc & Hinc & Hclosed)]].
    + by rewrite (commandingCount_same _ st).
    + pose proof (commandingCount_update customerId st _ iid inc _
        Hinc Hclosed) as Hcount.
      assert (holdsLicense customerId (Incident.close now inc) = false)
        as Hfree by (unfold holdsLicense; simpl; apply andb_false_r).
      rewrite Hfree in Hcount.
      destruct (holdsLicense customerId inc); lia.
  - destruct (reestablishCommand_effect now params auth st)
      as [_ [Hsame|(iid & sid & inc & Hinc & _ & Hset)]].
    + by rewrite (commandingCount_same _ st).
    + pose proof (commandingCount_update customerId st _ iid inc _
        Hinc Hset) as Hcount.
      change (holdsLicense customerId
                (Incident.setCommanderSessionId (Some sid) inc))
        with (holdsLicense customerId inc) in Hcount. lia.
  - destruct (approveCommandRequest_incidents now params auth st)
      as [Hsame|(rid & req & sid & inc & Hrid & Hreq & Hinc & Hset)].
    + by rewrite (commandingCount_same _ st).
    + pose proof (commandingCount_update customerId st _ _ inc _
        Hinc Hset) as Hcount.
      destruct (Hop rid req inc Hrid Hreq Hinc) as [u Hu].
      assert (holdsLicense customerId
                (Incident.setCommand
                   (Some (CommandRequest.requesterUid req)) (Some sid) inc)
              = holdsLicense customerId inc) as Heq.
      { unfold holdsLicense. simpl. rewrite Hu. by f_equal. }
      rewrite Heq in Hcount. lia.
  - unfold exec. rewrite cleanupstalecommandsessions_eq. simpl.
    etrans; [|exact Hst].
    by apply (commandingCount_alterAll customerId
                (map fst (lockedNow now st))).
  - by rewrite (commandingCount_same _ st)
      by apply cleanupoldsessions_incidents.
Qed.

Lemma X9_licenses_kept_witness :
  withinLicenses "T"
    (perform (StartNewIncident "I3" "20260101-0030" 30
                (Scenario.withSession "C") Crowd.user3) Crowd.st3).
Proof.
  apply (X9_licenses_kept "T"
           (StartNewIncident "I3" "20260101-0030" 30
              (Scenario.withSession "C") Crowd.user3) Crowd.st3).
  - by vm_compute.
  - intros c Hc. vm_compute in Hc. injection Hc as <-. by vm_compute.
Defined.

(** ** One Active incident per commander, across the operations *)

(** Writing one incident keeps the property when whoever the written
    document makes an active commander commands nothing else. *)
Lemma singleCommand_insert st st' k v' :
  incidents st' = <[k := v']> (incidents st) →
  (∀ u j, Incident.status v' = "Active" →
          Incident.commanderUid v' = Some u →
          j ≠ k → ¬ commandsActive u (Incident.customerId v') st j) →
  singleCommand st → singleCommand st'.
Proof.
  intros Heq Hnew Hst cid u i j Hi Hj.
  assert (∀ x, x ≠ k → commandsActive u cid st' x → commandsActive u cid st x)
    as Hold.
  { intros x Hx (d & Hd & ?). exists d. split; [|done].
    rewrite Heq in Hd. by rewrite lookup_insert_ne in Hd. }
  assert (∀ x, x ≠ k → commandsActive u cid st' k →
               commandsActive u cid st' x → False) as Hclash.
  { intros x Hx (d & Hd & Hcid & Hact & Hu) Hcmd.
    rewrite Heq, lookup_insert_eq in Hd. injection Hd as <-.
    apply (Hnew u x Hact Hu Hx). rewrite Hcid. by apply Hold. }
  destruct (decide (i = k)) as [->|Hik], (decide (j = k)) as [->|Hjk];
    [done| | |].
  - by destruct (Hclash j).
  - by destruct (Hclash i).
  - apply (Hst cid u); by apply Hold.
Qed.

(** An operation that makes nobody an active commander keeps the
    property. *)
Lemma singleCommand_shrink st st' :
  (∀ u cid k, commandsActive u cid st' k → commandsActive u cid st k) →
  singleCommand st → singleCommand st'.
Proof. intros Hold Hst cid u i j Hi Hj. apply (Hst cid u); by apply Hold. Qed.

Lemma take_1_nil {B} (l : list B) : take 1 l = [] ↔ l = [].
Proof. by destruct l. Qed.

(** A new incident passed both gates, and records the caller and the
    calling session. *)
Lemma startNewIncident_started newId defaultNumber now params auth st :
  let st' := exec (startNewIncident newId defaultNumber now params auth) st in
  st' = st
  ∨ ∃ inc,
      (∀ j, ¬ commandsActive (AuthContext.uid auth)
                (AuthContext.customerId auth) st j)
      ∧ Incident.customerId inc = AuthContext.customerId auth
      ∧ Incident.commanderUid inc = Some (AuthContext.uid auth)
      ∧ Incident.commanderSessionId inc = truthy (Params.sessionId params)
      ∧ Incident.status inc = "Active"
      ∧ st' = setIncidents (insert newId inc) st.
Proof.
  cbv zeta. unfold startNewIncident. unfoldM.
  destruct (truthy (Params.sessionId params)) as [sid|]; simpl; [|by left].
  destruct (customers st !! _) as [c|]; simpl; [|by left].
  destruct (_ <=? _); simpl; [by left|].
  case_bool_decide as Hnone; simpl; [|by left].
  right. eexists. split; [|by repeat split].
  intros j (d & Hd & Hcid & Hact & Hu).
  unfold activeUserIncidentsQuery in Hnone.
  apply (proj1 (take_1_nil _)) in Hnone.
  pose proof (proj1 (whereDocs_nil _ _) Hnone j d Hd) as Hp. simpl in Hp.
  by rewrite !bool_decide_eq_true_2 in Hp.
Qed.

(** X10: nobody comes to command two Active incidents of a tenant.  A
    store in which no user commands two Active incidents of one tenant
    is still such a store after any login, take, start, close,
    re-establish or sweep, and after an approval whose requester
    commands no other Active incident of the tenant; a new incident is
    assumed to get a fresh id. *)
Theorem X10_singleCommand_kept op st :
  keepsSingleCommand op st →
  singleCommand st →
  singleCommand (perform op st).
Proof.
  intros Hop Hst. destruct op; simpl in *.
  - apply (singleCommand_shrink st); [|done].
    intros u cid k (d & Hd & ?). exists d.
    by rewrite createSession_incidents in Hd.
  - unfold exec.
    destruct (takeIncidentCommand params auth st) as [[r|e] st'] eqn:Hcall;
      simpl.
    + apply takeIncidentCommand_Ok in Hcall
        as (iid & sid & s & inc & _ & _ & _ & _ & Hinc & Htenant & Hnone
            & ->).
      rewrite userIncidentsQuery_nil in Hnone.
      apply (singleCommand_insert st _ iid
               (Incident.setCommand (Some (AuthContext.uid auth)) (Some sid)
                  inc)); [done| |done].
      simpl. intros u j _ [= <-] Hj (d & Hd & Hcid & _ & Hu).
      apply Hj. apply (Hnone j d Hd); congruence.
    + by apply takeIncidentCommand_Err in Hcall as ->.
  - destruct (startNewIncident_started newId defaultNumber now params auth st)
      as [->|(inc & Hnone & Hcid & Hu & _ & _ & ->)]; [done|].
    apply (singleCommand_insert st _ newId inc); [done| |done].
    intros u j _ Hu' _. rewrite Hu in Hu'. injection Hu' as <-.
    rewrite Hcid. apply Hnone.
  - destruct (closeIncident_effect now params auth st)
      as [_ [Hsame|(iid & inc & Hinc & Hclosed)]].
    + apply (singleCommand_shrink st); [|done].
      intros u cid k (d & Hd & ?). exists d. by rewrite Hsame in Hd.
    + by apply (singleCommand_insert st _ iid (Incident.close now inc)).
  - destruct (reestablishCommand_effect now params auth st)
      as [_ [Hsame|(iid & sid & inc & Hinc & _ & Hset)]].
    + apply (singleCommand_shrink st); [|done].
      intros u cid k (d & Hd & ?). exists d. by rewrite Hsame in Hd.
    + apply (singleCommand_insert st _ iid
               (Incident.setCommanderSessionId (Some sid) inc));
        [done| |done].
      simpl. intros u j Hact Hu Hj Hcmd. apply Hj.
      apply (Hst (Incident.customerId inc) u); [done|].
      by exists inc.
  - destruct (approveCommandRequest_incidents now params auth st)
      as [Hsame|(rid & req & sid & inc & Hrid & Hreq & Hinc & Hset)].
    + apply (singleCommand_shrink st); [|done].
      intros u cid k (d & Hd & ?). exists d. by rewrite Hsame in Hd.
    + apply (singleCommand_insert st _ _ _ Hset); [|done].
      simpl. intros u j _ [= <-] Hj. by apply (Hop rid req inc j).
  - unfold exec. rewrite cleanupstalecommandsessions_eq. simpl.
    apply (singleCommand_shrink st); [|done].
    intros u cid k (d & Hd & Hcid & Hact & Hu).
    rewrite lookup_swept_incidents in Hd.
    destruct (decide _); [|by exists d].
    destruct (incidents st !! k) as [d'|]; [|done].
    simpl in Hd. injection Hd as <-. done.
  - apply (singleCommand_shrink st); [|done].
    intros u cid k (d & Hd & ?). exists d.
    by rewrite cleanupoldsessions_incidents in Hd.
Qed.

Lemma X10_singleCommand_kept_witness :
  singleCommand
    (perform (StartNewIncident "I2" "20260101-0040" 40
                (Scenario.withSession "B") Scenario.user1) Scenario.st2).
Proof.
  apply (X10_singleCommand_kept
           (StartNewIncident "I2" "20260101-0040" 40
              (Scenario.withSession "B") Scenario.user1) Scenario.st2).
  - by vm_compute.
  - intros cid u i j (d & Hd & _) (d' & Hd' & _).
    rewrite Scenario_st2_incidents in Hd, Hd'.
    apply lookup_singleton_Some in Hd as [<- _].
    by apply lookup_singleton_Some in Hd' as [<- _].
Defined.

(** ** Closing an incident *)

(** An update keeps every document that exists. *)
Lemma applyWrite_updatesExisting st w :
  updatesExisting st w →
  ∃ st1, applyWrite w st = Some st1
         ∧ ∀ w', updatesExisting st w' → updatesExisting st1 w'.
Proof.
  destruct w as [id f|id f|id f|id f|id|id]; simpl; try done;
    intros [d Hd]; rewrite Hd; simpl; eexists; (split; [done|]);
    intros [id' f'|id' f'|id' f'|id' f'|id'|id']; simpl; try done;
    (destruct (decide (id' = id)) as [->|Hne];
     [by rewrite lookup_insert_eq|by rewrite lookup_insert_ne]).
Qed.

(** A batch of updates of existing documents commits. *)
Lemma commit_updates ws st :
  Forall (updatesExisting st) ws → is_Some (commit ws st).
Proof.
  revert st. induction ws as [|w ws IH]; intros st Hws; simpl; [eauto|].
  apply Forall_cons in Hws as [Hw Hws].
  destruct (applyWrite_updatesExisting st w Hw) as (st1 & -> & Hkeep).
  simpl. apply IH. eapply Forall_impl; [exact Hws|]. apply Hkeep.
Qed.

Lemma commit_updateUnits f ks ws st :
  (∀ k, k ∈ ks → is_Some (units st !! k)) →
  commit (map (λ k, UpdateUnit k f) ks ++ ws) st
  = commit ws (setUnits (alterAll f ks) st).
Proof.
  revert st. induction ks as [|k ks IH]; intros st Hks; simpl.
  - by destruct st.
  - destruct (Hks k) as [d Hd]; [left|]. rewrite Hd; simpl.
    rewrite IH.
    + f_equal. unfold setUnits, alterAll; simpl. f_equal.
      f_equal. apply map_eq. intros j.
      destruct (decide (j = k)) as [->|Hne].
      * by rewrite lookup_insert_eq, lookup_alter_eq, Hd.
      * by rewrite lookup_insert_ne, lookup_alter_ne.
    + intros j Hj. simpl.
      destruct (decide (j = k)) as [->|Hne].
      * by rewrite lookup_insert_eq.
      * rewrite lookup_insert_ne by done. apply Hks. by right.
Qed.

Lemma commit_deleteUnits ks ws st :
  commit (map DeleteUnit ks ++ ws) st
  = commit ws (setUnits (deleteAll ks) st).
Proof.
  revert st. induction ks as [|k ks IH]; intros st; simpl.
  - by destruct st.
  - by rewrite IH.
Qed.

(** A commit, document by document. *)
Lemma commit_lookup ws st st' :
  commit ws st = Some st' →
  (∀ aid, assignments st' !! aid
          = fold_left (assignmentAfter aid) ws (assignments st !! aid))
  ∧ (∀ u, units st' !! u = fold_left (unitAfter u) ws (units st !! u)).
Proof.
  revert st. induction ws as [|w ws IH]; intros st; simpl.
  - by intros [= ->].
  - destruct (applyWrite w st) as [st1|] eqn:Hw; simpl; [|done].
    intros Hc. destruct (IH st1 Hc) as [Ha Hu].
    assert ((∀ aid, assignments st1 !! aid
                    = assignmentAfter aid (assignments st !! aid) w)
            ∧ (∀ u, units st1 !! u = unitAfter u (units st !! u) w))
      as [Ha1 Hu1].
    { destruct w as [id f|id f|id f|id f|id|id]; simpl in Hw |- *;
        try (destruct (_ !! id) as [d|] eqn:Hd; simpl in Hw; [|done]);
        injection Hw as <-; simpl; split; try done; intros k;
        destruct (decide (id = k)) as [->|Hne];
        rewrite ?lookup_insert_eq, ?lookup_delete_eq, ?Hd;
        try rewrite lookup_insert_ne by done;
        try rewrite lookup_delete_ne by done; done. }
    split; intros k; [rewrite Ha, Ha1|rewrite Hu, Hu1]; done.
Qed.

(** The other collections of a batch that writes units and
    assignments. *)
Lemma commit_unitWrites_frame ws st st' :
  Forall unitWrite ws →
  commit ws st = Some st' →
  commandRequests st' = commandRequests st
  ∧ incidentLog st' = incidentLog st.
Proof.
  intros Hws. revert st. induction Hws as [|w ws Hw _ IH]; intros st; simpl.
  - by intros [= ->].
  - destruct w; try done; simpl.
    + destruct (assignments st !! id); simpl; [|done].
      intros H. by apply IH in H.
    + destruct (units st !! id); simpl; [|done].
      intros H. by apply IH in H.
    + intros H. by apply IH in H.
Qed.

(** The batch of [closeIncident], part by part. *)
Lemma closeBatch_parts now incidentId assignSnapshot st :
  closeBatch now incidentId assignSnapshot st
  = map (λ k, UpdateUnit k Unit.reform)
      (map fst
         (if bool_decide (parentIdsOf assignSnapshot st = []) then []
          else unitsIn (parentIdsOf assignSnapshot st) st))
    ++ map DeleteUnit (subunitIdsOf assignSnapshot st)
    ++ flat_map (releaseWrites now assignSnapshot st) assignSnapshot
    ++ [UpdateIncident incidentId (Incident.close now)].
Proof.
  unfold closeBatch. rewrite map_map.
  fold (assignedUnitsOf assignSnapshot st).
  fold (splitUnitsOf assignSnapshot st).
  fold (parentIdsOf assignSnapshot st).
  fold (subunitIdsOf assignSnapshot st).
  f_equal. f_equal. f_equal.
  apply flat_map_ext. intros d. unfold releaseWrites, madeAvailable.
  f_equal. destruct (_ || _); [done|].
  destruct (List.find _ _) as [u|]; [|done].
  by case_bool_decide.
Qed.

Lemma elem_of_fold_setAdd {B} (h : B → option string) l acc x :
  x ∈ fold_left (λ acc d,
        match h d with Some p => setAdd p acc | None => acc end) l acc
  ↔ x ∈ acc ∨ ∃ d, d ∈ l ∧ h d = Some x.
Proof.
  revert acc. induction l as [|d l IH]; intros acc; simpl.
  - split; [by left|]. intros [?|(d & Hin & _)]; [done|].
    by apply elem_of_nil in Hin.
  - rewrite IH. destruct (h d) as [p|] eqn:Hd.
    + rewrite elem_of_setAdd. split.
      * intros [[->|?]|(d' & ? & ?)]; [|by left|].
        -- right. exists d. split; [left|done].
        -- right. exists d'. split; [by right|done].
      * intros [?|(d' & [->|?]%elem_of_cons & Hd')]; [by left; right| |].
        -- left. left. congruence.
        -- right. by exists d'.
    + split.
      * intros [?|(d' & ? & ?)]; [by left|].
        right. exists d'. split; [by right|done].
      * intros [?|(d' & [->|?]%elem_of_cons & Hd')]; [by left|congruence|].
        right. by exists d'.
Qed.

Lemma elem_of_unitsIn ids st k u :
  (k, u) ∈ unitsIn ids st ↔ units st !! k = Some u ∧ k ∈ ids.
Proof.
  unfold unitsIn. rewrite elem_of_whereDocs. simpl.
  by rewrite bool_decide_eq_true.
Qed.

Lemma elem_of_assignQuery customerId incidentId st aid a :
  (aid, a) ∈ assignQuery customerId incidentId st
  ↔ assignments st !! aid = Some a ∧ openOn customerId incidentId a = true.
Proof. unfold assignQuery. by rewrite elem_of_whereDocs. Qed.

Lemma elem_of_assignedUnitIds customerId incidentId st u :
  u ∈ map (λ d, Assignment.unitId d.2) (assignQuery customerId incidentId st)
  ↔ assignedTo customerId incidentId st u.
Proof.
  rewrite list_elem_of_fmap. unfold assignedTo. split.
  - intros ([aid a] & -> & [? ?]%elem_of_assignQuery). by exists aid, a.
  - intros (aid & a & ? & ? & <-). exists (aid, a). split; [done|].
    by apply elem_of_assignQuery.
Qed.

Lemma elem_of_splitUnitsOf customerId incidentId st k u :
  (k, u) ∈ splitUnitsOf (assignQuery customerId incidentId st) st
  ↔ units st !! k = Some u
    ∧ assignedTo customerId incidentId st k
    ∧ is_Some (truthy (Unit.parentUnitId u)).
Proof.
  unfold splitUnitsOf, assignedUnitsOf.
  rewrite elem_of_List_filter, elem_of_unitsIn, elem_of_assignedUnitIds.
  simpl. rewrite bool_decide_eq_true. tauto.
Qed.

Lemma elem_of_subunitIdsOf customerId incidentId st k :
  k ∈ subunitIdsOf (assignQuery customerId incidentId st) st
  ↔ assignedTo customerId incidentId st k
    ∧ ∃ u, units st !! k = Some u
           ∧ is_Some (truthy (Unit.parentUnitId u)).
Proof.
  unfold subunitIdsOf.
  rewrite (elem_of_fold_setAdd (λ d : string * Unit.t, Some d.1)).
  split.
  - intros [[]%elem_of_nil|([k' u] & Hin & [= <-])].
    apply elem_of_splitUnitsOf in Hin as (? & ? & ?). eauto.
  - intros (? & u & ? & ?). right. exists (k, u). split; [|done].
    by apply elem_of_splitUnitsOf.
Qed.

Lemma elem_of_parentIdsOf customerId incidentId st p :
  p ∈ parentIdsOf (assignQuery customerId incidentId st) st
  ↔ parentAt customerId incidentId st p.
Proof.
  unfold parentIdsOf.
  rewrite (elem_of_fold_setAdd
             (λ d : string * Unit.t, truthy (Unit.parentUnitId d.2))).
  unfold parentAt. split.
  - intros [[]%elem_of_nil|([k u] & Hin & Hp)]. simpl in Hp.
    apply elem_of_splitUnitsOf in Hin as (? & ? & ?). by exists k, u.
  - intros (k & u & ? & ? & Hp). right. exists (k, u). split; [|done].
    apply elem_of_splitUnitsOf. rewrite Hp. eauto.
Qed.

(** The unit a release makes available is assigned, whole, in service
    and not a parent of an assigned unit. *)
Lemma madeAvailable_Some customerId incidentId st d u :
  d ∈ assignQuery customerId incidentId st →
  madeAvailable (parentIdsOf (assignQuery customerId incidentId st) st)
    (subunitIdsOf (assignQuery customerId incidentId st) st)
    (assignedUnitsOf (assignQuery customerId incidentId st) st) d = Some u
  ↔ Assignment.unitId d.2 = u
    ∧ ¬ parentAt customerId incidentId st u
    ∧ ∃ su, units st !! u = Some su
            ∧ truthy (Unit.parentUnitId su) = None
            ∧ Unit.status su ≠ "Out of Service".
Proof.
  intros Hd. unfold madeAvailable.
  set (unitId := Assignment.unitId d.2).
  assert (assignedTo customerId incidentId st unitId) as Hassigned.
  { apply elem_of_assignedUnitIds, list_elem_of_fmap. by exists d. }
  rewrite <- elem_of_parentIdsOf.
  destruct (decide (unitId ∈ parentIdsOf
                      (assignQuery customerId incidentId st) st))
    as [Hp|Hp].
  { rewrite (bool_decide_eq_true_2 _ Hp). simpl.
    split; [done|]. intros (<- & ? & _). done. }
  rewrite (bool_decide_eq_false_2 _ Hp). simpl.
  destruct (decide (unitId ∈ subunitIdsOf
                      (assignQuery customerId incidentId st) st))
    as [Hs|Hs].
  { rewrite (bool_decide_eq_true_2 _ Hs). split; [done|].
    intros (<- & _ & su & Hsu & Hwhole & _).
    apply elem_of_subunitIdsOf in Hs as (_ & su' & Hsu' & [p Hp']).
    congruence. }
  rewrite (bool_decide_eq_false_2 _ Hs).
  destruct (List.find _ _) as [[k x]|] eqn:Hfind.
  - apply find_some in Hfind as [Hin Hk]. simpl in Hk.
    apply bool_decide_eq_true in Hk. subst k.
    apply list_elem_of_In, elem_of_unitsIn in Hin as [Hx _]. simpl.
    assert (truthy (Unit.parentUnitId x) = None) as Hwhole.
    { destruct (truthy (Unit.parentUnitId x)) as [p|] eqn:Hpx; [|done].
      destruct Hs. apply elem_of_subunitIdsOf. split; [done|].
      exists x. rewrite Hpx. eauto. }
    case_bool_decide as Hout.
    + split; [done|]. intros (<- & _ & su & Hsu & _ & Hin').
      congruence.
    + split.
      * intros [= <-]. split; [done|]. split; [done|]. by exists x.
      * by intros (<- & _).
  - split; [done|]. intros (<- & _ & su & Hsu & _ & _).
    assert ((unitId, su)
            ∈ assignedUnitsOf (assignQuery customerId incidentId st) st)
      as Hin.
    { apply elem_of_unitsIn. split; [done|].
      by apply elem_of_assignedUnitIds. }
    apply list_elem_of_In in Hin.
    pose proof (find_none _ _ Hfind _ Hin) as Hn. simpl in Hn.
    by rewrite bool_decide_eq_true_2 in Hn.
Qed.

(** The batch of [closeIncident] never fails on a store that holds the
    incident. *)
Lemma closeBatch_commits now customerId incidentId st :
  is_Some (incidents st !! incidentId) →
  is_Some (commit (closeBatch now incidentId
                     (assignQuery customerId incidentId st) st) st).
Proof.
  intros Hinc. rewrite closeBatch_parts.
  rewrite commit_updateUnits, commit_deleteUnits.
  2:{ intros k ([k' u] & -> & Hin)%list_elem_of_fmap. simpl.
      case_bool_decide; [by apply elem_of_nil in Hin|].
      apply elem_of_unitsIn in Hin as [-> _]. eauto. }
  apply commit_updates, Forall_app. split.
  - apply Forall_forall. intros w Hw.
    apply list_elem_of_In, in_flat_map in Hw as ([aid a] & Hd & Hw).
    apply list_elem_of_In in Hd. unfold releaseWrites in Hw.
    destruct Hw as [<-|Hw].
    + simpl. apply elem_of_assignQuery in Hd as [-> _]. eauto.
    + destruct (madeAvailable _ _ _ _) as [u|] eqn:Hmade; [|done].
      destruct Hw as [<-|[]]. simpl.
      pose proof Hmade as Hmade'.
      apply (madeAvailable_Some _ _ _ _ _ Hd) in Hmade'
        as (_ & Hp & su & Hsu & Hwhole & _).
      rewrite lookup_deleteAll.
      destruct (decide _) as [Hs|_].
      { apply elem_of_subunitIdsOf in Hs as (_ & su' & Hsu' & [p Hp']).
        congruence. }
      rewrite lookup_alterAll by done.
      destruct (decide _); rewrite Hsu; simpl; eauto.
  - apply Forall_singleton. by simpl.
Qed.

(** The folds of [commit_lookup] over the parts of the batch. *)
Lemma fold_assignmentAfter_id aid ws o :
  Forall (λ w, ∀ id f, w ≠ UpdateAssignment id f) ws →
  fold_left (assignmentAfter aid) ws o = o.
Proof.
  induction 1 as [|w ws Hw _ IH]; simpl; [done|].
  rewrite <- IH at 2. f_equal.
  destruct w; try done. by destruct (Hw id f).
Qed.

Lemma fold_assignmentAfter_release aid now snapshot st l o :
  fold_left (assignmentAfter aid)
    (flat_map (releaseWrites now snapshot st) l) o
  = if decide (aid ∈ map fst l) then Assignment.release now <$> o else o.
Proof.
  revert o. induction l as [|d l IH]; intros o; simpl.
  - destruct (decide (aid ∈ [])) as [[]%elem_of_nil|]; done.
  - rewrite fold_left_app, IH. unfold releaseWrites. simpl.
    assert (∀ o', fold_left (assignmentAfter aid)
              match madeAvailable (parentIdsOf snapshot st)
                      (subunitIdsOf snapshot st)
                      (assignedUnitsOf snapshot st) d with
              | Some u => [UpdateUnit u Unit.makeAvailable]
              | None => []
              end o' = o') as ->
      by (intros o'; by destruct (madeAvailable _ _ _ _)).
    destruct (decide (d.1 = aid)) as [Heq|Hne].
    + destruct (decide (aid ∈ d.1 :: map fst l)) as [_|[]];
        [|rewrite Heq; left].
      destruct (decide (aid ∈ map fst l)); [|done]. by destruct o.
    + destruct (decide (aid ∈ map fst l)) as [Hin|Hin],
               (decide (aid ∈ d.1 :: map fst l)) as [Hin'|Hin']; try done.
      * destruct Hin'. by right.
      * by apply elem_of_cons in Hin' as [?|?].
Qed.

Lemma fold_unitAfter_id u ws o :
  Forall (λ w, (∀ f, w ≠ UpdateUnit u f) ∧ w ≠ DeleteUnit u) ws →
  fold_left (unitAfter u) ws o = o.
Proof.
  induction 1 as [|w ws [Hw Hw'] _ IH]; simpl; [done|].
  rewrite <- IH at 2. f_equal.
  destruct w; try done; simpl; destruct (decide _) as [->|]; try done.
  by destruct (Hw f).
Qed.

Lemma fold_unitAfter_None u ws : fold_left (unitAfter u) ws None = None.
Proof.
  induction ws as [|w ws IH]; simpl; [done|].
  by destruct w; simpl; try destruct (decide _).
Qed.

Lemma fold_unitAfter_update u f ks o :
  (∀ x, f (f x) = f x) →
  fold_left (unitAfter u) (map (λ k, UpdateUnit k f) ks) o
  = if decide (u ∈ ks) then f <$> o else o.
Proof.
  intros Hf. revert o. induction ks as [|k ks IH]; intros o; simpl.
  - destruct (decide (u ∈ [])) as [[]%elem_of_nil|]; done.
  - rewrite IH. destruct (decide (k = u)) as [->|Hne].
    + destruct (decide (u ∈ u :: ks)) as [_|[]]; [|by left].
      destruct (decide (u ∈ ks)); [|done].
      destruct o; simpl; by rewrite ?Hf.
    + destruct (decide (u ∈ ks)) as [Hin|Hin],
               (decide (u ∈ k :: ks)) as [Hin'|Hin']; try done.
      * destruct Hin'. by right.
      * by apply elem_of_cons in Hin' as [?|?].
Qed.

Lemma fold_unitAfter_delete u ks o :
  fold_left (unitAfter u) (map DeleteUnit ks) o
  = if decide (u ∈ ks) then None else o.
Proof.
  revert o. induction ks as [|k ks IH]; intros o; simpl.
  - destruct (decide (u ∈ [])) as [[]%elem_of_nil|]; done.
  - rewrite IH. destruct (decide (k = u)) as [->|Hne].
    + destruct (decide (u ∈ u :: ks)) as [_|[]]; [|by left].
      by destruct (decide (u ∈ ks)).
    + destruct (decide (u ∈ ks)) as [Hin|Hin],
               (decide (u ∈ k :: ks)) as [Hin'|Hin']; try done.
      * destruct Hin'. by right.
      * by apply elem_of_cons in Hin' as [?|?].
Qed.

Lemma fold_unitAfter_release u now snapshot st l o :
  fold_left (unitAfter u) (flat_map (releaseWrites now snapshot st) l) o
  = if decide (u ∈ omap (madeAvailable (parentIdsOf snapshot st)
                           (subunitIdsOf snapshot st)
                           (assignedUnitsOf snapshot st)) l)
    then Unit.makeAvailable <$> o else o.
Proof.
  revert o. induction l as [|d l IH]; intros o; simpl.
  - destruct (decide (u ∈ [])) as [[]%elem_of_nil|]; done.
  - rewrite fold_left_app, IH. unfold releaseWrites. simpl.
    destruct (madeAvailable _ _ _ d) as [k|]; simpl; [|done].
    change (list_omap (string * Assignment.t)%type string ?f l)
      with (omap f l).
    destruct (decide (k = u)) as [->|Hne].
    + match goal with |- context [decide (u ∈ u :: ?l')] =>
        destruct (decide (u ∈ u :: l')) as [_|[]]; [|by left];
        destruct (decide (u ∈ l')); [|done] end.
      by destruct o.
    + match goal with |- context [decide (u ∈ k :: ?l')] =>
        destruct (decide (u ∈ l')) as [Hin|Hin],
                 (decide (u ∈ k :: l')) as [Hin'|Hin'] end; try done.
      * destruct Hin'. by right.
      * by apply elem_of_cons in Hin' as [?|?].
Qed.

(** The call of the recorded commander commits the batch. *)
Lemma closeIncident_commits now params auth st incidentId inc :
  truthy (Params.incidentId params) = Some incidentId →
  incidents st !! incidentId = Some inc →
  Incident.customerId inc = AuthContext.customerId auth →
  Incident.commanderUid inc = Some (AuthContext.uid auth) →
  ∃ msg st',
    closeIncident now params auth st = (Ok msg, st')
    ∧ commit (closeBatch now incidentId
                (assignQuery (AuthContext.customerId auth) incidentId st) st)
        st = Some st'.
Proof.
  intros Hiid Hinc Htenant Hcmd.
  destruct (closeBatch_commits now (AuthContext.customerId auth) incidentId
              st) as [st' Hst']; [eauto|].
  unfold closeIncident, getAndVerifyDoc. unfoldM.
  rewrite Hiid; simpl. rewrite Hinc; simpl.
  case_bool_decide; simpl; [|done].
  case_bool_decide; simpl; [|done].
  case_bool_decide as Hnone; simpl.
  - rewrite Hinc; simpl. eexists _, _. split; [done|].
    rewrite closeBatch_parts, Hnone. simpl.
    assert (unitsIn [] st = []) as Hno.
    { apply whereDocs_nil. by intros k v _. }
    unfold parentIdsOf, subunitIdsOf, splitUnitsOf, assignedUnitsOf.
    simpl. rewrite Hno. simpl. by rewrite Hinc.
  - rewrite Hst'. eauto.
Qed.

(** X11: the recorded commander can always close the incident.  For an
    incident of the caller's tenant that records the caller as
    commander, [closeIncident] succeeds: the batch never fails.  The
    incident becomes Closed with its end time set and both commander
    fields cleared; every open assignment of the tenant on the incident
    is released at that time and no other assignment changes; sessions,
    customers, requests and the log are not written.  A second
    [closeIncident] on the incident, by anybody, is refused with
    permission-denied and writes nothing. *)
Theorem X11_closeIncident_closes now params auth st incidentId inc :
  truthy (Params.incidentId params) = Some incidentId →
  incidents st !! incidentId = Some inc →
  Incident.customerId inc = AuthContext.customerId auth →
  Incident.commanderUid inc = Some (AuthContext.uid auth) →
  ∃ msg st',
    closeIncident now params auth st = (Ok msg, st')
    ∧ incidents st' = <[incidentId := Incident.close now inc]> (incidents st)
    ∧ (∀ aid,
         assignments st' !! aid
         = releaseOpen now (AuthContext.customerId auth) incidentId
             <$> assignments st !! aid)
    ∧ sessions st' = sessions st
    ∧ customers st' = customers st
    ∧ commandRequests st' = commandRequests st
    ∧ incidentLog st' = incidentLog st
    ∧ ∀ now' params' auth',
        truthy (Params.incidentId params') = Some incidentId →
        ∃ reason,
          closeIncident now' params' auth' st'
          = (Err (HttpsError permission_denied reason), st').
Proof.
  intros Hiid Hinc Htenant Hcmd.
  destruct (closeIncident_commits now params auth st incidentId inc)
    as (msg & st' & Hcall & Hcommit); try done.
  exists msg, st'. split; [done|].
  destruct (commit_lookup _ _ _ Hcommit) as [Hassign _].
  pose proof (commit_customers _ _ _ Hcommit) as Hcust.
  destruct (closeBatch_unitWrites now incidentId
              (assignQuery (AuthContext.customerId auth) incidentId st) st)
    as (front & Hfront & Hunit).
  pose proof Hcommit as Hsplit. rewrite Hfront, commit_app in Hsplit.
  destruct (commit front st) as [stF|] eqn:HF; simpl in Hsplit; [|done].
  destruct (commit_unitWrites _ _ _ Hunit HF) as [Hi Hs].
  destruct (commit_unitWrites_frame _ _ _ Hunit HF) as [Hr Hl].
  rewrite Hi, Hinc in Hsplit. simpl in Hsplit. injection Hsplit as <-.
  simpl in Hassign, Hcust |- *. rewrite Hi.
  split; [done|]. split; [|split; [done|split; [done|split; [done|split]]]].
  - intros aid. rewrite (Hassign aid), closeBatch_parts.
    rewrite !fold_left_app.
    rewrite (fold_assignmentAfter_id aid (map _ _))
      by (apply Forall_forall; by intros w (k & -> & _)%list_elem_of_fmap).
    rewrite (fold_assignmentAfter_id aid (map _ _))
      by (apply Forall_forall; by intros w (k & -> & _)%list_elem_of_fmap).
    rewrite fold_assignmentAfter_release. simpl.
    unfold releaseOpen.
    destruct (decide _) as [Hin|Hout].
    + apply list_elem_of_fmap in Hin
        as ([aid' a] & -> & [Ha Hopen]%elem_of_assignQuery).
      simpl. rewrite Ha. simpl. by rewrite Hopen.
    + destruct (assignments st !! aid) as [a|] eqn:Ha; [|done]. simpl.
      destruct (openOn _ _ a) eqn:Hopen; [|done].
      destruct Hout. apply list_elem_of_fmap. exists (aid, a).
      split; [done|]. by apply elem_of_assignQuery.
  - done.
  - intros now' params' auth' Hiid'.
    unfold closeIncident, getAndVerifyDoc. unfoldM.
    rewrite Hiid'; simpl. rewrite Hi, lookup_insert_eq; simpl.
    case_bool_decide; simpl; eauto.
Qed.

Lemma X11_closeIncident_closes_witness :
  ∃ msg st',
    closeIncident 50 (Scenario.onIncident "I1" "A") Scenario.user1 Board.st
    = (Ok msg, st')
    ∧ incidents st'
      = <["I1" := Incident.close 50 Board.incident1]> (incidents Board.st)
    ∧ (∀ aid,
         assignments st' !! aid
         = releaseOpen 50 "T" "I1" <$> assignments Board.st !! aid)
    ∧ sessions st' = sessions Board.st
    ∧ customers st' = customers Board.st
    ∧ commandRequests st' = commandRequests Board.st
    ∧ incidentLog st' = incidentLog Board.st
    ∧ ∀ now' params' auth',
        truthy (Params.incidentId params') = Some "I1" →
        ∃ reason,
          closeIncident now' params' auth' st'
          = (Err (HttpsError permission_denied reason), st').
Proof.
  apply (X11_closeIncident_closes 50 (Scenario.onIncident "I1" "A")
           Scenario.user1 Board.st "I1" Board.incident1); reflexivity.
Defined.

Lemma elem_of_reformed customerId incidentId st u :
  u ∈ map fst
        (if bool_decide
              (parentIdsOf (assignQuery customerId incidentId st) st = [])
         then []
         else unitsIn (parentIdsOf (assignQuery customerId incidentId st) st)
                st)
  ↔ parentAt customerId incidentId st u ∧ is_Some (units st !! u).
Proof.
  rewrite <- elem_of_parentIdsOf, list_elem_of_fmap. split.
  - intros ([k x] & -> & Hin). simpl.
    case_bool_decide; [by apply elem_of_nil in Hin|].
    apply elem_of_unitsIn in Hin as [-> ?]. eauto.
  - intros [Hp [x Hx]]. exists (u, x). split; [done|].
    case_bool_decide as Hnil; [rewrite Hnil in Hp; by apply elem_of_nil in Hp|].
    by apply elem_of_unitsIn.
Qed.

Lemma elem_of_madeAvailable customerId incidentId st u :
  u ∈ omap (madeAvailable
              (parentIdsOf (assignQuery customerId incidentId st) st)
              (subunitIdsOf (assignQuery customerId incidentId st) st)
              (assignedUnitsOf (assignQuery customerId incidentId st) st))
        (assignQuery customerId incidentId st)
  ↔ assignedTo customerId incidentId st u
    ∧ ¬ parentAt customerId incidentId st u
    ∧ ∃ su, units st !! u = Some su
            ∧ truthy (Unit.parentUnitId su) = None
            ∧ Unit.status su ≠ "Out of Service".
Proof.
  rewrite list_elem_of_omap. split.
  - intros (d & Hd & Hmade).
    apply (madeAvailable_Some _ _ _ _ _ Hd) in Hmade as (Hu & ? & ?).
    split; [|done]. apply elem_of_assignedUnitIds, list_elem_of_fmap.
    by exists d.
  - intros ((aid & a & Ha & Hopen & Hu) & Hp & Hsu).
    exists (aid, a).
    assert ((aid, a) ∈ assignQuery customerId incidentId st) as Hd
      by (by apply elem_of_assignQuery).
    split; [done|]. by apply (madeAvailable_Some _ _ _ _ _ Hd).
Qed.

(** X12: what closing an incident does to the units.  When the recorded
    commander closes the incident, every assigned unit that names a
    parent is deleted; every existing unit named as parent by an
    assigned unit is reformed (not split, Available) unless it is itself
    an assigned unit that names a parent; every other assigned unit
    becomes Available unless it is Out of Service; and a unit that is
    neither assigned to the incident nor such a parent is left as it
    was. *)
Theorem X12_closeIncident_units now params auth st incidentId inc :
  truthy (Params.incidentId params) = Some incidentId →
  incidents st !! incidentId = Some inc →
  Incident.customerId inc = AuthContext.customerId auth →
  Incident.commanderUid inc = Some (AuthContext.uid auth) →
  let customerId := AuthContext.customerId auth in
  let st' := exec (closeIncident now params auth) st in
  (∀ u su,
     assignedTo customerId incidentId st u →
     units st !! u = Some su →
     is_Some (truthy (Unit.parentUnitId su)) →
     units st' !! u = None)
  ∧ (∀ p pu,
       parentAt customerId incidentId st p →
       units st !! p = Some pu →
       ¬ (assignedTo customerId incidentId st p
          ∧ is_Some (truthy (Unit.parentUnitId pu))) →
       units st' !! p = Some (Unit.reform pu))
  ∧ (∀ u su,
       assignedTo customerId incidentId st u →
       units st !! u = Some su →
       truthy (Unit.parentUnitId su) = None →
       ¬ parentAt customerId incidentId st u →
       units st' !! u
       = Some (if bool_decide (Unit.status su = "Out of Service") then su
               else Unit.makeAvailable su))
  ∧ (∀ u,
       ¬ assignedTo customerId incidentId st u →
       ¬ parentAt customerId incidentId st u →
       units st' !! u = units st !! u).
Proof.
  intros Hiid Hinc Htenant Hcmd customerId st'.
  destruct (closeIncident_commits now params auth st incidentId inc)
    as (msg & st1 & Hcall & Hcommit); try done.
  assert (st' = st1) as -> by (unfold st', exec; by rewrite Hcall).
  destruct (commit_lookup _ _ _ Hcommit) as [_ Hunits].
  fold customerId in Hunits.
  set (reformed :=
    map fst
      (if bool_decide
            (parentIdsOf (assignQuery customerId incidentId st) st = [])
       then []
       else unitsIn (parentIdsOf (assignQuery customerId incidentId st) st)
              st)).
  set (deleted := subunitIdsOf (assignQuery customerId incidentId st) st).
  set (freed :=
    omap (madeAvailable
            (parentIdsOf (assignQuery customerId incidentId st) st)
            (subunitIdsOf (assignQuery customerId incidentId st) st)
            (assignedUnitsOf (assignQuery customerId incidentId st) st))
      (assignQuery customerId incidentId st)).
  assert (∀ u, units st1 !! u
    = let oA := if decide (u ∈ reformed)
                then Unit.reform <$> units st !! u else units st !! u in
      let oB := if decide (u ∈ deleted) then None else oA in
      if decide (u ∈ freed) then Unit.makeAvailable <$> oB else oB)
    as Hfinal.
  { intros u. rewrite (Hunits u), closeBatch_parts, !fold_left_app.
    rewrite fold_unitAfter_update by done.
    by rewrite fold_unitAfter_delete, fold_unitAfter_release. }
  clear Hunits. cbv zeta in Hfinal.
  assert (∀ u, u ∈ reformed
               ↔ parentAt customerId incidentId st u
                 ∧ is_Some (units st !! u)) as Hreformed
    by (intros u; apply elem_of_reformed).
  assert (∀ u, u ∈ deleted
               ↔ assignedTo customerId incidentId st u
                 ∧ ∃ x, units st !! u = Some x
                        ∧ is_Some (truthy (Unit.parentUnitId x)))
    as Hdeleted by (intros u; apply elem_of_subunitIdsOf).
  assert (∀ u, u ∈ freed
               ↔ assignedTo customerId incidentId st u
                 ∧ ¬ parentAt customerId incidentId st u
                 ∧ ∃ su, units st !! u = Some su
                         ∧ truthy (Unit.parentUnitId su) = None
                         ∧ Unit.status su ≠ "Out of Service") as Hfreed
    by (intros u; apply elem_of_madeAvailable).
  clearbody reformed deleted freed.
  split; [|split; [|split]].
  - intros u su Hassigned Hsu Hsub. rewrite Hfinal.
    destruct (decide (u ∈ deleted)) as [_|Hnot].
    + by destruct (decide (u ∈ freed)).
    + destruct Hnot. apply Hdeleted. eauto.
  - intros p pu Hp Hpu Hnot. rewrite Hfinal.
    destruct (decide (p ∈ deleted)) as [Hs|_].
    { apply Hdeleted in Hs as (? & pu' & Hpu' & ?).
      destruct Hnot. split; [done|]. congruence. }
    destruct (decide (p ∈ freed)) as [Hm|_].
    { by apply Hfreed in Hm as (_ & ? & _). }
    destruct (decide (p ∈ reformed)) as [_|Hno]; [by rewrite Hpu|].
    destruct Hno. apply Hreformed. split; [done|]. by rewrite Hpu.
  - intros u su Hassigned Hsu Hwhole Hnp. rewrite Hfinal.
    destruct (decide (u ∈ reformed)) as [[? _]%Hreformed|_]; [done|].
    destruct (decide (u ∈ deleted)) as [Hs|_].
    { apply Hdeleted in Hs as (? & su' & Hsu' & [p Hp]). congruence. }
    rewrite Hsu.
    destruct (decide (u ∈ freed)) as [Hm|Hm].
    + apply Hfreed in Hm as (_ & _ & su' & Hsu' & _ & Hin).
      rewrite Hsu in Hsu'. injection Hsu' as <-.
      by rewrite bool_decide_eq_false_2.
    + case_bool_decide as Hout; [done|].
      destruct Hm. apply Hfreed. eauto 10.
  - intros u Hna Hnp. rewrite Hfinal.
    destruct (decide (u ∈ reformed)) as [[? _]%Hreformed|_]; [done|].
    destruct (decide (u ∈ deleted)) as [Hs|_].
    { by apply Hdeleted in Hs as (? & _). }
    destruct (decide (u ∈ freed)) as [Hm|_]; [|done].
    by apply Hfreed in Hm as (? & _).
Qed.

Lemma X12_closeIncident_units_witness :
  units (exec (closeIncident 50 (Scenario.onIncident "I1" "A")
                 Scenario.user1) Fireground.st) !! "E1A" = None
  ∧ units (exec (closeIncident 50 (Scenario.onIncident "I1" "A")
                   Scenario.user1) Fireground.st) !! "E1"
    = Some (Unit.mk None false "Available").
Proof.
  destruct (X12_closeIncident_units 50 (Scenario.onIncident "I1" "A")
              Scenario.user1 Fireground.st "I1" Board.incident1
              eq_refl eq_refl eq_refl eq_refl)
    as (Hdeleted & Hreformed & _ & _).
  assert (assignedTo "T" "I1" Fireground.st "E1A") as Hassigned
    by (by exists "a1", (Fireground.onI1 "E1A")).
  split.
  - apply (Hdeleted "E1A" (Unit.mk (Some "E1") false "On Scene"));
      [done|done|by eexists].
  - apply (Hreformed "E1" (Unit.mk None true "Split")).
    + by exists "E1A", (Unit.mk (Some "E1") false "On Scene").
    + done.
    + by intros [_ [? ?]].
Defined.

(** ** A handoff from request to answer *)

Lemma truthy_ne x s : truthy x = Some s → s ≠ "".
Proof.
  destruct x as [s'|]; simpl; [|done].
  case_bool_decide; [done|]. by intros [= <-].
Qed.

Lemma requestIncidentCommand_granted newId now params auth st
    incidentId sessionId inc commanderUid :
  requestable params auth st incidentId sessionId inc commanderUid →
  requestIncidentCommand newId now params auth st
  = (Ok (newId, newRequest now auth incidentId sessionId commanderUid),
     requested newId now auth incidentId sessionId commanderUid st).
Proof.
  intros (Hiid & Hsid & Hinc & Htenant & Hcmd & Hother & Hnone).
  unfold requestIncidentCommand, getAndVerifyDoc. unfoldM.
  rewrite Hiid, Hsid, Hinc; simpl.
  rewrite bool_decide_true by done; simpl. rewrite Hcmd; simpl.
  rewrite bool_decide_false by done; simpl.
  rewrite bool_decide_true by (by apply existingReqQuery_nil); simpl.
  by rewrite logIncidentAction_eq.
Qed.

Lemma requested_fields newId now auth incidentId sessionId commanderUid st :
  sessions (requested newId now auth incidentId sessionId commanderUid st)
  = sessions st
  ∧ incidents (requested newId now auth incidentId sessionId commanderUid st)
    = incidents st
  ∧ commandRequests
      (requested newId now auth incidentId sessionId commanderUid st)
    = <[newId := newRequest now auth incidentId sessionId commanderUid]>
        (commandRequests st).
Proof.
  unfold requested.
  destruct (logged_fields (requestEntry now auth incidentId commanderUid)
    (setCommandRequests
       (insert newId
          (newRequest now auth incidentId sessionId commanderUid)) st))
    as (_ & Hs & Hi & Hr).
  unfold newRequest in *. by rewrite Hs, Hi, Hr.
Qed.

(** Once the one request of an incident is answered, nothing is pending
    for the incident. *)
Lemma answered_none_pending st st' incidentId requestId req status :
  (∀ r, ¬ pendingFor st incidentId r) →
  commandRequests st'
  = <[requestId := CommandRequest.setStatus status req]> (commandRequests st) →
  status ≠ "pending" →
  ∀ r, ¬ pendingFor st' incidentId r.
Proof.
  intros Hnone Heq Hs r (q & Hq & Hi & Hp). rewrite Heq in Hq.
  destruct (decide (requestId = r)) as [->|Hne].
  - rewrite lookup_insert_eq in Hq. injection Hq as <-. by simpl in Hp.
  - rewrite lookup_insert_ne in Hq by done. apply (Hnone r). by exists q.
Qed.

(** X13: a handoff by approval.  When a user asks for command of an
    incident of their tenant that somebody else commands, with no
    request pending for it, the request is recorded as pending; when the
    commander then approves it, the incident records the requester as
    commander on the session the request was made from, the request is
    approved, the sessions are untouched and nothing is pending for the
    incident any more. *)
Theorem X13_handoff_by_approval newId now now' params auth answer approver st
    incidentId sessionId inc commanderUid :
  requestable params auth st incidentId sessionId inc commanderUid →
  truthy (Params.requestId answer) = Some newId →
  AuthContext.uid approver = commanderUid →
  let req := newRequest now auth incidentId sessionId commanderUid in
  ∃ st1 st2,
    requestIncidentCommand newId now params auth st = (Ok (newId, req), st1)
    ∧ pendingFor st1 incidentId newId
    ∧ approveCommandRequest now' answer approver st1
      = (Ok "Command approved.", st2)
    ∧ incidents st2
      = <[incidentId :=
            Incident.setCommand (Some (AuthContext.uid auth))
              (Some sessionId) inc]> (incidents st)
    ∧ commandRequests st2
      = <[newId := CommandRequest.setStatus "approved" req]>
          (commandRequests st)
    ∧ sessions st2 = sessions st
    ∧ ∀ r, ¬ pendingFor st2 incidentId r.
Proof.
  intros Hreq Hanswer Happrover req.
  pose proof Hreq as (Hiid & Hsid & Hinc & Htenant & Hcmd & Hother & Hnone).
  destruct (requested_fields newId now auth incidentId sessionId
              commanderUid st) as (Hs1 & Hi1 & Hr1).
  set (st1 := requested newId now auth incidentId sessionId commanderUid st)
    in *.
  assert (commandRequests st1 !! newId = Some req) as Hlookup
    by (rewrite Hr1; apply lookup_insert_eq).
  pose proof (approveCommandRequest_authorized now' answer approver st1
    newId req Hanswer Hlookup sessionId (eq_sym Happrover)
    (truthy_Some sessionId (truthy_ne _ _ Hsid))) as Happrove.
  simpl in Happrove.
  rewrite bool_decide_eq_false_2 in Happrove by (by apply truthy_ne in Hiid).
  rewrite Hi1, Hinc in Happrove.
  destruct (transferred_fields now' approver newId req sessionId inc st1)
    as (Hs2 & Hi2 & Hr2).
  exists st1, (transferred now' approver newId req sessionId inc st1).
  split; [by apply (requestIncidentCommand_granted _ _ _ _ _ _ _ inc)|].
  split; [by exists req|]. split; [exact Happrove|].
  assert (commandRequests
            (transferred now' approver newId req sessionId inc st1)
          = <[newId := CommandRequest.setStatus "approved" req]>
              (commandRequests st)) as Hr
    by (rewrite Hr2, Hr1; apply insert_insert_eq).
  rewrite Hs2, Hi2, Hs1, Hi1.
  split; [done|]. split; [done|]. split; [done|].
  by apply (answered_none_pending st _ incidentId newId req "approved").
Qed.

Lemma X13_handoff_by_approval_witness :
  ∃ st1 st2,
    requestIncidentCommand "R1" 100 (Scenario.onIncident "I1" "B")
      Scenario.user2 Board.st
    = (Ok ("R1", newRequest 100 Scenario.user2 "I1" "B" "user1"), st1)
    ∧ pendingFor st1 "I1" "R1"
    ∧ approveCommandRequest 110 (Scenario.onRequest "R1") Scenario.user1 st1
      = (Ok "Command approved.", st2)
    ∧ incidents st2
      = <["I1" := Incident.setCommand (Some "user2") (Some "B")
                    Board.incident1]> (incidents Board.st)
    ∧ commandRequests st2
      = <["R1" := CommandRequest.setStatus "approved"
                    (newRequest 100 Scenario.user2 "I1" "B" "user1")]>
          (commandRequests Board.st)
    ∧ sessions st2 = sessions Board.st
    ∧ ∀ r, ¬ pendingFor st2 "I1" r.
Proof.
  apply (X13_handoff_by_approval "R1" 100 110 (Scenario.onIncident "I1" "B")
           Scenario.user2 (Scenario.onRequest "R1") Scenario.user1 Board.st
           "I1" "B" Board.incident1 "user1").
  - repeat split; try done.
    intros r (q & Hq & _). by vm_compute in Hq.
  - reflexivity.
  - reflexivity.
Defined.

(** X14: a denial changes nothing but the request.  When the commander
    denies the pending request, the incident and the sessions are as
    they were before the request, the request is denied, and the
    requester may ask again at once: the next request is accepted. *)
Theorem X14_denial_unblocks newId newId' now now' now'' params auth answer
    denier st incidentId sessionId inc commanderUid :
  requestable params auth st incidentId sessionId inc commanderUid →
  truthy (Params.requestId answer) = Some newId →
  AuthContext.uid denier = commanderUid →
  let req := newRequest now auth incidentId sessionId commanderUid in
  ∃ st1 st2,
    requestIncidentCommand newId now params auth st = (Ok (newId, req), st1)
    ∧ denyCommandRequest now' answer denier st1 = (Ok "Request denied.", st2)
    ∧ incidents st2 = incidents st
    ∧ sessions st2 = sessions st
    ∧ commandRequests st2
      = <[newId := CommandRequest.setStatus "denied" req]>
          (commandRequests st)
    ∧ ∃ st3,
        requestIncidentCommand newId' now'' params auth st2
        = (Ok (newId',
               newRequest now'' auth incidentId sessionId commanderUid),
           st3).
Proof.
  intros Hreq Hanswer Hdenier req.
  pose proof Hreq as (Hiid & Hsid & Hinc & Htenant & Hcmd & Hother & Hnone).
  destruct (requested_fields newId now auth incidentId sessionId
              commanderUid st) as (Hs1 & Hi1 & Hr1).
  set (st1 := requested newId now auth incidentId sessionId commanderUid st)
    in *.
  assert (commandRequests st1 !! newId = Some req) as Hlookup
    by (rewrite Hr1; apply lookup_insert_eq).
  destruct (denied_fields now' denier newId req st1) as (Hs2 & Hi2 & Hr2).
  assert (commandRequests (denied now' denier newId req st1)
          = <[newId := CommandRequest.setStatus "denied" req]>
              (commandRequests st)) as Hr
    by (rewrite Hr2, Hr1; apply insert_insert_eq).
  exists st1, (denied now' denier newId req st1).
  split; [by apply (requestIncidentCommand_granted _ _ _ _ _ _ _ inc)|].
  split; [by apply denyCommandRequest_authorized|].
  rewrite Hi2, Hs2, Hi1, Hs1.
  split; [done|]. split; [done|]. split; [done|].
  eexists. apply (requestIncidentCommand_granted _ _ _ _ _ _ _ inc).
  repeat split; try done; [by rewrite Hi2, Hi1|].
  by apply (answered_none_pending st _ incidentId newId req "denied").
Qed.

Lemma X14_denial_unblocks_witness :
  ∃ st1 st2,
    requestIncidentCommand "R1" 100 (Scenario.onIncident "I1" "B")
      Scenario.user2 Board.st
    = (Ok ("R1", newRequest 100 Scenario.user2 "I1" "B" "user1"), st1)
    ∧ denyCommandRequest 110 (Scenario.onRequest "R1") Scenario.user1 st1
      = (Ok "Request denied.", st2)
    ∧ incidents st2 = incidents Board.st
    ∧ sessions st2 = sessions Board.st
    ∧ commandRequests st2
      = <["R1" := CommandRequest.setStatus "denied"
                    (newRequest 100 Scenario.user2 "I1" "B" "user1")]>
          (commandRequests Board.st)
    ∧ ∃ st3,
        requestIncidentCommand "R2" 120 (Scenario.onIncident "I1" "B")
          Scenario.user2 st2
        = (Ok ("R2", newRequest 120 Scenario.user2 "I1" "B" "user1"), st3).
Proof.
  apply (X14_denial_unblocks "R1" "R2" 100 110 120
           (Scenario.onIncident "I1" "B") Scenario.user2
           (Scenario.onRequest "R1") Scenario.user1 Board.st
           "I1" "B" Board.incident1 "user1").
  - repeat split; try done.
    intros r (q & Hq & _). by vm_compute in Hq.
  - reflexivity.
  - reflexivity.
Defined.

(** ** The daily sweep *)

Lemma byLastActive_le a b :
  byLastActive a b = true →
  Session.lastActive a.2 <= Session.lastActive b.2.
Proof.
  unfold byLastActive.
  intros [?%Z.ltb_lt|[?%Z.eqb_eq _]%andb_prop]%orb_prop; lia.
Qed.

(** The snapshot of the daily sweep is in ascending order of
    [lastActive]. *)
Lemma olderThan_sorted threshold st :
  StronglySorted (λ a b, byLastActive a b = true) (olderThan threshold st).
Proof.
  apply sortBy_sorted.
  - intros a b. unfold byLastActive.
    destruct (Z.lt_total (Session.lastActive a.2) (Session.lastActive b.2))
      as [Hlt|[Heq|Hgt]].
    + left. apply orb_true_intro. left. by apply Z.ltb_lt.
    + destruct (String.leb_total a.1 b.1) as [Hle|Hle].
      * left. apply orb_true_intro. right.
        apply andb_true_intro. split; [by apply Z.eqb_eq|done].
      * right. apply orb_true_intro. right.
        apply andb_true_intro. split; [by apply Z.eqb_eq|done].
    + right. apply orb_true_intro. left. by apply Z.ltb_lt.
  - intros a b c. unfold byLastActive.
    intros [Hab%Z.ltb_lt|[Hab%Z.eqb_eq Hab']%andb_prop]%orb_prop
           [Hbc%Z.ltb_lt|[Hbc%Z.eqb_eq Hbc']%andb_prop]%orb_prop;
      apply orb_true_intro;
      try (left; apply Z.ltb_lt; lia).
    right. apply andb_true_intro. split; [apply Z.eqb_eq; lia|].
    apply Is_true_true in Hab', Hbc'. apply Is_true_true. by etrans.
Qed.

Lemma sorted_app_elem_of {B} (R : B → B → Prop) l1 l2 x y :
  StronglySorted R (l1 ++ l2) → x ∈ l1 → y ∈ l2 → R x y.
Proof.
  induction l1 as [|z l1 IH]; simpl; intros Hsorted Hx Hy.
  - by apply elem_of_nil in Hx.
  - apply StronglySorted_inv in Hsorted as [Hrest Hall].
    apply elem_of_cons in Hx as [->|Hx]; [|by apply IH].
    rewrite Forall_forall in Hall. apply Hall, elem_of_app. by right.
Qed.

Lemma size_deleteAll {A} ks (m : gmap string A) :
  (size m ≤ size (deleteAll ks m) + length ks)%nat.
Proof.
  revert m. induction ks as [|k ks IH]; intros m; simpl; [lia|].
  change (deleteAll (k :: ks) m) with (deleteAll ks (delete k m)).
  specialize (IH (delete k m)). rewrite map_size_delete in IH.
  destruct (m !! k); simpl in IH; lia.
Qed.

(** X15: the daily sweep.  A run always completes.  It deletes only
    sessions that have been silent for more than sixty days, at most
    four hundred of them and the longest silent first: no session it
    keeps has an earlier [lastActive] than one it deletes.  When at most
    four hundred sessions are that old none of them is left.  It writes
    nothing but the sessions collection, so an incident that records a
    deleted session keeps recording it. *)
Theorem X15_daily_sweep now st :
  let st' := exec (cleanupoldsessions now) st in
  cleanupoldsessions now st = (Ok tt, st')
  ∧ setSessions (λ _, sessions st) st' = st
  ∧ (∀ k, sessions st' !! k = sessions st !! k ∨ sessions st' !! k = None)
  ∧ (∀ k s, sessions st !! k = Some s →
            now - sixtyDaysInMs <= Session.lastActive s →
            sessions st' !! k = Some s)
  ∧ (size (sessions st) ≤ size (sessions st') + 400)%nat
  ∧ (∀ k s k' s',
       sessions st !! k = Some s → sessions st' !! k = None →
       sessions st' !! k' = Some s' →
       Session.lastActive s <= Session.lastActive s')
  ∧ ((length (olderThan (now - sixtyDaysInMs) st) ≤ 400)%nat →
     ∀ k s, sessions st' !! k = Some s →
            now - sixtyDaysInMs <= Session.lastActive s).
Proof.
  intros st'.
  assert (st' = setSessions (deleteAll (map fst (oldNow now st))) st) as ->
    by (unfold st', exec; by rewrite cleanupoldsessions_eq).
  split; [apply cleanupoldsessions_eq|]. split; [by destruct st|].
  simpl.
  assert (∀ k, k ∈ map fst (oldNow now st) →
               ∃ s, (k, s) ∈ oldNow now st ∧ sessions st !! k = Some s)
    as Hkeys.
  { intros k ([k' s] & -> & Hin)%list_elem_of_fmap. exists s.
    split; [done|].
    by apply (subseteq_take 400), elem_of_olderThan in Hin as [? _]. }
  split; [|split; [|split; [|split]]].
  - intros k. rewrite lookup_deleteAll. destruct (decide _); eauto.
  - intros k s Hs Hrecent. rewrite lookup_deleteAll.
    destruct (decide _) as [Hin|]; [|done].
    apply elem_of_oldNow_keys in Hin as (s' & Hs' & Hold).
    rewrite Hs in Hs'. injection Hs' as <-. lia.
  - pose proof (size_deleteAll (map fst (oldNow now st)) (sessions st)) as H.
    rewrite length_map in H. unfold oldNow in H at 2.
    pose proof (firstn_le_length 400 (olderThan (now - sixtyDaysInMs) st)).
    lia.
  - intros k s k' s' Hs. rewrite !lookup_deleteAll.
    destruct (decide (k ∈ _)) as [Hin|]; [intros _|congruence].
    destruct (decide (k' ∈ _)) as [|Hout]; [done|]. intros Hs'.
    destruct (Hkeys k Hin) as (s0 & Hin0 & Hs0).
    rewrite Hs in Hs0. injection Hs0 as <-.
    destruct (decide (Session.lastActive s' < now - sixtyDaysInMs))
      as [Hold|Hrecent].
    + assert ((k', s') ∈ olderThan (now - sixtyDaysInMs) st) as Hin'
        by (by apply elem_of_olderThan).
      rewrite <- (take_drop 400 (olderThan (now - sixtyDaysInMs) st)) in Hin'.
      apply elem_of_app in Hin' as [Htaken|Hdropped].
      { destruct Hout. apply list_elem_of_fmap. by exists (k', s'). }
      pose proof (olderThan_sorted (now - sixtyDaysInMs) st) as Hsorted.
      rewrite <- (take_drop 400 (olderThan (now - sixtyDaysInMs) st))
        in Hsorted.
      apply (byLastActive_le (k, s) (k', s')).
      by apply (sorted_app_elem_of _ _ _ _ _ Hsorted).
    + apply (subseteq_take 400), elem_of_olderThan in Hin0 as [_ Hold].
      lia.
  - intros Hfew k s. rewrite lookup_deleteAll.
    destruct (decide _) as [|Hout]; [done|]. intros Hs.
    destruct (decide (Session.lastActive s < now - sixtyDaysInMs))
      as [Hold|Hrecent]; [|lia].
    destruct Hout. apply list_elem_of_fmap. exists (k, s). split; [done|].
    unfold oldNow. rewrite take_ge by done. by apply elem_of_olderThan.
Qed.

Lemma X15_daily_sweep_witness :
  sessions (exec (cleanupoldsessions 100) Board.st) !! "A"
  = Some Board.sessionA.
Proof.
  destruct (X15_daily_sweep 100 Board.st) as (_ & _ & _ & Hkept & _).
  apply (Hkept "A" Board.sessionA).
  - reflexivity.
  - by vm_compute.
Defined.

(** ** Starting an incident *)

(** The decision tree of [startNewIncident], gate by gate. *)
Lemma startNewIncident_cases newId defaultNumber now query auth st :
  let customerId := AuthContext.customerId auth in
  let uid := AuthContext.uid auth in
  match truthy (Params.sessionId query) with
  | None =>
      startNewIncident newId defaultNumber now query auth st
      = (Err (HttpsError invalid_argument
                "A valid sessionId is required to start an incident."), st)
  | Some sessionId =>
      match customers st !! customerId with
      | None =>
          startNewIncident newId defaultNumber now query auth st
          = (Err (PlainError "Customer profile not found."), st)
      | Some c =>
          if maxCommandLicenses c <=? commandingCount customerId st then
            startNewIncident newId defaultNumber now query auth st
            = (Err (HttpsError permission_denied noLicenseMsg), st)
          else if bool_decide (activeUserIncidentsQuery customerId uid st = [])
          then
            startNewIncident newId defaultNumber now query auth st
            = (Ok (newId,
                   startedIncident defaultNumber now query auth sessionId),
               setIncidents
                 (insert newId
                    (startedIncident defaultNumber now query auth sessionId))
                 st)
          else
            startNewIncident newId defaultNumber now query auth st
            = (Err (HttpsError failed_precondition alreadyCommandingMsg), st)
      end
  end.
Proof.
  cbv zeta. unfold startNewIncident, commandingCount, startedIncident.
  unfoldM.
  destruct (truthy (Params.sessionId query)) as [sid|]; simpl; [|done].
  destruct (customers st !! _) as [c|]; simpl; [|done].
  destruct (_ <=? _); simpl; [done|].
  by case_bool_decide.
Qed.

Lemma activeUserIncidentsQuery_nil customerId uid st :
  activeUserIncidentsQuery customerId uid st = []
  ↔ ∀ j, ¬ commandsActive uid customerId st j.
Proof.
  unfold activeUserIncidentsQuery. rewrite take_1_nil, whereDocs_nil.
  simpl. split.
  - intros Hnone j (d & Hd & Hcid & Hact & Hu).
    specialize (Hnone j d Hd). by rewrite !bool_decide_eq_true_2 in Hnone.
  - intros Hnone j d Hd.
    destruct (bool_decide (Incident.customerId d = customerId)) eqn:Hcid,
             (bool_decide (Incident.commanderUid d = Some uid)) eqn:Hu,
             (bool_decide (Incident.status d = "Active")) eqn:Hact;
      try done.
    apply bool_decide_eq_true in Hcid, Hu, Hact.
    destruct (Hnone j). by exists d.
Qed.

(** The store after the recorded commander has closed the incident. *)
Lemma closeIncident_closed now params auth st incidentId inc :
  truthy (Params.incidentId params) = Some incidentId →
  incidents st !! incidentId = Some inc →
  Incident.customerId inc = AuthContext.customerId auth →
  Incident.commanderUid inc = Some (AuthContext.uid auth) →
  ∃ msg st',
    closeIncident now params auth st = (Ok msg, st')
    ∧ incidents st' = <[incidentId := Incident.close now inc]> (incidents st)
    ∧ customers st' = customers st
    ∧ sessions st' = sessions st.
Proof.
  intros Hiid Hinc Htenant Hcmd.
  destruct (closeIncident_commits now params auth st incidentId inc)
    as (msg & st' & Hcall & Hcommit); try done.
  exists msg, st'. split; [done|].
  pose proof (commit_customers _ _ _ Hcommit) as Hcust.
  destruct (closeBatch_unitWrites now incidentId
              (assignQuery (AuthContext.customerId auth) incidentId st) st)
    as (front & Hfront & Hunit).
  rewrite Hfront, commit_app in Hcommit.
  destruct (commit front st) as [stF|] eqn:HF; simpl in Hcommit; [|done].
  destruct (commit_unitWrites _ _ _ Hunit HF) as [Hi Hs].
  rewrite Hi, Hinc in Hcommit. simpl in Hcommit. injection Hcommit as <-.
  simpl in *. by rewrite Hi.
Qed.

(** X16: one incident at a time, from start to close.  Once
    [startNewIncident] has succeeded, every further [startNewIncident]
    of the same caller is refused and writes nothing; the caller can
    close the incident; that gives back the license it used; and the
    caller can then start an incident again. *)
Theorem X16_start_close_start newId newId' defaultNumber defaultNumber'
    now now' now'' query closing auth st inc st1 :
  startNewIncident newId defaultNumber now query auth st
  = (Ok (newId, inc), st1) →
  incidents st !! newId = None →
  truthy (Params.incidentId closing) = Some newId →
  (∀ id2 number2 now2 query2,
     ∃ e, startNewIncident id2 number2 now2 query2 auth st1 = (Err e, st1))
  ∧ ∃ msg st2,
      closeIncident now' closing auth st1 = (Ok msg, st2)
      ∧ commandingCount (AuthContext.customerId auth) st2
        = commandingCount (AuthContext.customerId auth) st
      ∧ ∃ inc' st3,
          startNewIncident newId' defaultNumber' now'' query auth st2
          = (Ok (newId', inc'), st3).
Proof.
  intros Hstart Hfresh Hclosing.
  pose proof (startNewIncident_cases newId defaultNumber now query auth st)
    as Hcases. cbv zeta in Hcases.
  destruct (truthy (Params.sessionId query)) as [sid|] eqn:Hsid;
    [|congruence].
  destruct (customers st !! _) as [c|] eqn:Hc; [|congruence].
  destruct (Z.leb_spec (maxCommandLicenses c)
              (commandingCount (AuthContext.customerId auth) st))
    as [|Hfree]; [congruence|].
  case_bool_decide as Hnone; [|congruence].
  rewrite Hcases in Hstart. injection Hstart as <- <-.
  rewrite activeUserIncidentsQuery_nil in Hnone.
  set (inc := startedIncident defaultNumber now query auth sid).
  set (st1 := setIncidents (insert newId inc) st).
  assert (commandsActive (AuthContext.uid auth) (AuthContext.customerId auth)
            st1 newId) as Hcommands.
  { exists inc. split; [apply lookup_insert_eq|done]. }
  split.
  - intros id2 number2 now2 query2.
    pose proof (startNewIncident_cases id2 number2 now2 query2 auth st1)
      as H2. cbv zeta in H2.
    destruct (truthy (Params.sessionId query2)); [|eauto].
    destruct (customers st1 !! _); [|eauto].
    destruct (_ <=? _); [eauto|].
    case_bool_decide as Hnone2; [|eauto].
    rewrite activeUserIncidentsQuery_nil in Hnone2.
    by destruct (Hnone2 newId).
  - destruct (closeIncident_closed now' closing auth st1 newId inc)
      as (msg & st2 & Hclose & Hi2 & Hc2 & _);
      [done|apply lookup_insert_eq|done|done|].
    exists msg, st2. split; [done|].
    assert (incidents st2 = <[newId := Incident.close now' inc]> (incidents st))
      as Hi by (rewrite Hi2; apply insert_insert_eq).
    assert (commandingCount (AuthContext.customerId auth) st2
            = commandingCount (AuthContext.customerId auth) st) as Hcount.
    { rewrite (commandingCount_insert _ st st2 newId
                 (Incident.close now' inc) Hfresh Hi).
      assert (holdsLicense (AuthContext.customerId auth)
                (Incident.close now' inc) = false) as ->
        by (unfold holdsLicense; simpl; apply andb_false_r).
      lia. }
    split; [done|].
    pose proof (startNewIncident_cases newId' defaultNumber' now'' query
                  auth st2) as H3. cbv zeta in H3.
    rewrite Hsid, Hc2 in H3. simpl in H3. rewrite Hc, Hcount in H3.
    destruct (Z.leb_spec (maxCommandLicenses c)
                (commandingCount (AuthContext.customerId auth) st))
      as [|_]; [lia|].
    rewrite bool_decide_eq_true_2 in H3; [eauto|].
    apply activeUserIncidentsQuery_nil.
    intros j (d & Hd & Hcid & Hact & Hu). rewrite Hi in Hd.
    destruct (decide (j = newId)) as [->|Hne].
    + rewrite lookup_insert_eq in Hd. injection Hd as <-. done.
    + rewrite lookup_insert_ne in Hd by done.
      apply (Hnone j). by exists d.
Qed.

Lemma X16_start_close_start_witness :
  (∀ id2 number2 now2 query2,
     ∃ e, startNewIncident id2 number2 now2 query2 Scenario.user1
            Scenario.st2 = (Err e, Scenario.st2))
  ∧ ∃ msg st2,
      closeIncident 40 (Scenario.onIncident "I1" "A") Scenario.user1
        Scenario.st2 = (Ok msg, st2)
      ∧ commandingCount "T" st2 = commandingCount "T" Scenario.st1
      ∧ ∃ inc' st3,
          startNewIncident "I2" "20260101-0001" 50
            (Scenario.withSession "A") Scenario.user1 st2
          = (Ok ("I2", inc'), st3).
Proof.
  apply (X16_start_close_start "I1" "I2" "20260101-0000" "20260101-0001"
           10 40 50 (Scenario.withSession "A")
           (Scenario.onIncident "I1" "A") Scenario.user1 Scenario.st1
           (startedIncident "20260101-0000" 10 (Scenario.withSession "A")
              Scenario.user1 "A") Scenario.st2).
  - by vm_compute.
  - by vm_compute.
  - reflexivity.
Defined.

(** ** Authorization of a request *)

Lemma prefix_Bearer_hasSpace s :
  String.prefix "Bearer " s = true → hasSpace s = true.
Proof.
  intros H%String.prefix_correct. simpl in H.
  do 7 (destruct s as [|? s]; [done|]; simpl in H; injection H as -> H).
  reflexivity.
Qed.

Lemma untilSep_no_space t :
  hasSpace t = false → untilSep "Bearer " t = t.
Proof.
  induction t as [|c t IH]; [done|]. intros Hno.
  change (untilSep "Bearer " (String c t))
    with (if String.prefix "Bearer " (String c t) then EmptyString
          else String c (untilSep "Bearer " t)).
  destruct (String.prefix "Bearer " (String c t)) eqn:Hp.
  - apply prefix_Bearer_hasSpace in Hp. congruence.
  - simpl in Hno. apply orb_false_elim in Hno as [_ Hno]. by rewrite IH.
Qed.

(** The token of a well-formed header is what follows the scheme. *)
Lemma secondPiece_Bearer (token : string) :
  hasSpace token = false →
  secondPiece "Bearer " ("Bearer " ++ token)%string = Some token.
Proof.
  intros Hno. unfold secondPiece.
  assert (afterSep "Bearer " ("Bearer " ++ token)%string = Some token)
    as ->.
  { destruct token; reflexivity. }
  simpl. by rewrite untilSep_no_space.
Qed.

Lemma orString_ne x d : d ≠ "" → orString x d ≠ "".
Proof.
  intros Hd. unfold orString.
  destruct (truthy x) as [s|] eqn:Hx; [|done]. by apply truthy_ne in Hx.
Qed.

(** X17: the authorization context.  Whatever goes wrong inside
    [getAuthContextFromIdToken], the caller only ever sees the code
    unauthenticated: the not-found, permission-denied and internal
    errors raised for a missing user, an inactive user and a user
    without customer are caught and replaced.  A context is returned
    only for a Bearer header whose token verifies to the uid of an
    Active user with a customer id; that customer id, the plan level and
    the name of the context are never empty, the latter two defaulting
    to Basic and Unknown User.  A header made of the scheme and a token
    without spaces hands that token to the verifier, and yields the
    context when the token verifies to such a user. *)
Theorem X17_auth_context verifyIdToken users authorization :
  match getAuthContextFromIdToken verifyIdToken users authorization with
  | Err e => e = noTokenError ∨ e = badTokenError
  | Ok a =>
      AuthContext.customerId a ≠ ""
      ∧ AuthContext.planLevel a ≠ ""
      ∧ AuthContext.name a ≠ ""
      ∧ ∃ header u,
          authorization = Some header
          ∧ String.prefix "Bearer " header = true
          ∧ verifyIdToken (secondPiece "Bearer " header)
            = Ok (AuthContext.uid a)
          ∧ users !! AuthContext.uid a = Some u
          ∧ User.status u = Some "Active"
          ∧ User.customerId u = Some (AuthContext.customerId a)
          ∧ AuthContext.planLevel a = orString (User.planLevel u) "Basic"
          ∧ AuthContext.name a = orString (User.name u) "Unknown User"
  end
  ∧ ∀ (token uid customerId : string) u,
      hasSpace token = false →
      verifyIdToken (Some token) = Ok uid →
      users !! uid = Some u →
      User.status u = Some "Active" →
      truthy (User.customerId u) = Some customerId →
      getAuthContextFromIdToken verifyIdToken users
        (Some ("Bearer " ++ token)%string)
      = Ok (AuthContext.mk uid customerId
              (orString (User.planLevel u) "Basic")
              (orString (User.name u) "Unknown User")).
Proof.
  split.
  - unfold getAuthContextFromIdToken.
    destruct authorization as [header|]; simpl; [|by left].
    case_bool_decide as Hempty; [by left|].
    destruct (String.prefix "Bearer " header) eqn:Hprefix; [|by left].
    destruct (verifyIdToken _) as [uid|e] eqn:Hverify; [|by right].
    destruct (users !! uid) as [u|] eqn:Hu; [|by right].
    case_bool_decide as Hactive; simpl; [|by right].
    destruct (User.customerId u) as [cid|] eqn:Hcid; simpl; [|by right].
    case_bool_decide as Hcid'; simpl; [by right|].
    split; [done|]. split; [by apply orString_ne|].
    split; [by apply orString_ne|].
    exists header, u. by repeat split.
  - intros token uid cid u Hno Hverify Hu Hactive Hcid.
    unfold getAuthContextFromIdToken.
    rewrite (truthy_Some ("Bearer " ++ token)%string) by (by destruct token).
    assert (String.prefix "Bearer " ("Bearer " ++ token)%string = true) as ->
      by (by destruct token).
    rewrite secondPiece_Bearer by done. rewrite Hverify, Hu, Hcid.
    by rewrite bool_decide_eq_true_2.
Qed.

Lemma X17_auth_context_witness :
  getAuthContextFromIdToken
    (λ t, if bool_decide (t = Some "tok") then Ok "user1"
          else Err (PlainError "auth/argument-error"))
    {["user1" := User.mk (Some "Active") (Some "T") None (Some "User One")]}
    (Some "Bearer tok")
  = Ok Scenario.user1.
Proof.
  apply (proj2 (X17_auth_context
           (λ t, if bool_decide (t = Some "tok") then Ok "user1"
                 else Err (PlainError "auth/argument-error"))
           {["user1" := User.mk (Some "Active") (Some "T") None
                          (Some "User One")]} None)
           "tok" "user1" "T"
           (User.mk (Some "Active") (Some "T") None (Some "User One")));
    reflexivity.
Defined.

(** ** The audit trail *)

Lemma logged_entry e st :
  LogEntry.customerId e ≠ "" →
  LogEntry.incidentId e ≠ "" →
  LogEntry.eventType e ≠ "" →
  logged e st = setIncidentLog (λ l, l ++ [e]) st.
Proof.
  intros Hc Hi He. unfold logged, exec, logIncidentAction.
  by rewrite !bool_decide_eq_false_2.
Qed.

Lemma commit_incidentLog ws st st' :
  commit ws st = Some st' → incidentLog st' = incidentLog st.
Proof.
  revert st. induction ws as [|w ws IH]; intros st; simpl.
  - by intros [= ->].
  - destruct (applyWrite w st) as [st1|] eqn:Hw; simpl; [|done].
    intros Hc. rewrite (IH _ Hc).
    destruct w; simpl in Hw;
      repeat match goal with
      | H : (?o ≫= _) = Some _ |- _ => destruct o; simpl in H
      end; by simplify_eq.
Qed.

(** X18: what the incident log records.  A handoff is always on
    record: for a caller with a customer id, every successful
    [requestIncidentCommand], [approveCommandRequest],
    [denyCommandRequest] (of a request that names an incident) and
    [reestablishCommand] appends exactly one entry, of its own event
    type.  A change of commander by [takeIncidentCommand],
    [startNewIncident], [closeIncident] or the sweeps is never on
    record, and neither are logins, logouts and heartbeats: these
    handlers leave the log as it was. *)
Theorem X18_audit_trail now params auth st :
  ((∀ newId,
      incidentLog (exec (createSession newId now auth) st) = incidentLog st)
   ∧ incidentLog (exec (endSession params auth) st) = incidentLog st
   ∧ incidentLog (exec (sessionHeartbeat now params auth) st)
     = incidentLog st
   ∧ incidentLog (exec (takeIncidentCommand params auth) st)
     = incidentLog st
   ∧ (∀ newId defaultNumber,
        incidentLog
          (exec (startNewIncident newId defaultNumber now params auth) st)
        = incidentLog st)
   ∧ incidentLog (exec (closeIncident now params auth) st) = incidentLog st
   ∧ incidentLog (exec (cleanupstalecommandsessions now) st)
     = incidentLog st
   ∧ incidentLog (exec (cleanupoldsessions now) st) = incidentLog st)
  ∧ (AuthContext.customerId auth ≠ "" →
     (∀ newId r st',
        requestIncidentCommand newId now params auth st = (Ok r, st') →
        incidentLog st'
        = incidentLog st
          ++ [requestEntry now auth (CommandRequest.incidentId r.2)
                (CommandRequest.currentCommanderUid r.2)])
     ∧ (∀ r st',
          reestablishCommand now params auth st = (Ok r, st') →
          ∃ incidentId sessionId,
            truthy (Params.incidentId params) = Some incidentId
            ∧ truthy (Params.sessionId params) = Some sessionId
            ∧ incidentLog st'
              = incidentLog st
                ++ [reestablishEntry now auth incidentId sessionId])
     ∧ (∀ r st',
          approveCommandRequest now params auth st = (Ok r, st') →
          ∃ requestId req,
            truthy (Params.requestId params) = Some requestId
            ∧ commandRequests st !! requestId = Some req
            ∧ incidentLog st'
              = incidentLog st ++ [approvalEntry now auth req])
     ∧ (∀ r st',
          denyCommandRequest now params auth st = (Ok r, st') →
          ∃ requestId req,
            truthy (Params.requestId params) = Some requestId
            ∧ commandRequests st !! requestId = Some req
            ∧ (CommandRequest.incidentId req ≠ "" →
               incidentLog st'
               = incidentLog st ++ [denialEntry now auth req]))).
Proof.
  split.
  - split; [|split; [|split; [|split; [|split; [|split; [|split]]]]]].
    + intros newId.
      pose proof (createSession_cases newId now auth st) as H.
      cbv zeta in H. unfold exec.
      destruct (customers st !! _); [|by rewrite H].
      destruct (_ <? _); [by rewrite H|].
      destruct (reentryTarget _ _ _); [by rewrite H|].
      destruct (fold_left _ _ _); by rewrite H.
    + destruct (endSession_effect params auth st)
        as [[_ H]|(sid & _ & [(s & _ & _ & H)|[_ H]])];
        unfold exec; by rewrite H.
    + destruct (sessionHeartbeat_effect now params auth st)
        as [[e He]|(sid & s & _ & _ & _ & H)]; unfold exec;
        [by rewrite He|by rewrite H].
    + unfold exec.
      destruct (takeIncidentCommand params auth st) as [[r|e] st'] eqn:Hcall;
        simpl.
      * by apply takeIncidentCommand_Ok in Hcall
          as (? & ? & ? & ? & _ & _ & _ & _ & _ & _ & _ & ->).
      * by apply takeIncidentCommand_Err in Hcall as ->.
    + intros newId defaultNumber.
      by destruct (startNewIncident_effect newId defaultNumber now params
                     auth st) as [->|(inc & -> & _)].
    + unfold closeIncident, getAndVerifyDoc. unfoldM.
      destruct (truthy (Params.incidentId params)) as [iid|]; simpl; [|done].
      destruct (incidents st !! iid) as [inc|] eqn:Hinc; simpl; [|done].
      case_bool_decide; simpl; [|done].
      case_bool_decide; simpl; [|done].
      case_bool_decide; simpl.
      * by rewrite Hinc.
      * destruct (commit _ st) as [st'|] eqn:Hcommit; simpl; [|done].
        by apply commit_incidentLog in Hcommit.
    + unfold exec. by rewrite cleanupstalecommandsessions_eq.
    + unfold exec. by rewrite cleanupoldsessions_eq.
  - intros Hcid. split; [|split; [|split]].
    + intros newId r st'.
      unfold requestIncidentCommand, getAndVerifyDoc. unfoldM.
      destruct (truthy (Params.incidentId params)) as [iid|] eqn:Hiid;
        [|done].
      destruct (truthy (Params.sessionId params)) as [sid|]; [|done].
      destruct (incidents st !! iid) as [inc|]; simpl; [|done].
      case_bool_decide; simpl; [|done].
      destruct (truthy (Incident.commanderUid inc)) as [cmd|]; simpl;
        [|done].
      case_bool_decide; simpl; [done|].
      case_bool_decide; simpl; [|done].
      rewrite logIncidentAction_eq. intros [= <- <-]. simpl.
      rewrite logged_entry; [done|done| |done].
      simpl. by apply truthy_ne in Hiid.
    + intros r st'. unfold reestablishCommand. unfoldM.
      destruct (truthy (Params.incidentId params)) as [iid|] eqn:Hiid;
        [|done].
      destruct (truthy (Params.sessionId params)) as [sid|]; [|done].
      destruct (incidents st !! iid) as [inc|] eqn:Hinc; simpl; [|done].
      case_bool_decide; simpl; [|done].
      rewrite logIncidentAction_eq.
      rewrite logged_entry; [|done| |done];
        [|simpl; by apply truthy_ne in Hiid].
      simpl. rewrite Hinc. simpl. intros [= <- <-].
      by exists iid, sid.
    + intros r st'. unfold approveCommandRequest. unfoldM.
      destruct (truthy (Params.requestId params)) as [rid|]; simpl; [|done].
      destruct (commandRequests st !! rid) as [req|] eqn:Hreq; simpl;
        [|done].
      case_bool_decide; simpl; [|done].
      destruct (truthy (CommandRequest.requesterSessionId req)) as [sid|];
        simpl; [|done].
      case_bool_decide as Hempty; simpl; [done|].
      rewrite logIncidentAction_eq.
      rewrite logged_entry by done. simpl.
      destruct (incidents st !! _) as [inc|]; simpl; [|done].
      rewrite Hreq. simpl. intros [= <- <-]. by exists rid, req.
    + intros r st'. unfold denyCommandRequest. unfoldM.
      destruct (truthy (Params.requestId params)) as [rid|]; simpl; [|done].
      destruct (commandRequests st !! rid) as [req|] eqn:Hreq; simpl;
        [|done].
      case_bool_decide; simpl; [|done].
      rewrite Hreq. simpl. rewrite logIncidentAction_eq.
      intros [= <- <-]. exists rid, req. split; [done|]. split; [done|].
      intros Hiid. by rewrite logged_entry.
Qed.

Lemma X18_audit_trail_witness :
  incidentLog Handoff.st1
  = incidentLog Board.st
    ++ [requestEntry 100 Scenario.user2 "I1" "user1"].
Proof.
  destruct (X18_audit_trail 100 (Scenario.onIncident "I1" "B")
              Scenario.user2 Board.st) as [_ Hlogged].
  destruct Hlogged as (Hrequest & _); [done|].
  apply (Hrequest "R1" ("R1", Handoff.request1) Handoff.st1).
  by vm_compute.
Defined.

(** ** The command board *)

Lemma truthy_Some_inv x s : truthy x = Some s → x = Some s.
Proof.
  destruct x as [s'|]; simpl; [|done]. case_bool_decide; congruence.
Qed.

(** What selecting an incident yields. *)
Lemma getIncidentDetails_Ok params customerId st current st' :
  getIncidentDetails params customerId st = (Ok current, st') →
  st' = st
  ∧ truthy (Params.incidentId params) = Some current.1
  ∧ ∃ inc, incidents st !! current.1 = Some inc
           ∧ Incident.customerId inc = customerId
           ∧ current.2
             = Incident.setCommanderSessionId
                 (truthy (Incident.commanderSessionId inc)) inc.
Proof.
  unfold getIncidentDetails, getAndVerifyDoc. unfoldM.
  destruct (truthy (Params.incidentId params)) as [iid|]; simpl; [|done].
  destruct (incidents st !! iid) as [inc|] eqn:Hinc; simpl; [|done].
  case_bool_decide; simpl; [|done].
  intros [= <- <-]. split; [done|]. split; [done|]. by exists inc.
Qed.

(** X19: what the action button of the command board can do.  For a
    device logged in as the caller, selecting an incident and clicking
    the button makes at most one call, on the same store:
    [reestablishCommand] only when the incident already records the
    caller and this very session, so that the call succeeds and leaves
    every incident and session as it was; [requestIncidentCommand] only
    off the Basic plan and for an incident commanded by somebody else,
    so that the call is accepted or answered already-exists;
    [takeIncidentCommand] only for an incident without commander.  A
    commander whose incident records another session is offered no call
    at all. *)
Theorem X19_board_actions app auth selected confirmed now newId st :
  App.uid app = AuthContext.uid auth →
  App.uid app ≠ "" →
  match selectAndClick app auth selected confirmed st with
  | Some (CallReestablishCommand incidentId sessionId) =>
      ∃ st',
        reestablishCommand now (callParams incidentId sessionId) auth st
        = (Ok "command_reestablished", st')
        ∧ incidents st' = incidents st
        ∧ sessions st' = sessions st
  | Some (CallRequestIncidentCommand incidentId sessionId) =>
      App.planLevel app ≠ "Basic"
      ∧ ((∃ r st',
            requestIncidentCommand newId now
              (callParams incidentId sessionId) auth st = (Ok r, st'))
         ∨ requestIncidentCommand newId now
             (callParams incidentId sessionId) auth st
           = (Err (HttpsError already_exists pendingMsg), st))
  | Some (CallTakeIncidentCommand incidentId sessionId) =>
      ∃ inc, incidents st !! incidentId = Some inc
             ∧ truthy (Incident.commanderUid inc) = None
  | None => True
  end
  ∧ ∀ inc,
      incidents st !! selected = Some inc →
      Incident.commanderUid inc = Some (App.uid app) →
      truthy (Incident.commanderSessionId inc) ≠ App.sessionId app →
      selectAndClick app auth selected confirmed st = None.
Proof.
  intros Huid Hne. unfold selectAndClick.
  destruct (getIncidentDetails _ _ st) as [[[iid cur]|e] st'] eqn:Hget;
    [|by split].
  apply getIncidentDetails_Ok in Hget
    as (-> & Hsel & inc & Hinc & Htenant & Hcur).
  simpl in Hinc, Hcur.
  change (truthy (Some selected) = Some iid) in Hsel.
  assert (selected = iid) as ->.
  { apply truthy_Some_inv in Hsel. by injection Hsel. }
  assert (Incident.commanderUid cur = Incident.commanderUid inc) as Hcmd
    by (by rewrite Hcur).
  assert (Incident.commanderSessionId cur
          = truthy (Incident.commanderSessionId inc)) as Hsess
    by (by rewrite Hcur).
  unfold handleTakeCommandClick, incidentButtons. simpl.
  rewrite Hcmd, Hsess.
  destruct (truthy (App.sessionId app)) as [sid|] eqn:Hsid.
  2:{ split; [done|]. intros; done. }
  apply truthy_Some_inv in Hsid as Hsid'.
  destruct (truthy (Incident.commanderUid inc)) as [cmd|] eqn:Hcmd'.
  - apply truthy_Some_inv in Hcmd' as Hcmd''.
    rewrite (bool_decide_eq_true_2 (is_Some (Some cmd))) by eauto. simpl.
    destruct (decide (Incident.commanderUid inc = Some (App.uid app)))
      as [Hmine|Hother].
    + rewrite (bool_decide_eq_true_2 _ Hmine). simpl.
      destruct (decide (truthy (Incident.commanderSessionId inc)
                        = App.sessionId app)) as [Hhere|Helsewhere].
      * rewrite (bool_decide_eq_true_2 _ Hhere). simpl.
        split; [|intros inc0 Hinc0 _ Hneq; rewrite Hinc in Hinc0;
                 by injection Hinc0 as <-].
        rewrite Hsid' in Hhere. apply truthy_Some_inv in Hhere.
        eexists. split; [|split].
        -- apply (reestablishCommand_granted now _ auth st iid sid inc);
             [apply truthy_Some; by apply truthy_ne in Hsel
             |apply truthy_Some; by apply truthy_ne in Hsid
             |done|by rewrite <- Huid].
        -- simpl.
           destruct (logged_fields (reestablishEntry now auth iid sid) st)
             as (_ & _ & -> & _).
           apply insert_id. rewrite Hinc. f_equal.
           destruct inc; simpl in *. by rewrite Hhere.
        -- simpl.
           by destruct (logged_fields (reestablishEntry now auth iid sid) st)
             as (_ & -> & _).
      * rewrite (bool_decide_eq_false_2 _ Helsewhere). simpl.
        split; [done|]. intros; done.
    + rewrite (bool_decide_eq_false_2 _ Hother). simpl.
      split; [|intros inc' Hinc'; rewrite Hinc in Hinc'; congruence].
      destruct (decide (App.planLevel app = "Basic")) as [Hbasic|Hbasic];
        [by rewrite (bool_decide_eq_true_2 _ Hbasic)|].
      rewrite (bool_decide_eq_false_2 _ Hbasic). simpl.
      split; [done|].
      unfold requestIncidentCommand, getAndVerifyDoc. unfoldM.
      change (Params.incidentId (callParams iid sid)) with (Some iid).
      change (Params.sessionId (callParams iid sid)) with (Some sid).
      rewrite (truthy_Some iid) by (by apply truthy_ne in Hsel).
      rewrite (truthy_Some sid) by (by apply truthy_ne in Hsid).
      simpl. rewrite Hinc; simpl.
      rewrite bool_decide_eq_true_2 by done. simpl.
      rewrite Hcmd'. simpl.
      rewrite bool_decide_eq_false_2 by congruence. simpl.
      case_bool_decide; simpl; [|by right].
      rewrite logIncidentAction_eq. left. eauto.
  - rewrite (bool_decide_eq_false_2 (is_Some None)) by (by intros [? ?]).
    simpl. split.
    + by exists inc.
    + intros inc' Hinc' Hmine. rewrite Hinc in Hinc'. injection Hinc' as <-.
      rewrite Hmine in Hcmd'. simpl in Hcmd'.
      by rewrite bool_decide_eq_false_2 in Hcmd'.
Qed.

Lemma X19_board_actions_witness :
  selectAndClick (App.mk "user1" (Some "B") "Basic") Scenario.user1 "I1"
    true Scenario.st3 = None.
Proof.
  apply (proj2 (X19_board_actions (App.mk "user1" (Some "B") "Basic")
                  Scenario.user1 "I1" true 30 "R1" Scenario.st3
                  eq_refl ltac:(done))
           (Incident.mk "20260101-0000" None 10 "Active" None "T"
              (Some "user1") (Some "A"))).
  - by vm_compute.
  - reflexivity.
  - done.
Defined.

(** ** Taking command from another commander *)

(** X20: a free license is all it takes to displace a commander.  When
    the tenant has a license to spare, a caller with a session of their
    own who commands no other incident of the tenant takes the command
    of an Active incident that somebody else commands: the call
    succeeds, the incident records the caller and the calling session,
    the number of licenses in use does not change, and neither a request
    nor a log entry is written. *)
Theorem X20_take_from_commander params auth st incidentId sessionId s c inc
    other :
  truthy (Params.incidentId params) = Some incidentId →
  truthy (Params.sessionId params) = Some sessionId →
  sessions st !! sessionId = Some s →
  Session.uid s = AuthContext.uid auth →
  customers st !! AuthContext.customerId auth = Some c →
  incidents st !! incidentId = Some inc →
  Incident.customerId inc = AuthContext.customerId auth →
  Incident.status inc = "Active" →
  Incident.commanderUid inc = Some other →
  other ≠ AuthContext.uid auth →
  commandingCount (AuthContext.customerId auth) st < maxCommandLicenses c →
  userIncidentsQuery (AuthContext.customerId auth) (AuthContext.uid auth)
    incidentId st = [] →
  ∃ st',
    takeIncidentCommand params auth st = (Ok "command_granted", st')
    ∧ incidents st'
      = <[incidentId :=
            Incident.setCommand (Some (AuthContext.uid auth))
              (Some sessionId) inc]> (incidents st)
    ∧ commandingCount (AuthContext.customerId auth) st'
      = commandingCount (AuthContext.customerId auth) st
    ∧ commandRequests st' = commandRequests st
    ∧ incidentLog st' = incidentLog st
    ∧ sessions st' = sessions st.
Proof.
  intros Hiid Hsid Hs Hown Hc Hinc Htenant Hactive Hother Hne Hfree Hnone.
  rewrite (takeIncidentCommand_gates params auth st incidentId sessionId s c
             inc) by done.
  destruct (Z.leb_spec (maxCommandLicenses c)
              (commandingCount (AuthContext.customerId auth) st))
    as [|_]; [lia|].
  simpl. rewrite Hnone. rewrite bool_decide_eq_true_2 by done. simpl.
  eexists. split; [done|]. split; [done|].
  split; [|done].
  pose proof (commandingCount_update (AuthContext.customerId auth) st
    (grantCommand incidentId (AuthContext.uid auth) sessionId inc st)
    incidentId inc _ Hinc eq_refl) as Hcount.
  assert (holdsLicense (AuthContext.customerId auth) inc = true) as Hold.
  { unfold holdsLicense. rewrite Hother.
    rewrite !bool_decide_eq_true_2 by eauto. done. }
  rewrite Hold, (holdsLicense_setCommand _ _ _ _ Hold) in Hcount. lia.
Qed.

Lemma X20_take_from_commander_witness :
  ∃ st',
    takeIncidentCommand (Scenario.onIncident "I1" "C") Crowd.user3 Crowd.st2
    = (Ok "command_granted", st')
    ∧ incidents st'
      = <["I1" := Incident.setCommand (Some "user3") (Some "C")
                    (Incident.mk "20260101-0010" None 10 "Active" None "T"
                       (Some "user1") (Some "A"))]> (incidents Crowd.st2)
    ∧ commandingCount "T" st' = commandingCount "T" Crowd.st2
    ∧ commandRequests st' = commandRequests Crowd.st2
    ∧ incidentLog st' = incidentLog Crowd.st2
    ∧ sessions st' = sessions Crowd.st2.
Proof.
  apply (X20_take_from_commander (Scenario.onIncident "I1" "C") Crowd.user3
           Crowd.st2 "I1" "C" (Session.mk "user3" "T" 4 4) Crowd.tenant
           (Incident.mk "20260101-0010" None 10 "Active" None "T"
              (Some "user1") (Some "A")) "user1");
    try reflexivity; done.
Defined.

(** ** The incident lists *)

Lemma onActiveList_iff customerId st id :
  onActiveList customerId st id
  ↔ ∃ inc, incidents st !! id = Some inc
           ∧ Incident.customerId inc = customerId
           ∧ Incident.status inc = "Active".
Proof.
  unfold onActiveList, getActiveIncidents, gets. split.
  - intros (l & [= <-] & Hin). rewrite map_map in Hin. simpl in Hin.
    apply list_elem_of_fmap in Hin as ([k inc] & -> & Hin).
    apply elem_of_whereDocs in Hin as [Hk Hp]. simpl in Hp.
    apply andb_prop in Hp as [Hc Ha]. apply bool_decide_eq_true in Hc, Ha.
    by exists inc.
  - intros (inc & Hk & Hc & Ha). eexists. split; [done|].
    rewrite map_map. simpl. apply list_elem_of_fmap. exists (id, inc).
    split; [done|]. apply elem_of_whereDocs. split; [done|]. simpl.
    by rewrite !bool_decide_eq_true_2.
Qed.

Lemma elem_of_closed customerId st id inc :
  (id, inc) ∈ sortBy byEndTimeDesc
      (whereDocs (λ d,
         bool_decide (Incident.customerId d.2 = customerId)
         && bool_decide (Incident.status d.2 = "Closed")) (incidents st))
  ↔ incidents st !! id = Some inc
    ∧ Incident.customerId inc = customerId
    ∧ Incident.status inc = "Closed".
Proof.
  rewrite sortBy_perm, elem_of_whereDocs. simpl.
  rewrite andb_true_iff, !bool_decide_eq_true. tauto.
Qed.

Lemma onClosedList_iff customerId st id :
  onClosedList customerId st id
  ↔ ∃ inc, incidents st !! id = Some inc
           ∧ Incident.customerId inc = customerId
           ∧ Incident.status inc = "Closed".
Proof.
  unfold onClosedList, getClosedIncidents, gets. split.
  - intros (l & [= <-] & Hin).
    apply list_elem_of_fmap in Hin as ([k inc] & -> & Hin).
    apply elem_of_closed in Hin. by exists inc.
  - intros (inc & Hin). eexists. split; [done|].
    apply list_elem_of_fmap. exists (id, inc). split; [done|].
    by apply elem_of_closed.
Qed.

(** The Closed list is in the order of [byEndTimeDesc]. *)
Lemma closed_sorted l :
  StronglySorted (λ a b, byEndTimeDesc a b = true) (sortBy byEndTimeDesc l).
Proof.
  apply sortBy_sorted.
  - intros a b. unfold byEndTimeDesc.
    destruct (Incident.endTime a.2) as [x|], (Incident.endTime b.2) as [y|];
      [|by left|by right|].
    + destruct (Z.lt_total x y) as [Hlt|[Heq|Hgt]].
      * right. apply orb_true_intro. left. by apply Z.ltb_lt.
      * destruct (String.leb_total a.1 b.1) as [Hle|Hle].
        -- right. apply orb_true_intro. right.
           apply andb_true_intro. split; [by apply Z.eqb_eq|done].
        -- left. apply orb_true_intro. right.
           apply andb_true_intro. split; [by apply Z.eqb_eq|done].
      * left. apply orb_true_intro. left. by apply Z.ltb_lt.
    + destruct (String.leb_total a.1 b.1); [by right|by left].
  - intros a b c. unfold byEndTimeDesc.
    destruct (Incident.endTime a.2) as [x|], (Incident.endTime b.2) as [y|],
             (Incident.endTime c.2) as [z|]; try done.
    + intros [Hab%Z.ltb_lt|[Hab%Z.eqb_eq Hab']%andb_prop]%orb_prop
             [Hbc%Z.ltb_lt|[Hbc%Z.eqb_eq Hbc']%andb_prop]%orb_prop;
        apply orb_true_intro;
        try (left; apply Z.ltb_lt; lia).
      right. apply andb_true_intro. split; [apply Z.eqb_eq; lia|].
      apply Is_true_true in Hab', Hbc'. apply Is_true_true. by etrans.
    + intros Hab Hbc.
      apply Is_true_true in Hab, Hbc. apply Is_true_true. by etrans.
Qed.

(** X21: an incident on the lists, from start to close.  A started
    incident is on its tenant's Active list and not on the Closed list;
    once its commander has closed it, it has left the Active list and
    is on the Closed list, at the top when no recorded end time is as
    late as the closing.  Before the start it was on neither list, and
    starting and closing it change the lists of no other incident, in
    any tenant. *)
Theorem X21_incident_lists newId defaultNumber now now' query closing auth
    st inc st1 :
  startNewIncident newId defaultNumber now query auth st
  = (Ok (newId, inc), st1) →
  incidents st !! newId = None →
  truthy (Params.incidentId closing) = Some newId →
  let customerId := AuthContext.customerId auth in
  ∃ msg st2,
    closeIncident now' closing auth st1 = (Ok msg, st2)
    ∧ (∀ tenant, ¬ onActiveList tenant st newId
                 ∧ ¬ onClosedList tenant st newId)
    ∧ (onActiveList customerId st1 newId ∧ ¬ onClosedList customerId st1 newId)
    ∧ (¬ onActiveList customerId st2 newId ∧ onClosedList customerId st2 newId)
    ∧ ((∀ j d t, incidents st !! j = Some d →
                 Incident.endTime d = Some t → t < now') →
       firstClosed customerId st2 newId)
    ∧ ∀ tenant j,
        j ≠ newId →
        (onActiveList tenant st1 j ↔ onActiveList tenant st j)
        ∧ (onClosedList tenant st1 j ↔ onClosedList tenant st j)
        ∧ (onActiveList tenant st2 j ↔ onActiveList tenant st j)
        ∧ (onClosedList tenant st2 j ↔ onClosedList tenant st j).
Proof.
  intros Hstart Hfresh Hclosing customerId.
  pose proof (startNewIncident_cases newId defaultNumber now query auth st)
    as Hcases. cbv zeta in Hcases.
  destruct (truthy (Params.sessionId query)) as [sid|] eqn:Hsid;
    [|congruence].
  destruct (customers st !! _) as [c|] eqn:Hc; [|congruence].
  destruct (_ <=? _); [congruence|].
  case_bool_decide as Hnone; [|congruence].
  rewrite Hcases in Hstart. injection Hstart as <- <-. clear Hcases.
  set (inc := startedIncident defaultNumber now query auth sid).
  set (st1 := setIncidents (insert newId inc) st).
  destruct (closeIncident_closed now' closing auth st1 newId inc)
    as (msg & st2 & Hclose & Hi2 & _ & _);
    [done|apply lookup_insert_eq|done|done|].
  assert (incidents st1 = <[newId := inc]> (incidents st)) as Hi1 by done.
  assert (incidents st2 = <[newId := Incident.close now' inc]> (incidents st))
    as Hi by (rewrite Hi2; apply insert_insert_eq).
  clearbody st1. clear Hi2.
  exists msg, st2. split; [done|].
  split; [|split; [|split; [|split]]].
  - intros tenant. rewrite onActiveList_iff, onClosedList_iff.
    split; intros (d & Hd & _); congruence.
  - rewrite onActiveList_iff, onClosedList_iff. split.
    + exists inc. rewrite Hi1, lookup_insert_eq. by repeat split.
    + intros (d & Hd & _ & Hclosed). rewrite Hi1, lookup_insert_eq in Hd.
      injection Hd as <-. done.
  - rewrite onActiveList_iff, onClosedList_iff. split.
    + intros (d & Hd & _ & Hactive). rewrite Hi, lookup_insert_eq in Hd.
      injection Hd as <-. done.
    + exists (Incident.close now' inc). rewrite Hi, lookup_insert_eq.
      by repeat split.
  - intros Hearlier. unfold firstClosed, getClosedIncidents, gets.
    eexists. split; [done|].
    match goal with |- fst <$> head ?l = _ =>
      pose proof (closed_sorted
        (whereDocs (λ d,
           bool_decide (Incident.customerId d.2 = customerId)
           && bool_decide (Incident.status d.2 = "Closed")) (incidents st2)))
        as Hsorted;
      assert ((newId, Incident.close now' inc) ∈ l) as Hin
        by (apply elem_of_closed; rewrite Hi, lookup_insert_eq;
            by repeat split);
      destruct l as [|[k d] l'] eqn:Hl; [by apply elem_of_nil in Hin|] end.
    simpl. f_equal.
    apply elem_of_cons in Hin as [[= <- _]|Hin]; [done|].
    apply StronglySorted_inv in Hsorted as [_ Hall].
    rewrite Forall_forall in Hall. specialize (Hall _ Hin).
    destruct (decide (k = newId)) as [|Hk]; [done|]. exfalso.
    assert ((k, d) ∈ sortBy byEndTimeDesc
              (whereDocs (λ d,
                 bool_decide (Incident.customerId d.2 = customerId)
                 && bool_decide (Incident.status d.2 = "Closed"))
                 (incidents st2))) as Hkd by (rewrite Hl; left).
    apply elem_of_closed in Hkd as (Hd & _).
    rewrite Hi, lookup_insert_ne in Hd by done.
    unfold byEndTimeDesc in Hall. simpl in Hall.
    destruct (Incident.endTime d) as [t|] eqn:Ht; [|done].
    specialize (Hearlier k d t Hd Ht).
    apply orb_prop in Hall as [Hlt%Z.ltb_lt|[Heq%Z.eqb_eq _]%andb_prop]; lia.
  - intros tenant j Hj.
    rewrite !onActiveList_iff, !onClosedList_iff, Hi1, Hi.
    by rewrite !lookup_insert_ne.
Qed.

Lemma X21_incident_lists_witness :
  ∃ msg st2,
    closeIncident 40 (Scenario.onIncident "I1" "A") Scenario.user1
      Scenario.st2 = (Ok msg, st2)
    ∧ (∀ tenant, ¬ onActiveList tenant Scenario.st1 "I1"
                 ∧ ¬ onClosedList tenant Scenario.st1 "I1")
    ∧ (onActiveList "T" Scenario.st2 "I1"
       ∧ ¬ onClosedList "T" Scenario.st2 "I1")
    ∧ (¬ onActiveList "T" st2 "I1" ∧ onClosedList "T" st2 "I1")
    ∧ ((∀ j d t, incidents Scenario.st1 !! j = Some d →
                 Incident.endTime d = Some t → t < 40) →
       firstClosed "T" st2 "I1")
    ∧ ∀ tenant j,
        j ≠ "I1" →
        (onActiveList tenant Scenario.st2 j ↔ onActiveList tenant Scenario.st1 j)
        ∧ (onClosedList tenant Scenario.st2 j
           ↔ onClosedList tenant Scenario.st1 j)
        ∧ (onActiveList tenant st2 j ↔ onActiveList tenant Scenario.st1 j)
        ∧ (onClosedList tenant st2 j ↔ onClosedList tenant Scenario.st1 j).
Proof.
  apply (X21_incident_lists "I1" "20260101-0000" 10 40
           (Scenario.withSession "A") (Scenario.onIncident "I1" "A")
           Scenario.user1 Scenario.st1
           (startedIncident "20260101-0000" 10 (Scenario.withSession "A")
              Scenario.user1 "A") Scenario.st2).
  - by vm_compute.
  - by vm_compute.
  - reflexivity.
Defined.

(** ** Command after the hourly sweep *)




(** ** A lock without a session *)

(** An incident whose recorded session does not exist is out of the
    reach of the sweeps. *)
Lemma orphaned_lock_kept ops st iid inc sid :
  Forall isSweep ops →
  incidents st !! iid = Some inc →
  Incident.commanderSessionId inc = Some sid →
  sessions st !! sid = None →
  incidents (performAll ops st) !! iid = Some inc
  ∧ sessions (performAll ops st) !! sid = None.
Proof.
  intros Hops. revert st.
  induction Hops as [|op ops Hop _ IH]; intros st Hinc Hsid Hgone; [done|].
  change (performAll (op :: ops) st) with (performAll ops (perform op st)).
  destruct op; try done; simpl; apply IH; try done.
  - unfold exec. rewrite cleanupstalecommandsessions_eq. cbn [snd].
    rewrite lookup_swept_incidents.
    destruct (decide _) as [Hin|]; [|done].
    apply elem_of_lockedNow_keys in Hin
      as (inc' & Hinc' & _ & sid' & Hsid' & s & Hs & _).
    rewrite Hinc in Hinc'. injection Hinc' as <-.
    rewrite Hsid in Hsid'. injection Hsid' as <-. congruence.
  - unfold exec. rewrite cleanupstalecommandsessions_eq. cbn [snd].
    rewrite lookup_swept_sessions. by destruct (decide _).
  - by rewrite cleanupoldsessions_incidents.
  - unfold exec. rewrite cleanupoldsessions_eq. simpl.
    rewrite lookup_deleteAll. by destruct (decide _).
Qed.

(** X23: a lock left by a logout is never swept.  When the commander of
    an incident logs out of the session the incident records, the
    incident keeps recording the commander and the deleted session, and
    no run of hourly and daily sweeps, at whatever times, ever releases
    it: the sweeps only look at sessions that still exist. *)
Theorem X23_logout_leaves_lock params auth st sid s iid inc ops :
  truthy (Params.sessionId params) = Some sid →
  sessions st !! sid = Some s →
  Session.uid s = AuthContext.uid auth →
  incidents st !! iid = Some inc →
  Incident.commanderSessionId inc = Some sid →
  Forall isSweep ops →
  ∃ st1,
    endSession params auth st = (Ok "Session ended successfully.", st1)
    ∧ sessions st1 !! sid = None
    ∧ incidents (performAll ops st1) !! iid = Some inc.
Proof.
  intros Hsid Hs Hown Hinc Hrec Hops.
  destruct (endSession_effect params auth st)
    as [[Hno _]|(sid' & Hsid' & [(s' & _ & _ & Hend)|[Hforeign _]])].
  - congruence.
  - rewrite Hsid in Hsid'. injection Hsid' as <-.
    eexists. split; [exact Hend|]. simpl.
    split; [apply lookup_delete_eq|].
    apply (orphaned_lock_kept ops _ iid inc sid); try done.
    simpl. apply lookup_delete_eq.
  - rewrite Hsid in Hsid'. injection Hsid' as <-.
    by destruct (Hforeign s Hs).
Qed.

Lemma X23_logout_leaves_lock_witness :
  ∃ st1,
    endSession (Scenario.withSession "A") Scenario.user1 Board.st
    = (Ok "Session ended successfully.", st1)
    ∧ sessions st1 !! "A" = None
    ∧ incidents
        (performAll [HourlySweep 7200100; DailySweep 6000000000;
                     HourlySweep 6000000000] st1) !! "I1"
      = Some Board.incident1.
Proof.
  apply (X23_logout_leaves_lock (Scenario.withSession "A") Scenario.user1
           Board.st "A" Board.sessionA "I1" Board.incident1).
  - reflexivity.
  - reflexivity.
  - reflexivity.
  - reflexivity.
  - reflexivity.
  - by repeat constructor.
Defined.

(** ** Privileged re-entry, seen from the new device *)

Lemma elem_of_commanderQuery customerId uid st d :
  head (commanderQuery customerId uid st) = Some d →
  incidents st !! d.1 = Some d.2
  ∧ Incident.customerId d.2 = customerId
  ∧ Incident.commanderUid d.2 = Some uid
  ∧ Incident.status d.2 = "Active".
Proof.
  unfold commanderQuery. rewrite head_take_1. intros Hhead.
  destruct d as [k v].
  assert ((k, v) ∈ whereDocs (λ d,
    bool_decide (Incident.customerId d.2 = customerId)
    && bool_decide (Incident.commanderUid d.2 = Some uid)
    && bool_decide (Incident.status d.2 = "Active")) (incidents st)) as Hin.
  { destruct (whereDocs _ _) as [|d l]; [done|].
    injection Hhead as ->. left. }
  apply elem_of_whereDocs in Hin as [Hk Hp]. simpl in Hp.
  apply andb_prop in Hp as [Hp Ha]. apply andb_prop in Hp as [Hc Hu].
  apply bool_decide_eq_true in Hc, Hu, Ha. by repeat split.
Qed.

(** The board offers no call on an incident that records the caller on
    another session. *)
Lemma selectAndClick_elsewhere app auth selected confirmed st inc :
  App.uid app ≠ "" →
  incidents st !! selected = Some inc →
  Incident.commanderUid inc = Some (App.uid app) →
  truthy (Incident.commanderSessionId inc) ≠ App.sessionId app →
  selectAndClick app auth selected confirmed st = None.
Proof.
  intros Hne Hinc Hmine Helsewhere. unfold selectAndClick.
  destruct (getIncidentDetails _ _ st) as [[[iid cur]|e] st'] eqn:Hget;
    [|done].
  apply getIncidentDetails_Ok in Hget
    as (-> & Hsel & inc' & Hinc' & _ & Hcur).
  simpl in Hinc', Hcur.
  change (truthy (Some selected) = Some iid) in Hsel.
  assert (selected = iid) as ->.
  { apply truthy_Some_inv in Hsel. by injection Hsel. }
  rewrite Hinc in Hinc'. injection Hinc' as <-.
  unfold handleTakeCommandClick, incidentButtons. simpl. rewrite Hcur. simpl.
  destruct (truthy (App.sessionId app)) as [sid|]; [|done].
  rewrite Hmine. simpl. rewrite (bool_decide_eq_false_2 _ Hne).
  rewrite (bool_decide_eq_true_2 (is_Some (Some (App.uid app)))) by eauto.
  rewrite (bool_decide_eq_true_2 (Some (App.uid app) = Some (App.uid app)))
    by done.
  by rewrite (bool_decide_eq_false_2 _ Helsewhere).
Qed.

(** X24: privileged re-entry ends in a locked board.  When a commander
    logs in with the slots full, the session their incident records is
    deleted and a new one created, and the incident keeps recording the
    deleted session.  From then on no run of the sweeps releases the
    incident, and on the new device the command board offers no call
    for it, however often the sweeps have run. *)
Theorem X24_reentry_locks_board newId now auth st r st1 c iid inc old app
    confirmed ops :
  createSession newId now auth st = (Ok r, st1) →
  customers st !! AuthContext.customerId auth = Some c →
  maxTotalSessions c
  <= sessionCount (AuthContext.customerId auth) st →
  head (commanderQuery (AuthContext.customerId auth) (AuthContext.uid auth)
          st) = Some (iid, inc) →
  truthy (Incident.commanderSessionId inc) = Some old →
  old ≠ newId →
  App.uid app = AuthContext.uid auth →
  App.uid app ≠ "" →
  App.sessionId app = Some newId →
  Forall isSweep ops →
  sessions st1 !! old = None
  ∧ sessions st1 !! newId = Some (newSession now auth)
  ∧ incidents (performAll ops st1) !! iid = Some inc
  ∧ selectAndClick app auth iid confirmed (performAll ops st1) = None.
Proof.
  intros Hlogin Hc Hfull Hhead Hold Hne Huid Hnonempty Hsession Hops.
  pose proof (createSession_cases newId now auth st) as Hcases.
  cbv zeta in Hcases. rewrite Hc in Hcases.
  destruct (Z.ltb_spec (sessionCount (AuthContext.customerId auth) st)
              (maxTotalSessions c)) as [|_]; [lia|].
  assert (reentryTarget (AuthContext.customerId auth) (AuthContext.uid auth)
            st = Some old) as Htarget
    by (unfold reentryTarget; by rewrite Hhead).
  rewrite Htarget in Hcases. rewrite Hcases in Hlogin.
  injection Hlogin as <- <-.
  apply elem_of_commanderQuery in Hhead as (Hinc & _ & Hcmd & _).
  simpl in Hinc, Hcmd.
  apply truthy_Some_inv in Hold as Hrec.
  assert (sessions
            (setSessions (insert newId (newSession now auth))
               (setSessions (delete old) st)) !! old = None) as Hgone.
  { simpl. rewrite lookup_insert_ne by done. apply lookup_delete_eq. }
  destruct (orphaned_lock_kept ops
              (setSessions (insert newId (newSession now auth))
                 (setSessions (delete old) st)) iid inc old Hops Hinc Hrec
              Hgone) as [Hkept _].
  split; [done|]. split; [simpl; apply lookup_insert_eq|].
  split; [done|].
  apply (selectAndClick_elsewhere app auth iid confirmed _ inc);
    [done|done|by rewrite Huid|].
  rewrite Hold, Hsession. congruence.
Qed.

Lemma X24_reentry_locks_board_witness :
  sessions Scenario.st3 !! "A" = None
  ∧ sessions Scenario.st3 !! "B" = Some (newSession 20 Scenario.user1)
  ∧ incidents (performAll [HourlySweep 7200100] Scenario.st3) !! "I1"
    = Some (Incident.mk "20260101-0000" None 10 "Active" None "T"
              (Some "user1") (Some "A"))
  ∧ selectAndClick (App.mk "user1" (Some "B") "Basic") Scenario.user1 "I1"
      true (performAll [HourlySweep 7200100] Scenario.st3) = None.
Proof.
  apply (X24_reentry_locks_board "B" 20 Scenario.user1 Scenario.st2 "B"
           Scenario.st3 Scenario.tenant "I1"
           (Incident.mk "20260101-0000" None 10 "Active" None "T"
              (Some "user1") (Some "A")) "A"
           (App.mk "user1" (Some "B") "Basic") true
           [HourlySweep 7200100]).
  - by vm_compute.
  - reflexivity.
  - by vm_compute.
  - by vm_compute.
  - reflexivity.
  - done.
  - reflexivity.
  - done.
  - reflexivity.
  - by repeat constructor.
Defined.
